(** * Bis_bot: candidate retrieval and ranking pipeline

    Shallow embedding of the text processing, embedding, vector search,
    retrieval and ranking code of the Bis_bot matching bot
    ([src/text_processing.py], [src/embeddings.py], [src/vector_db.py],
    [src/llm_service.py], [src/bot.py]).

    Python [str] values are sequences of Unicode code points; they are
    modelled as [list Z].  String literals of the source are written as
    UTF-8 Rocq strings and decoded with [u]. *)

From Stdlib Require Import Ascii String ZArith QArith List Bool Lia Sorted Permutation.
From Stdlib Require Import Reals Lra.
Import ListNotations.
Open Scope Z_scope.

(* ------------------------------------------------------------------ *)
(** ** Python strings *)

Module PyStr.

(** A Python [str]: a list of code points. *)
Definition pystr := list Z.

(** UTF-8 decoding of a byte list (well-formed input assumed). *)
Fixpoint utf8_dec (bs : list Z) : list Z :=
  match bs with
  | [] => []
  | b :: r =>
      if b <? 128 then b :: utf8_dec r
      else if b <? 224 then
        match r with
        | b1 :: r1 => (b - 192) * 64 + (b1 - 128) :: utf8_dec r1
        | [] => []
        end
      else if b <? 240 then
        match r with
        | b1 :: b2 :: r2 =>
            (b - 224) * 4096 + (b1 - 128) * 64 + (b2 - 128) :: utf8_dec r2
        | _ => []
        end
      else
        match r with
        | b1 :: b2 :: b3 :: r3 =>
            (b - 240) * 262144 + (b1 - 128) * 4096 + (b2 - 128) * 64
              + (b3 - 128) :: utf8_dec r3
        | _ => []
        end
  end.

(** A source string literal as a Python [str]. *)
Definition u (s : string) : pystr :=
  utf8_dec (map (fun a => Z.of_nat (nat_of_ascii a)) (list_ascii_of_string s)).

Definition pylen (s : pystr) : Z := Z.of_nat (length s).

(** [str.isspace] on one code point; the same set is matched by [\s] in a
    [str] regular expression (CPython's [Py_UNICODE_ISSPACE]). *)
Definition py_isspace (c : Z) : bool :=
  ((9 <=? c) && (c <=? 13)) || ((28 <=? c) && (c <=? 32)) || (c =? 133)
  || (c =? 160) || (c =? 5760) || ((8192 <=? c) && (c <=? 8202))
  || (c =? 8232) || (c =? 8233) || (c =? 8239) || (c =? 8287)
  || (c =? 12288).

Fixpoint lstrip (s : pystr) : pystr :=
  match s with
  | [] => []
  | c :: r => if py_isspace c then lstrip r else s
  end.

Definition rstrip (s : pystr) : pystr := rev (lstrip (rev s)).

(** [s.strip()] *)
Definition strip (s : pystr) : pystr := rstrip (lstrip s).

(** [re.sub(r'\s+', ' ', s)]: every maximal run of whitespace becomes one
    space; [in_run] records that the previous code point was whitespace. *)
Fixpoint sub_ws_runs (in_run : bool) (s : pystr) : pystr :=
  match s with
  | [] => []
  | c :: r =>
      if py_isspace c then
        if in_run then sub_ws_runs true r else 32 :: sub_ws_runs true r
      else c :: sub_ws_runs false r
  end.

(** [s.split()]: the maximal runs of non-whitespace, in order. *)
Fixpoint split_ws_aux (cur : pystr) (s : pystr) : list pystr :=
  match s with
  | [] => match cur with [] => [] | _ => [rev cur] end
  | c :: r =>
      if py_isspace c then
        match cur with
        | [] => split_ws_aux [] r
        | _ => rev cur :: split_ws_aux [] r
        end
      else split_ws_aux (c :: cur) r
  end.

Definition split_ws (s : pystr) : list pystr := split_ws_aux [] s.

(** Python slicing [l[:k]] for an integer [k] (negative [k] counts from
    the end). *)
Definition py_take {A} (k : Z) (l : list A) : list A :=
  if 0 <=? k then firstn (Z.to_nat k) l
  else firstn (length l - Z.to_nat (- k)) l.

(** Python slicing [s[-k:]] for [k > 0]. *)
Definition py_last {A} (k : Z) (l : list A) : list A :=
  skipn (length l - Z.to_nat k) l.

End PyStr.

Import PyStr.

(** The parts of the Unicode character database the code relies on
    through [re] and [str]: the [\w] class ([str.isalnum()] or ['_']) and
    [str.lower()].  Every theorem below holds for every instance. *)
Class UnicodeDB := {
  u_isword : Z -> bool;
  u_lower : pystr -> pystr
}.

(** The character database restricted to ASCII, Latin-1 and the Cyrillic
    block, used to evaluate the code on concrete inputs; code points
    outside these ranges are treated as non-word characters. *)
Definition basic_isword (c : Z) : bool :=
  ((48 <=? c) && (c <=? 57)) || ((65 <=? c) && (c <=? 90))
  || (c =? 95) || ((97 <=? c) && (c <=? 122))
  || (c =? 170) || (c =? 178) || (c =? 179) || (c =? 181) || (c =? 185)
  || (c =? 186) || ((188 <=? c) && (c <=? 190))
  || ((192 <=? c) && (c <=? 214)) || ((216 <=? c) && (c <=? 246))
  || ((248 <=? c) && (c <=? 255))
  || ((1024 <=? c) && (c <=? 1153)) || ((1162 <=? c) && (c <=? 1279)).

Definition basic_lower_char (c : Z) : Z :=
  if (65 <=? c) && (c <=? 90) then c + 32
  else if (192 <=? c) && (c <=? 222) && negb (c =? 215) then c + 32
  else if (1040 <=? c) && (c <=? 1071) then c + 32
  else if (1024 <=? c) && (c <=? 1039) then c + 80
  else c.

#[export] Instance basic_unicode : UnicodeDB := {
  u_isword := basic_isword;
  u_lower := map basic_lower_char
}.

(* ------------------------------------------------------------------ *)
(** ** [TextProcessor] ([src/text_processing.py]) *)

Module TextProcessing.

Section WithUnicode.
Context {U : UnicodeDB}.

(** Characters kept by the second [re.sub] of [clean_text]: the class
    [\w], [\s], the punctuation [.,!?;:-()«»] and the ASCII double quote
    (listed twice in the source's character class). *)
Definition clean_punct : list Z := u ".,!?;:-()«»" ++ [34; 34].

Definition clean_keep (c : Z) : bool :=
  u_isword c || py_isspace c || existsb (Z.eqb c) clean_punct.

(** [TextProcessor.clean_text] *)
Definition clean_text (text : pystr) : pystr :=
  match text with
  | [] => []
  | _ => filter clean_keep (sub_ws_runs false (strip text))
  end.

(** [split_into_sentences], first step: [re.split(r'[.!?]+\s*', text)].
    [mode] is 0 inside a piece, 1 inside the run of terminators of a
    separator and 2 inside its trailing whitespace; a terminator right
    after a separator starts the next separator and leaves an empty
    piece between the two. *)
Definition is_terminator (c : Z) : bool := (c =? 46) || (c =? 33) || (c =? 63).

Fixpoint re_split_terminators (mode : nat) (cur : pystr) (s : pystr)
    : list pystr :=
  match s with
  | [] => [rev cur]
  | c :: r =>
      if is_terminator c then
        match mode with
        | O => rev cur :: re_split_terminators 1 [] r
        | 1%nat => re_split_terminators 1 [] r
        | _ => [] :: re_split_terminators 1 [] r
        end
      else if py_isspace c then
        match mode with
        | O => re_split_terminators 0 (c :: cur) r
        | _ => re_split_terminators 2 [] r
        end
      else re_split_terminators 0 (c :: cur) r
  end.

Definition nonempty {A} (l : list A) : bool :=
  match l with [] => false | _ => true end.

(** [TextProcessor.split_into_sentences] *)
Definition split_into_sentences (text : pystr) : list pystr :=
  filter nonempty (map strip (re_split_terminators 0 [] text)).

End WithUnicode.

(** The configuration of a [TextProcessor] object. *)
Record TextProcessor := {
  chunk_size : Z;
  chunk_overlap : Z
}.

(** [TextProcessor(chunk_size, chunk_overlap)]: a missing or zero argument
    is replaced by the [TEXT_SPLIT_PARAMS] default ([x or default]). *)
Definition py_or_default (x : option Z) (d : Z) : Z :=
  match x with
  | Some v => if v =? 0 then d else v
  | None => d
  end.

Definition new_text_processor (cs co : option Z) : TextProcessor :=
  {| chunk_size := py_or_default cs 1200;
     chunk_overlap := py_or_default co 150 |}.

(** The global [text_processor = TextProcessor()]. *)
Definition text_processor : TextProcessor := new_text_processor None None.

(** Python slicing [l[i:]]. *)
Definition py_drop {A} (i : Z) (l : list A) : list A :=
  if 0 <=? i then skipn (Z.to_nat i) l
  else skipn (length l - Z.to_nat (- i)) l.

Section Chunking.
Context {U : UnicodeDB}.
Variable tp : TextProcessor.

(** One word of the forced split of an over-long sentence:
    state [(chunks, temp_chunk)]. *)
Definition word_step (st : list pystr * pystr) (word : pystr)
    : list pystr * pystr :=
  let '(chunks, temp) := st in
  if pylen temp + pylen word + 1 >? chunk_size tp then
    (if nonempty temp then chunks ++ [strip temp] else chunks, word)
  else (chunks, if nonempty temp then temp ++ [32] ++ word else word).

(** One sentence of the main loop: state [(chunks, current_chunk)]. *)
Definition sentence_step (st : list pystr * pystr) (sentence : pystr)
    : list pystr * pystr :=
  let '(chunks, cur) := st in
  if pylen cur + pylen sentence >? chunk_size tp then
    if nonempty cur then
      let overlap_text :=
        if pylen cur >? chunk_overlap tp
        then py_drop (- chunk_overlap tp) cur else cur in
      (chunks ++ [strip cur], overlap_text ++ [32] ++ sentence)
    else if pylen sentence >? chunk_size tp then
      let '(chunks', temp) :=
        fold_left word_step (split_ws sentence) (chunks, []) in
      (chunks', if nonempty temp then temp else cur)
    else (chunks, sentence)
  else (chunks, if nonempty cur then cur ++ [32] ++ sentence else sentence).

(** [TextProcessor.chunk_text] *)
Definition chunk_text (text : pystr) : list pystr :=
  if negb (nonempty text) || (pylen text <=? chunk_size tp) then
    if nonempty text then [text] else []
  else
    let '(chunks, cur) :=
      fold_left sentence_step (split_into_sentences text) ([], []) in
    if nonempty cur then chunks ++ [strip cur] else chunks.

End Chunking.

Section Keywords.
Context {U : UnicodeDB}.

Definition pystr_eqb (a b : pystr) : bool :=
  if list_eq_dec Z.eq_dec a b then true else false.

(** [x in xs] for a list or set of strings. *)
Definition py_in (x : pystr) (xs : list pystr) : bool :=
  existsb (pystr_eqb x) xs.

(** The class [[а-яё]]: U+0430..U+044F and U+0451. *)
Definition is_cyr_lower (c : Z) : bool :=
  ((1072 <=? c) && (c <=? 1103)) || (c =? 1105).

Definition isword_at (c : option Z) : bool :=
  match c with Some c => u_isword c | None => false end.

(** [\b] between the code points [p] and [n] ([None] at either end). *)
Definition word_boundary (p n : option Z) : bool :=
  xorb (isword_at p) (isword_at n).

Fixpoint cyr_prefix (s : pystr) : pystr :=
  match s with
  | c :: r => if is_cyr_lower c then c :: cyr_prefix r else []
  | [] => []
  end.

(** Backtracking of the greedy [[а-яё]{3,}] followed by [\b]: the
    longest length [j <= n], [j >= 3], with a boundary after [j] code
    points of [s]. *)
Fixpoint longest_match (n : nat) (s : pystr) : option nat :=
  match n with
  | O => None
  | S n' =>
      if (3 <=? n)%nat && word_boundary (nth_error s n') (nth_error s n)
      then Some n else longest_match n' s
  end.

(** A match of [\b[а-яё]{3,}\b] starting at [s], [prev] being the code
    point before it. *)
Definition match_at (prev : option Z) (s : pystr) : option nat :=
  if word_boundary prev (hd_error s)
  then longest_match (length (cyr_prefix s)) s else None.

(** [re.findall] scanning left to right; [fuel] bounds the number of
    positions tried. *)
Fixpoint findall_aux (fuel : nat) (prev : option Z) (s : pystr)
    : list pystr :=
  match fuel with
  | O => []
  | S fuel' =>
      match s with
      | [] => []
      | c :: r =>
          match match_at prev s with
          | Some j =>
              firstn j s :: findall_aux fuel' (nth_error s (j - 1)) (skipn j s)
          | None => findall_aux fuel' (Some c) r
          end
      end
  end.

(** [re.findall(r'\b[а-яё]{3,}\b', s)] *)
Definition findall_cyr_words (s : pystr) : list pystr :=
  findall_aux (S (length s)) None s.

Definition stop_words : list pystr :=
  map u ["это"; "что"; "как"; "для"; "или"; "при"; "все"; "еще"; "уже";
         "где"; "кто"; "чем"; "том"; "тем"; "так"; "был"; "была"; "было";
         "есть"; "быть"; "мне"; "нас"; "вас"; "них"; "его"; "её"; "их";
         "могу"; "можем"; "можете"; "могут"; "хочу"; "хотим"; "хотите";
         "хотят"]%string.

Definition count_in (ws : list pystr) (w : pystr) : nat :=
  count_occ (list_eq_dec Z.eq_dec) ws w.

(** The distinct elements of a list in order of first occurrence
    ([seen] holds the elements already met). *)
Fixpoint dedup_seen (seen : list pystr) (l : list pystr) : list pystr :=
  match l with
  | [] => []
  | x :: r =>
      if py_in x seen then dedup_seen seen r
      else x :: dedup_seen (x :: seen) r
  end.

(** [Counter(ws)]: a dict from each distinct element to its number of
    occurrences, keys in insertion (first occurrence) order. *)
Definition counter (ws : list pystr) : list (pystr * nat) :=
  map (fun w => (w, count_in ws w)) (dedup_seen [] ws).

(** Stable insertion by decreasing count: [x] goes before the first
    element whose count is not larger. *)
Fixpoint insert_by_count (x : pystr * nat) (l : list (pystr * nat))
    : list (pystr * nat) :=
  match l with
  | [] => [x]
  | y :: l' =>
      if (snd y <=? snd x)%nat then x :: l else y :: insert_by_count x l'
  end.

Fixpoint sort_by_count (l : list (pystr * nat)) : list (pystr * nat) :=
  match l with
  | [] => []
  | x :: r => insert_by_count x (sort_by_count r)
  end.

(** [Counter.most_common(n)]: [heapq.nlargest(n, items, key=count)], the
    first [n] items of the stable sort by decreasing count. *)
Definition most_common (n : nat) (c : list (pystr * nat))
    : list (pystr * nat) :=
  firstn n (sort_by_count c).

(** The tokens kept by the list comprehension of [extract_keywords]. *)
Definition keyword_ok (w : pystr) : bool :=
  negb (py_in w stop_words) && (3 <? pylen w).

(** [TextProcessor.extract_keywords] *)
Definition extract_keywords (text : pystr) : list pystr :=
  match text with
  | [] => []
  | _ =>
      let words := findall_cyr_words (u_lower text) in
      let keywords := filter keyword_ok words in
      map fst (most_common 10 (counter keywords))
  end.

End Keywords.

End TextProcessing.

(* ------------------------------------------------------------------ *)
(** ** Profiles and JSON values *)

(** A profile snapshot as the retrieval and ranking code handles it: a
    dict with the columns of the [users]/[user_profiles] rows (or the
    payload of a vector index point), and the keys added along the way. *)
Local Set Warnings "-register-all".

Inductive json :=
  | JNull
  | JBool (b : bool)
  | JInt (z : Z)
  | JFloat (q : Q)
  | JStr (s : pystr)
  | JArr (items : list json)
  | JObj (kvs : list (pystr * json)).

Record Profile := {
  telegram_id : Z;
  user_id : option Z;            (* payload key of vector index points *)
  first_name : pystr;
  username : pystr;
  answer_1 : pystr;
  answer_2 : pystr;
  answer_3 : pystr;
  similarity_score : option Q;   (* added by [search_similar_profiles] *)
  match_score : option json;
  match_reason : option json
}.

(** [d.get(k)] on a dict decoded by [json.loads]: the last binding of a
    repeated key wins. *)
Definition dict_get (kvs : list (pystr * json)) (k : pystr) : option json :=
  match find (fun kv => TextProcessing.pystr_eqb (fst kv) k) (rev kvs) with
  | Some (_, v) => Some v
  | None => None
  end.

Definition dict_get_default (kvs : list (pystr * json)) (k : pystr) (d : json)
    : json :=
  match dict_get kvs k with Some v => v | None => d end.

(* ------------------------------------------------------------------ *)
(** ** [DeepSeekService.find_best_matches] ([src/llm_service.py]) *)

Module Ranker.

(** The outcome of the oracle call: the call (or reading its reply)
    raised, or the reply text, after the code-fence stripping, went
    through [json.loads], which raised [JSONDecodeError] ([None]) or
    returned a value. *)
Inductive oracle_reply :=
  | OracleFailed
  | OracleText (parsed : option json).

(** A Python number. *)
Inductive pynum := PInt (z : Z) | PFloat (q : Q).

(** [v - 1]; [None] is the [TypeError] of a non-numeric [v]. *)
Definition py_minus_one (v : json) : option pynum :=
  match v with
  | JInt z => Some (PInt (z - 1))
  | JBool b => Some (PInt ((if b then 1 else 0) - 1))
  | JFloat q => Some (PFloat (q - 1)%Q)
  | _ => None
  end.

(** [0 <= idx < n] *)
Definition in_range (idx : pynum) (n : Z) : bool :=
  match idx with
  | PInt z => (0 <=? z) && (z <? n)
  | PFloat q => Qle_bool 0 q && negb (Qle_bool (inject_Z n) q)
  end.

(** [for match in v]: the items iterated over; [None] is the [TypeError]
    of a non-iterable value.  A string iterates over its characters and a
    dict over its keys. *)
Definition py_iter (v : json) : option (list json) :=
  match v with
  | JArr items => Some items
  | JStr s => Some (map (fun c => JStr [c]) s)
  | JObj kvs => Some (map (fun kv => JStr (fst kv)) kvs)
  | _ => None
  end.

Definition default_reason : json := JStr (u "Подходящий кандидат").

(** [profile = candidate_profiles[idx].copy()] with [match_score] and
    [match_reason] set. *)
Definition with_match (p : Profile) (score reason : json) : Profile :=
  {| telegram_id := telegram_id p; user_id := user_id p;
     first_name := first_name p; username := username p;
     answer_1 := answer_1 p; answer_2 := answer_2 p; answer_3 := answer_3 p;
     similarity_score := similarity_score p;
     match_score := Some score; match_reason := Some reason |}.

Section Parse.
Variable candidate_profiles : list Profile.

(** One iteration of the loop over [result.get('matches', [])]: the
    profile appended to [matches], if any; [None] is an exception. *)
Definition match_entry (m : json) : option (list Profile) :=
  match m with
  | JObj d =>
      match py_minus_one (dict_get_default d (u "candidate_index") (JInt 1)) with
      | None => None
      | Some idx =>
          if in_range idx (Z.of_nat (length candidate_profiles)) then
            match idx with
            | PInt z =>
                match nth_error candidate_profiles (Z.to_nat z) with
                | Some p =>
                    Some [with_match p
                            (dict_get_default d (u "match_score") (JInt 0))
                            (dict_get_default d (u "reason") default_reason)]
                | None => None
                end
            | PFloat _ => None
            end
          else Some []
      end
  | _ => None
  end.

Fixpoint collect_matches (items : list json) : option (list Profile) :=
  match items with
  | [] => Some []
  | m :: rest =>
      match match_entry m with
      | None => None
      | Some here =>
          match collect_matches rest with
          | None => None
          | Some later => Some (here ++ later)
          end
      end
  end.

(** The [matches] list built from a decoded reply; [None] is an exception
    ([result.get] on a non-dict, a non-iterable or ill-typed entry, ...). *)
Definition parse_matches (result : json) : option (list Profile) :=
  match result with
  | JObj kvs =>
      match py_iter (dict_get_default kvs (u "matches") (JArr [])) with
      | Some items => collect_matches items
      | None => None
      end
  | _ => None
  end.

End Parse.

(** [find_best_matches(user_profile, candidate_profiles, top_k)].  The
    prompt only feeds the oracle, whose reply is the [reply] argument;
    both [except] branches return [candidate_profiles[:top_k]]. *)
Definition find_best_matches (user_profile : Profile)
    (candidate_profiles : list Profile) (top_k : Z) (reply : oracle_reply)
    : list Profile :=
  match reply with
  | OracleFailed => py_take top_k candidate_profiles
  | OracleText None => py_take top_k candidate_profiles
  | OracleText (Some result) =>
      match parse_matches candidate_profiles result with
      | Some matches => py_take top_k matches
      | None => py_take top_k candidate_profiles
      end
  end.

End Ranker.

(* ------------------------------------------------------------------ *)
(** ** [VectorDatabase.search_similar_profiles] ([src/vector_db.py]) *)

Module VectorDB.

(** A scored point returned by the index client: its payload ([None]
    when the point carries none) and its similarity score. *)
Record Hit := {
  hit_payload : option Profile;
  hit_score : Q
}.

(** [profile = dict(hit.payload); profile["similarity_score"] = hit.score] *)
Definition with_similarity (pl : Profile) (score : Q) : Profile :=
  {| telegram_id := telegram_id pl; user_id := user_id pl;
     first_name := first_name pl; username := username pl;
     answer_1 := answer_1 pl; answer_2 := answer_2 pl;
     answer_3 := answer_3 pl; similarity_score := Some score;
     match_score := match_score pl; match_reason := match_reason pl |}.

Definition same_user (payload_user_id : option Z) (uid : Z) : bool :=
  match payload_user_id with Some v => v =? uid | None => false end.

(** The filtering loop over [search_result]; [None] is the
    [AttributeError] of [hit.payload.get] on a point without payload. *)
Fixpoint filter_hits (uid : Z) (hits : list Hit) : option (list Profile) :=
  match hits with
  | [] => Some []
  | h :: rest =>
      match hit_payload h with
      | None => None
      | Some pl =>
          match filter_hits uid rest with
          | None => None
          | Some ps =>
              if negb (same_user (user_id pl) uid)
              then Some (with_similarity pl (hit_score h) :: ps)
              else Some ps
          end
      end
  end.

Section Search.
(** The index client's [search(query_vector, limit)]: the points it
    returns, or [None] when it raises. *)
Variable client_search : list Q -> Z -> option (list Hit).

(** [search_similar_profiles(embedding, user_id, limit)]; [None] is the
    Python [None] embedding. *)
Definition search_similar_profiles (embedding : option (list Q)) (uid : Z)
    (limit : Z) : list Profile :=
  match embedding with
  | None => []
  | Some e =>
      match client_search e (limit + 1) with
      | None => []
      | Some hits =>
          match filter_hits uid hits with
          | None => []
          | Some similar_profiles => py_take limit similar_profiles
          end
      end
  end.

End Search.

End VectorDB.

(* ------------------------------------------------------------------ *)
(** ** Candidate retrieval in [BusinessMatchingBot.find_matches]
    ([src/bot.py]) *)

Module Retriever.

(** The result of a call to a store: a value, or an exception. *)
Inductive outcome (A : Type) := Ok (a : A) | Raised.
Arguments Ok {A} a.
Arguments Raised {A}.

(** What the stores answer during one call of [find_matches]. *)
Record RetrievalEnv := {
  (* [db.find_profiles_with_keywords(user_id, keywords, limit=15)] *)
  env_keyword_search : outcome (list Profile);
  (* [vector_db.get_user_embedding(user_id)] returned a non-empty vector
     (it returns [None] on a failure, it never raises) *)
  env_stored_embedding : bool;
  (* the lazy backfill: [prepare_profile_text], [create_profile_embedding],
     [db.get_or_create_user] and [vector_db.save_profile_embedding] *)
  env_backfill : outcome unit;
  (* [vector_db.search_similar_profiles(user_embedding, user_id, limit=15)],
     which never raises *)
  env_vector_search : list Profile;
  (* [db.get_all_active_profiles(exclude_user_id=user_id)] *)
  env_all_active : outcome (list Profile)
}.

(** The end of the candidate stage of [find_matches]: the candidates
    passed to the ranker ([[]] makes it answer that nobody was found), or
    the outer [except] that answers with an error message. *)
Inductive retrieval := Candidates (l : list Profile) | MatchingError.

Definition z_in (z : Z) (zs : list Z) : bool := existsb (Z.eqb z) zs.

(** The loop of "Combine and deduplicate" over the concatenation of the
    lists, [seen] being [seen_users]. *)
Fixpoint dedup_by_id (seen : list Z) (l : list Profile) : list Profile :=
  match l with
  | [] => []
  | p :: rest =>
      if z_in (telegram_id p) seen then dedup_by_id seen rest
      else p :: dedup_by_id (telegram_id p :: seen) rest
  end.

(** [similar_profiles = combined_profiles[:20]], where [combined_profiles]
    iterates [candidate_profiles] then [vector_profiles]. *)
Definition combine_candidates (candidate_profiles vector_profiles : list Profile)
    : list Profile :=
  firstn 20 (dedup_by_id [] (concat [candidate_profiles; vector_profiles])).

(** The vector step with its two nested [try] blocks. *)
Definition vector_profiles_of (env : RetrievalEnv) : list Profile :=
  let inner :=
    if env_stored_embedding env then Ok (env_vector_search env)
    else match env_backfill env with
         | Ok _ => Ok (env_vector_search env)
         | Raised => Raised
         end in
  match inner with
  | Ok v => v
  | Raised =>
      match env_all_active env with
      | Ok v => v
      | Raised => []
      end
  end.

(** [find_matches] up to [similar_profiles], for a requester with a stored
    profile whose keyword list is [keywords]. *)
Definition find_matches_candidates (env : RetrievalEnv) (keywords : list pystr)
    : retrieval :=
  let keyword_step :=
    match keywords with
    | [] => Ok []
    | _ => env_keyword_search env
    end in
  match keyword_step with
  | Raised => MatchingError
  | Ok candidate_profiles =>
      Candidates (combine_candidates candidate_profiles (vector_profiles_of env))
  end.

End Retriever.

(* ------------------------------------------------------------------ *)
(** ** Profile embeddings ([src/embeddings.py]) *)

(** Embedding vectors are lists of reals (numpy [float32] rounding is not
    modelled).  A numpy division by a zero norm yields a vector of [nan];
    it is modelled as [None]. *)
Module Embeddings.
Import TextProcessing.
Local Open Scope R_scope.

Definition vec := list R.

(** Component-wise sum of two vectors of the same shape. *)
Definition vadd (a b : vec) : vec := map (fun '(x, y) => x + y) (combine a b).

Definition vscale (c : R) (a : vec) : vec := map (fun x => c * x) a.

(** [np.mean(vs, axis=0)] for a non-empty list of vectors. *)
Definition vmean (vs : list vec) : vec :=
  match vs with
  | [] => []
  | v :: rest => vscale (/ INR (length vs)) (fold_left vadd rest v)
  end.

Definition sumsq (a : vec) : R := fold_right (fun x acc => x * x + acc) 0 a.

(** [np.linalg.norm]: the L2 norm. *)
Definition vnorm (a : vec) : R := sqrt (sumsq a).

(** [averaged / np.linalg.norm(averaged)]; [None] stands for the all-[nan]
    vector numpy produces when the norm is zero. *)
Definition normalize (a : vec) : option vec :=
  if Req_EM_T (vnorm a) 0 then None else Some (vscale (/ vnorm a) a).

Section WithUnicode.
Context {U : UnicodeDB}.

(** [structured_text] of [TextProcessor.prepare_profile_text]. *)
Definition structured_text (a1 a2 a3 : pystr) : pystr :=
  u "Сфера деятельности: " ++ clean_text a1 ++ [10%Z] ++
  u "Что ищет в сообществе: " ++ clean_text a2 ++ [10%Z] ++
  u "Чем может помочь другим: " ++ clean_text a3.

(** The ['chunks'] entry of [prepare_profile_text]. *)
Definition prepare_chunks (a1 a2 a3 : pystr) : list pystr :=
  let st := structured_text a1 a2 a3 in
  if (400 <? pylen st)%Z then chunk_text text_processor st else [st].

(** [EmbeddingService.create_profile_embedding] with the model's
    [encode(chunk, normalize_embeddings=True)] as [encode]. *)
Definition create_profile_embedding (encode : pystr -> vec)
    (a1 a2 a3 : pystr) : option vec :=
  match prepare_chunks a1 a2 a3 with
  | [c] => Some (encode c)
  | chunks => normalize (vmean (map encode chunks))
  end.

End WithUnicode.

(** Inputs for evaluating [create_profile_embedding]: two long answers
    without sentence terminators, so that the structured text (over 1200
    code points) is cut into two chunks. *)
Definition long_answer_1 : pystr := repeat 97%Z 700.
Definition long_answer_2 : pystr := repeat 98%Z 700.
Definition short_answer_3 : pystr := u "x".

(** An encoder returning the unit vector [[1]] for the text [c1] and the
    opposite unit vector [[-1]] for every other text. *)
Definition antipodal_encode (c1 : pystr) (s : pystr) : vec :=
  if pystr_eqb s c1 then [1] else [-1].

End Embeddings.

(* ------------------------------------------------------------------ *)
(** ** MarkdownV2 helpers of [BusinessMatchingBot] ([src/bot.py]) *)

Module Markdown.

(** [text.replace(old, new)] for a one-character [old]: every occurrence
    of [old] is replaced. *)
Definition py_replace_char (old : Z) (new : pystr) (text : pystr) : pystr :=
  flat_map (fun x => if x =? old then new else [x]) text.

(** [special_chars] of [_escape_markdown], in the source's order:
    [\ _ * [ ] ( ) ~ ` > # + - = | { } . !] *)
Definition special_chars : list Z :=
  [92; 95; 42; 91; 93; 40; 41; 126; 96; 62; 35; 43; 45; 61; 124; 123; 125;
   46; 33].

(** One iteration of the loop over [special_chars]. *)
Definition escape_step (text : pystr) (char : Z) : pystr :=
  if char =? 92 then py_replace_char char [92; 92] text
  else py_replace_char char [92; char] text.

(** [BusinessMatchingBot._escape_markdown] *)
Definition escape_markdown (text : pystr) : pystr :=
  match text with
  | [] => []
  | _ => fold_left escape_step special_chars text
  end.

(** The longest prefix of [r] without [d], and the rest. *)
Fixpoint span_not (d : Z) (r : pystr) : pystr * pystr :=
  match r with
  | [] => ([], [])
  | x :: r' =>
      if x =? d then ([], r)
      else let '(a, b) := span_not d r' in (x :: a, b)
  end.

(** [re.sub(r'D([^D]+)D', r'\1', text)] for a delimiter [D] ([*] or [_]):
    at a delimiter, the longest run of other characters is taken; the
    match needs a non-empty run followed by a delimiter, and otherwise
    the search moves on by one character.  [fuel] bounds the number of
    steps ([length text] is enough). *)
Fixpoint sub_delim (fuel : nat) (d : Z) (text : pystr) : pystr :=
  match fuel with
  | O => text
  | S fuel' =>
      match text with
      | [] => []
      | c :: r =>
          if c =? d then
            match span_not d r with
            | ((_ :: _) as body, _ :: after) => body ++ sub_delim fuel' d after
            | _ => c :: sub_delim fuel' d r
            end
          else c :: sub_delim fuel' d r
      end
  end.

(** [re.sub(r'\\(.)', r'\1', text)]: a backslash followed by a character
    other than a newline ([.] does not match ['\n']) is replaced by that
    character. *)
Fixpoint unescape (text : pystr) : pystr :=
  match text with
  | [] => []
  | c :: r =>
      if c =? 92 then
        match r with
        | [] => [92]
        | c2 :: r2 => if c2 =? 10 then 92 :: unescape r else c2 :: unescape r2
        end
      else c :: unescape r
  end.

(** [BusinessMatchingBot._strip_markdown] *)
Definition strip_markdown (text : pystr) : pystr :=
  let t1 := sub_delim (length text) 42 text in
  let t2 := sub_delim (length t1) 95 t1 in
  unescape t2.

End Markdown.

(* ------------------------------------------------------------------ *)
(** ** Phone number validation ([BusinessMatchingBot._validate_phone]) *)

(** The decimal digits matched by [\d] in a [str] pattern (the Unicode
    category Nd).  Every theorem below holds for every instance. *)
Class DigitDB := {
  u_isdecimal : Z -> bool
}.

(** ASCII digits and a few other Nd blocks (Arabic-Indic, extended
    Arabic-Indic, Devanagari, fullwidth), used to evaluate the code on
    concrete inputs. *)
Definition basic_isdecimal (c : Z) : bool :=
  ((48 <=? c) && (c <=? 57)) || ((1632 <=? c) && (c <=? 1641))
  || ((1776 <=? c) && (c <=? 1785)) || ((2406 <=? c) && (c <=? 2415))
  || ((65296 <=? c) && (c <=? 65305)).

#[export] Instance basic_digits : DigitDB := {
  u_isdecimal := basic_isdecimal
}.

Module Phone.

Section WithDigits.
Context {D : DigitDB}.

(** The characters kept by [re.sub(r'[^\d+]', '', phone_text)]. *)
Definition phone_keep (c : Z) : bool := u_isdecimal c || (c =? 43).

Definition clean_phone (phone_text : pystr) : pystr := filter phone_keep phone_text.

(** [$] without [MULTILINE]: the end of the string, or a final newline. *)
Definition end_ok (rest : pystr) : bool :=
  match rest with [] => true | [c] => c =? 10 | _ => false end.

(** [\d{lo,hi}$] matched at the start of [s]: some repetition count [k]
    in [lo..hi] for which the first [k] characters are digits and [$]
    matches after them. *)
Definition digits_then_end (lo hi : nat) (s : pystr) : bool :=
  existsb (fun k => Nat.leb k (length s) && forallb u_isdecimal (firstn k s)
                    && end_ok (skipn k s))
          (seq lo (S hi - lo)).

(** [re.match(r'^\+\d{10,15}$', s)] *)
Definition match_intl (s : pystr) : bool :=
  match s with
  | c :: r => (c =? 43) && digits_then_end 10 15 r
  | [] => false
  end.

(** [re.match(r'^\d{10,11}$', s)] *)
Definition match_local (s : pystr) : bool := digits_then_end 10 11 s.

(** [BusinessMatchingBot._validate_phone] *)
Definition validate_phone (phone_text : pystr) : bool :=
  let clean := clean_phone phone_text in
  existsb (fun pattern => pattern clean) [match_intl; match_local].

End WithDigits.

End Phone.

(* ------------------------------------------------------------------ *)
(** ** Birthday validation ([BusinessMatchingBot._validate_birthday]) *)

(** The decimal value of a digit, as [int()] reads it. *)
Class DigitValue := {
  u_decimal : Z -> Z
}.

Definition basic_decimal (c : Z) : Z :=
  if (48 <=? c) && (c <=? 57) then c - 48
  else if (1632 <=? c) && (c <=? 1641) then c - 1632
  else if (1776 <=? c) && (c <=? 1785) then c - 1776
  else if (2406 <=? c) && (c <=? 2415) then c - 2406
  else if (65296 <=? c) && (c <=? 65305) then c - 65296
  else 0.

#[export] Instance basic_values : DigitValue := {
  u_decimal := basic_decimal
}.

Module Birthday.

(** The separators of the three patterns of [VALIDATION_PATTERNS["birthday"]]
    and of the three formats ['%d.%m.%Y'], ['%d/%m/%Y'], ['%d-%m-%Y'],
    in the order the code tries them. *)
Definition separators : list Z := [46; 47; 45].

Definition ascii_in (lo hi c : Z) : bool := (lo <=? c) && (c <=? hi).

(** Gregorian calendar, as [datetime.date] checks it. *)
Definition is_leap (y : Z) : bool :=
  (y mod 4 =? 0) && (negb (y mod 100 =? 0) || (y mod 400 =? 0)).

Definition days_in_month (y m : Z) : Z :=
  if m =? 2 then (if is_leap y then 29 else 28)
  else if existsb (Z.eqb m) [4; 6; 9; 11] then 30 else 31.

(** [datetime.date(year, month, day)] does not raise [ValueError]. *)
Definition valid_date (y m d : Z) : bool :=
  (1 <=? y) && (y <=? 9999) && (1 <=? m) && (m <=? 12)
  && (1 <=? d) && (d <=? days_in_month y m).

Section WithDigits.
Context {D : DigitDB} {V : DigitValue}.

(** [\d{k}] at the start of [s]. *)
Definition digits_at (k : nat) (s : pystr) : bool :=
  Nat.leb k (length s) && forallb u_isdecimal (firstn k s).

(** [re.match(r'^\d{1,2}<sep>\d{1,2}<sep>\d{4}$', s)]: some repetition
    counts of the two [\d{1,2}] for which the rest matches. *)
Definition match_date_pattern (sep : Z) (s : pystr) : bool :=
  existsb (fun k1 =>
    digits_at k1 s &&
    match skipn k1 s with
    | c :: r =>
        (c =? sep) &&
        existsb (fun k2 =>
          digits_at k2 r &&
          match skipn k2 r with
          | c' :: r' =>
              (c' =? sep) && digits_at 4 r' && Phone.end_ok (skipn 4 r')
          | [] => false
          end) [1; 2]%nat
    | [] => false
    end) [1; 2]%nat.

(** One alternative of a group: a character matching [p1] followed by
    one matching [p2], or a single character matching [p]; the matched
    text and the rest. *)
Definition two (p1 p2 : Z -> bool) (s : pystr) : list (pystr * pystr) :=
  match s with
  | c1 :: c2 :: r => if p1 c1 && p2 c2 then [([c1; c2], r)] else []
  | _ => []
  end.

Definition one (p : Z -> bool) (s : pystr) : list (pystr * pystr) :=
  match s with
  | c :: r => if p c then [([c], r)] else []
  | [] => []
  end.

(** The group [(?P<d>3[0-1]|[1-2]\d|0[1-9]|[1-9]| [1-9])] of [_strptime]:
    the ways it matches at the start of [s], in the order the regular
    expression engine tries them. *)
Definition day_alts (s : pystr) : list (pystr * pystr) :=
  two (Z.eqb 51) (ascii_in 48 49) s ++ two (ascii_in 49 50) u_isdecimal s
  ++ two (Z.eqb 48) (ascii_in 49 57) s ++ one (ascii_in 49 57) s
  ++ two (Z.eqb 32) (ascii_in 49 57) s.

(** [(?P<m>1[0-2]|0[1-9]|[1-9])] *)
Definition month_alts (s : pystr) : list (pystr * pystr) :=
  two (Z.eqb 49) (ascii_in 48 50) s ++ two (Z.eqb 48) (ascii_in 49 57) s
  ++ one (ascii_in 49 57) s.

(** [(?P<Y>\d\d\d\d)] *)
Definition year_alts (s : pystr) : list (pystr * pystr) :=
  if digits_at 4 s then [(firstn 4 s, skipn 4 s)] else [].

(** The matches of the format regex of ['%d<sep>%m<sep>%Y'] at the start
    of [s] (groups and rest), in backtracking order; [format_regex.match]
    returns the first. *)
Definition format_matches (sep : Z) (s : pystr)
    : list (pystr * pystr * pystr * pystr) :=
  flat_map (fun '(dg, r1) =>
    match r1 with
    | c :: r1' =>
        if c =? sep then
          flat_map (fun '(mg, r2) =>
            match r2 with
            | c' :: r2' =>
                if c' =? sep then
                  map (fun '(yg, r3) => (dg, mg, yg, r3)) (year_alts r2')
                else []
            | [] => []
            end) (month_alts r1')
        else []
    | [] => []
    end) (day_alts s).

(** [int(g)]: surrounding whitespace is ignored. *)
Definition py_int (g : pystr) : Z :=
  fold_left (fun acc c => acc * 10 + u_decimal c) (strip g) 0.

(** [datetime.strptime(s, '%d<sep>%m<sep>%Y')]: the year, month and day,
    or [None] for the [ValueError] (no match, unconverted data left, or
    no such date). *)
Definition strptime_dmy (sep : Z) (s : pystr) : option (Z * Z * Z) :=
  match hd_error (format_matches sep s) with
  | Some (dg, mg, yg, []) =>
      let y := py_int yg in
      let m := py_int mg in
      let d := py_int dg in
      if valid_date y m d then Some (y, m, d) else None
  | _ => None
  end.

(** [BusinessMatchingBot._validate_birthday], [current_year] being
    [datetime.now().year]. *)
Definition validate_birthday (current_year : Z) (birthday_text : pystr) : bool :=
  if negb (existsb (fun sep => match_date_pattern sep birthday_text) separators)
  then false
  else existsb (fun sep =>
         match strptime_dmy sep birthday_text with
         | Some (y, _, _) => (1924 <=? y) && (y <=? current_year - 16)
         | None => false
         end) separators.

End WithDigits.

(** [f"{n:02d}"] and [f"{n:04d}"] for [0 <= n < 100] and [0 <= n < 10000]. *)
Definition pad2 (n : Z) : pystr := [48 + n / 10; 48 + n mod 10].
Definition pad4 (n : Z) : pystr :=
  [48 + n / 1000; 48 + (n / 100) mod 10; 48 + (n / 10) mod 10; 48 + n mod 10].

End Birthday.

(* ------------------------------------------------------------------ *)
(** ** The onboarding conversation ([ProfileStates] and the state
    handlers of [BusinessMatchingBot], [src/bot.py]) *)

Module Onboarding.

(** [ProfileStates] *)
Inductive ProfileState :=
  | waiting_answer_1
  | waiting_answer_2
  | waiting_answer_3
  | waiting_birthday
  | waiting_phone.

(** The FSM data dict of a chat, with the keys the handlers write through
    [state.update_data]; [None] is a key that was never set. *)
Record FsmData := {
  d_user_id : option Z;
  d_user_display : option pystr;
  d_answer_1 : option pystr;
  d_answer_2 : option pystr;
  d_answer_3 : option pystr;
  d_birthday : option pystr
}.

(** The FSM context of a chat: [await state.get_state()] ([None] before
    the first [set_state] and after [state.clear()]) and
    [await state.get_data()]. *)
Record Fsm := {
  fsm_state : option ProfileState;
  fsm_data : FsmData
}.

(** The fields of an incoming [Message] the handlers read:
    [message.text] ([None] for a contact, a photo, a sticker, ...) and
    [message.contact.phone_number] ([None] when [message.contact] is). *)
Record Message := {
  msg_text : option pystr;
  msg_contact : option pystr
}.

(** The messages the handlers send with [message.answer]. *)
Inductive Reply :=
  | Welcome                   (* the greeting of [start_onboarding] *)
  | Question (n : Z)          (* f"**Вопрос {n} из ...:**\n{QUESTIONS[n]}" *)
  | AnswerTooLong             (* ERROR_MESSAGES["answer_too_long"] *)
  | AnswerTooShort            (* ERROR_MESSAGES["answer_too_short"] *)
  | InvalidBirthday           (* ERROR_MESSAGES["invalid_birthday"] *)
  | InvalidPhone              (* ERROR_MESSAGES["invalid_phone"] *)
  | PhoneRequired.            (* ERROR_MESSAGES["phone_required"] *)

(** The end of a handler: the FSM context it leaves and the messages it
    sent in order, or an exception that escapes it ([TypeError] from
    [len(None)], [AttributeError] from [None.strip()], [KeyError] from
    [data['...']]), which aiogram's dispatcher logs.  Each handler raises
    before its first write, so the FSM context is then unchanged. *)
Inductive HandlerResult :=
  | Handled (fsm : Fsm) (replies : list Reply)
  | HandlerError.

(** [await state.get_data()] before any [update_data]: [{}]. *)
Definition empty_data : FsmData :=
  {| d_user_id := None; d_user_display := None; d_answer_1 := None;
     d_answer_2 := None; d_answer_3 := None; d_birthday := None |}.

(** [BOT_CONFIG["max_answer_length"]], [BOT_CONFIG["min_answer_length"]] *)
Definition max_answer_length : Z := 2000.
Definition min_answer_length : Z := 10.

(** The label of the contact button of [handle_birthday]'s keyboard. *)
Definition share_phone_label : pystr := u "📱 Поделиться номером".

(** A plain text message. *)
Definition text_message (t : pystr) : Message :=
  {| msg_text := Some t; msg_contact := None |}.

(** [await state.update_data(key=value)] for each key. *)
Definition set_user (user_id : Z) (user_display : pystr) (d : FsmData) : FsmData :=
  {| d_user_id := Some user_id; d_user_display := Some user_display;
     d_answer_1 := d_answer_1 d; d_answer_2 := d_answer_2 d;
     d_answer_3 := d_answer_3 d; d_birthday := d_birthday d |}.

Definition set_answer_1 (a : pystr) (d : FsmData) : FsmData :=
  {| d_user_id := d_user_id d; d_user_display := d_user_display d;
     d_answer_1 := Some a; d_answer_2 := d_answer_2 d;
     d_answer_3 := d_answer_3 d; d_birthday := d_birthday d |}.

Definition set_answer_2 (a : pystr) (d : FsmData) : FsmData :=
  {| d_user_id := d_user_id d; d_user_display := d_user_display d;
     d_answer_1 := d_answer_1 d; d_answer_2 := Some a;
     d_answer_3 := d_answer_3 d; d_birthday := d_birthday d |}.

Definition set_answer_3 (a : pystr) (d : FsmData) : FsmData :=
  {| d_user_id := d_user_id d; d_user_display := d_user_display d;
     d_answer_1 := d_answer_1 d; d_answer_2 := d_answer_2 d;
     d_answer_3 := Some a; d_birthday := d_birthday d |}.

Definition set_birthday (b : pystr) (d : FsmData) : FsmData :=
  {| d_user_id := d_user_id d; d_user_display := d_user_display d;
     d_answer_1 := d_answer_1 d; d_answer_2 := d_answer_2 d;
     d_answer_3 := d_answer_3 d; d_birthday := Some b |}.

(** [start_onboarding(message, state, user_id, user_display)] (also the
    FSM effect of [update_profile_handler]): the greeting, then
    [set_state(waiting_answer_1)] and [update_data(user_id=...,
    user_display=...)], which keeps the other keys, and question 1. *)
Definition start_onboarding (user_id : Z) (user_display : pystr) (fsm : Fsm)
    : HandlerResult :=
  Handled {| fsm_state := Some waiting_answer_1;
             fsm_data := set_user user_id user_display (fsm_data fsm) |}
          [Welcome; Question 1].

(** The common body of [handle_answer_1], [handle_answer_2] and
    [handle_answer_3]: they differ in the key they store, the next state
    and the next question. *)
Definition handle_answer (store : pystr -> FsmData -> FsmData)
    (next : ProfileState) (question : Z) (fsm : Fsm) (message : Message)
    : HandlerResult :=
  match msg_text message with
  | None => HandlerError
  | Some text =>
      if max_answer_length <? pylen text then Handled fsm [AnswerTooLong]
      else if pylen text <? min_answer_length then Handled fsm [AnswerTooShort]
      else Handled {| fsm_state := Some next;
                      fsm_data := store text (fsm_data fsm) |}
                   [Question question]
  end.

Definition handle_answer_1 := handle_answer set_answer_1 waiting_answer_2 2.
Definition handle_answer_2 := handle_answer set_answer_2 waiting_answer_3 3.
Definition handle_answer_3 := handle_answer set_answer_3 waiting_birthday 4.

(** The labels of the main menu keyboard, taken by the [F.text == ...]
    filters of [setup_handlers]. *)
Definition menu_labels : list pystr :=
  [u "🔍 Подобрать участников"; u "📝 Обновить анкету"; u "👤 Мой профиль"].

Fixpoint take_token (s : pystr) : pystr :=
  match s with
  | [] => []
  | c :: r => if py_isspace c then [] else c :: take_token r
  end.

(** The first item of [text.split(maxsplit=1)] ([[]] when there is none,
    where the split raises). *)
Definition first_token (text : pystr) : pystr := take_token (lstrip text).

(** [s.partition("@")] without the separator. *)
Fixpoint partition_at (s : pystr) : pystr * pystr :=
  match s with
  | [] => ([], [])
  | c :: r =>
      if c =? 64 then ([], r)
      else let '(a, b) := partition_at r in (c :: a, b)
  end.

(** aiogram's [Command(name)] filter on the text of a message: the first
    token is the prefix ["/"], the command, and an optional
    ["@mention"]; a non-empty mention must name the bot, which
    [mention_ok] decides (a case-insensitive comparison with
    [bot.me().username]). *)
Definition is_command (mention_ok : pystr -> bool) (name text : pystr) : bool :=
  match first_token text with
  | 47 :: full_command =>
      let '(command, mention) := partition_at full_command in
      TextProcessing.pystr_eqb command name &&
      match mention with [] => true | _ => mention_ok mention end
  | _ => false
  end.

(** A text message taken by a handler [setup_handlers] registers before
    the [StateFilter] handlers ([start_command], [match_command] and the
    three menu handlers), in every state. *)
Definition taken_before_state_handlers (mention_ok : pystr -> bool)
    (text : pystr) : bool :=
  is_command mention_ok (u "start") text || is_command mention_ok (u "match") text
  || existsb (TextProcessing.pystr_eqb text) menu_labels.

Section WithDigits.
Context {D : DigitDB} {V : DigitValue}.

(** [handle_birthday], [current_year] being [datetime.now().year]. *)
Definition handle_birthday (current_year : Z) (fsm : Fsm) (message : Message)
    : HandlerResult :=
  match msg_text message with
  | None => HandlerError
  | Some text =>
      let birthday_text := strip text in
      if Birthday.validate_birthday current_year birthday_text then
        Handled {| fsm_state := Some waiting_phone;
                   fsm_data := set_birthday birthday_text (fsm_data fsm) |}
                [Question 5]
      else Handled fsm [InvalidBirthday]
  end.

(** The [if message.contact / elif message.text and ... / else] block of
    [handle_phone]: the phone (from the contact, or a typed text other
    than the button label that passes [_validate_phone] once stripped),
    or the error message it answers with before returning. *)
Definition phone_of_message (message : Message) : pystr + Reply :=
  match msg_contact message with
  | Some phone_number => inl phone_number
  | None =>
      match msg_text message with
      | Some ((_ :: _) as text) =>
          if TextProcessing.pystr_eqb text share_phone_label
          then inr PhoneRequired
          else if Phone.validate_phone (strip text) then inl (strip text)
          else inr InvalidPhone
      | _ => inr PhoneRequired
      end
  end.

(** [handle_phone]: [data['user_id']], the phone, then the [answers]
    dict built from [data['answer_1']], ..., [data['birthday']], and the
    handler returns. *)
Definition handle_phone (fsm : Fsm) (message : Message) : HandlerResult :=
  let data := fsm_data fsm in
  match d_user_id data with
  | None => HandlerError
  | Some _ =>
      match phone_of_message message with
      | inr reply => Handled fsm [reply]
      | inl _ =>
          match d_answer_1 data, d_answer_2 data, d_answer_3 data,
                d_birthday data with
          | Some _, Some _, Some _, Some _ => Handled fsm []
          | _, _, _, _ => HandlerError
          end
      end
  end.

(** The [StateFilter] handlers of [setup_handlers], for a message that
    none of the handlers registered before them takes (the [/start] and
    [/match] commands and the three menu labels); [None] when the chat is
    in no state, where no handler takes the message. *)
Definition dispatch (current_year : Z) (fsm : Fsm) (message : Message)
    : option HandlerResult :=
  match fsm_state fsm with
  | Some waiting_answer_1 => Some (handle_answer_1 fsm message)
  | Some waiting_answer_2 => Some (handle_answer_2 fsm message)
  | Some waiting_answer_3 => Some (handle_answer_3 fsm message)
  | Some waiting_birthday => Some (handle_birthday current_year fsm message)
  | Some waiting_phone => Some (handle_phone fsm message)
  | None => None
  end.

(** The FSM context after a handler. *)
Definition after (fsm : Fsm) (r : option HandlerResult) : Fsm :=
  match r with
  | Some (Handled fsm' _) => fsm'
  | _ => fsm
  end.

(** The FSM context of a chat after a sequence of such messages, and the
    messages the bot sent in reply. *)
Fixpoint run (current_year : Z) (fsm : Fsm) (messages : list Message)
    : Fsm * list Reply :=
  match messages with
  | [] => (fsm, [])
  | m :: rest =>
      let r := dispatch current_year fsm m in
      let replies := match r with Some (Handled _ rs) => rs | _ => [] end in
      let '(fsm', replies') := run current_year (after fsm r) rest in
      (fsm', replies ++ replies')
  end.

(** A sequence of messages sent through the router of [setup_handlers]
    while each reaches the state handlers: the FSM context and the
    replies as in [run], or [None] as soon as a text is taken by
    [/start], [/match] or a menu label, whose handlers are not part of
    this model. *)
Fixpoint run_state_handlers (mention_ok : pystr -> bool) (current_year : Z)
    (fsm : Fsm) (messages : list Message) : option (Fsm * list Reply) :=
  match messages with
  | [] => Some (fsm, [])
  | m :: rest =>
      if match msg_text m with
         | Some t => taken_before_state_handlers mention_ok t
         | None => false
         end
      then None
      else
        let r := dispatch current_year fsm m in
        let replies := match r with Some (Handled _ rs) => rs | _ => [] end in
        match run_state_handlers mention_ok current_year (after fsm r) rest with
        | Some (fsm', replies') => Some (fsm', replies ++ replies')
        | None => None
        end
  end.

End WithDigits.

(** The position of a state in the questionnaire. *)
Definition state_index (s : ProfileState) : nat :=
  match s with
  | waiting_answer_1 => 0
  | waiting_answer_2 => 1
  | waiting_answer_3 => 2
  | waiting_birthday => 3
  | waiting_phone => 4
  end%nat.

End Onboarding.

(* ------------------------------------------------------------------ *)
(** ** [TextProcessor.create_search_query] ([src/text_processing.py]) *)

Module SearchQuery.
Import TextProcessing.

(** [d.get(k, default)] on a dict of strings (the last binding of a key
    wins, as in a dict display). *)
Definition sdict_get (d : list (pystr * pystr)) (k : pystr) (default : pystr)
    : pystr :=
  match find (fun kv => pystr_eqb (fst kv) k) (rev d) with
  | Some (_, v) => v
  | None => default
  end.

(** [sep.join(parts)] *)
Fixpoint py_join (sep : pystr) (parts : list pystr) : pystr :=
  match parts with
  | [] => []
  | [x] => x
  | x :: rest => x ++ sep ++ py_join sep rest
  end.

Section WithUnicode.
Context {U : UnicodeDB}.

(** [search_parts.append(label + ' '.join(keywords))] when [keywords] is
    non-empty. *)
Definition search_part (label : pystr) (keywords : list pystr) : list pystr :=
  match keywords with
  | [] => []
  | _ => [label ++ py_join [32] keywords]
  end.

(** [TextProcessor.create_search_query] *)
Definition create_search_query (user_profile : list (pystr * pystr)) : pystr :=
  let answer_1 := sdict_get user_profile (u "answer_1") [] in
  let answer_2 := sdict_get user_profile (u "answer_2") [] in
  let answer_3 := sdict_get user_profile (u "answer_3") [] in
  let keywords_1 := firstn 3 (extract_keywords answer_1) in
  let keywords_2 := firstn 3 (extract_keywords answer_2) in
  let keywords_3 := firstn 3 (extract_keywords answer_3) in
  py_join (u ". ")
    (search_part (u "Ищет: ") keywords_2 ++
     search_part (u "Сфера: ") keywords_1 ++
     search_part (u "Предлагает: ") keywords_3).

End WithUnicode.

End SearchQuery.

(* ------------------------------------------------------------------ *)
(** ** Profile points in Qdrant ([src/vector_db.py]) *)

(** The collection [user_profiles] as the client sees it: whether the
    server answers, and its points.  [retrieve], [upsert] and [delete]
    follow Qdrant's semantics: a point is identified by its id, an upsert
    replaces the point with the same id. *)
Module QdrantStore.
Import Retriever.

Record Point := {
  pt_id : Z;
  pt_vector : list Q;
  pt_payload : list (pystr * json)
}.

(** The Qdrant collection as the client sees it.  [stored_vector] is what
    the collection keeps for an upserted vector: it is created with
    [Distance.COSINE] ([VectorDatabase.initialize]), for which Qdrant
    stores [v / ||v||] in float32.  [read_ok] and [write_ok] say whether
    the server answers reads ([retrieve]) and writes ([upsert], [delete])
    rather than raising: they differ for a read-only API key. *)
Record Collection := {
  stored_vector : list Q -> list Q;
  read_ok : bool;
  write_ok : bool;
  points : list Point
}.

Definition with_points (c : Collection) (pts : list Point) : Collection :=
  {| stored_vector := stored_vector c; read_ok := read_ok c;
     write_ok := write_ok c; points := pts |}.

(** [client.retrieve(ids=[point_id])] *)
Definition retrieve (c : Collection) (point_id : Z) : outcome (list Point) :=
  if read_ok c then Ok (filter (fun p => pt_id p =? point_id) (points c))
  else Raised.

(** [client.upsert(points=[p])]: the point replaces any point with its id,
    with the vector the collection stores for [pt_vector p]. *)
Definition upsert (c : Collection) (p : Point) : outcome Collection :=
  if write_ok c then
    Ok (with_points c
          (filter (fun q => negb (pt_id q =? pt_id p)) (points c) ++
           [{| pt_id := pt_id p; pt_vector := stored_vector c (pt_vector p);
               pt_payload := pt_payload p |}]))
  else Raised.

(** [client.delete(points_selector=PointIdsList(points=[point_id]))] *)
Definition delete (c : Collection) (point_id : Z) : outcome Collection :=
  if write_ok c then
    Ok (with_points c (filter (fun q => negb (pt_id q =? point_id)) (points c)))
  else Raised.

(** The payload built by [save_profile_embedding]: [profile_data.get(k)]
    is [None] for a missing key, and [keywords] defaults to [[]]. *)
Definition profile_payload (user_id : Z) (profile_data : list (pystr * json))
    : list (pystr * json) :=
  [(u "user_id", JInt user_id);
   (u "telegram_id", dict_get_default profile_data (u "telegram_id") JNull);
   (u "username", dict_get_default profile_data (u "username") JNull);
   (u "first_name", dict_get_default profile_data (u "first_name") JNull);
   (u "last_name", dict_get_default profile_data (u "last_name") JNull);
   (u "answer_1", dict_get_default profile_data (u "answer_1") JNull);
   (u "answer_2", dict_get_default profile_data (u "answer_2") JNull);
   (u "answer_3", dict_get_default profile_data (u "answer_3") JNull);
   (u "keywords", dict_get_default profile_data (u "keywords") (JArr []))].

(** [VectorDatabase.save_profile_embedding]: the preliminary [retrieve]
    only chooses a log line (its exception is caught); an exception of
    [upsert] is re-raised. *)
Definition save_profile_embedding (c : Collection) (user_id : Z)
    (embedding : list Q) (profile_data : list (pystr * json))
    : outcome Collection :=
  upsert c {| pt_id := user_id; pt_vector := embedding;
              pt_payload := profile_payload user_id profile_data |}.

(** [VectorDatabase.get_user_embedding]: an exception gives [None]. *)
Definition get_user_embedding (c : Collection) (user_id : Z)
    : option (list Q) :=
  match retrieve c user_id with
  | Ok (p :: _) => Some (pt_vector p)
  | Ok [] => None
  | Raised => None
  end.

(** [VectorDatabase.delete_profile]: its boolean result and the
    collection afterwards. *)
Definition delete_profile (c : Collection) (user_id : Z) : bool * Collection :=
  match retrieve c user_id with
  | Raised => (false, c)
  | Ok [] => (false, c)
  | Ok _ =>
      match delete c user_id with
      | Ok c' => (true, c')
      | Raised => (false, c)
      end
  end.

End QdrantStore.

(** Profile snapshots used to evaluate the code on concrete inputs. *)
Definition sample_profile (id : Z) : Profile :=
  {| telegram_id := id; user_id := Some id; first_name := u "Anna";
     username := u "anna"; answer_1 := u "Backend developer";
     answer_2 := u "co-founder"; answer_3 := u "mentoring";
     similarity_score := None; match_score := None; match_reason := None |}.

(* ------------------------------------------------------------------ *)
(** ** Predicates and inputs of the specification *)

Module SpecDefs.
Import TextProcessing Ranker VectorDB Retriever.

Definition chunks_within (b : Z) (st : list pystr * pystr) : Prop :=
  Forall (fun c => pylen c <= b) (fst st) /\ pylen (snd st) <= b.

(** A text of [n] repetitions of one code point. *)
Definition repeat_cp (c : Z) (n : nat) : pystr := repeat c n.

(** Two sentences of 1100 characters each, chunked with the default
    configuration (1200 characters, overlap 150). *)
Definition two_long_sentences : pystr :=
  repeat_cp 97 1100 ++ u ". " ++ repeat_cp 98 1100.

(** Position of the first occurrence of [w] in [l]. *)
Fixpoint first_index (w : pystr) (l : list pystr) : nat :=
  match l with
  | [] => 0
  | x :: r => if pystr_eqb w x then 0 else S (first_index w r)
  end.

(** [a] comes before [b] in [most_common]: more occurrences in [ks], or
    as many and met first. *)
Definition ranks_before (ks : list pystr) (a b : pystr) : Prop :=
  (count_in ks b < count_in ks a)%nat \/
  (count_in ks a = count_in ks b /\ first_index a ks < first_index b ks)%nat.

(** Order of [(word, count)] pairs sorted by [most_common]. *)
Definition fi_of (ks : list pystr) (p : pystr * nat) : nat := first_index (fst p) ks.

Definition pair_before (ks : list pystr) (p q : pystr * nat) : Prop :=
  (snd q < snd p)%nat \/ (snd p = snd q /\ fi_of ks p < fi_of ks q)%nat.

Section Tokens.
Context {U : UnicodeDB}.

(** The tokens counted by [extract_keywords]. *)
Definition keyword_tokens (text : pystr) : list pystr :=
  match text with
  | [] => []
  | _ => filter keyword_ok (findall_cyr_words (u_lower text))
  end.

End Tokens.

(** The reply of the spec's scenario:
    [{"matches":[{"candidate_index":5,"score":9,"reason":"x"}]}]. *)
(** Three candidate profiles, ids 1 to 3. *)
Definition three_candidates : list Profile := map sample_profile [1; 2; 3].

Definition index5_items : list json :=
  [JObj [(u "candidate_index", JInt 5); (u "score", JInt 9);
         (u "reason", JStr (u "x"))]].

Definition index5_reply : list (pystr * json) := [(u "matches", JArr index5_items)].

(** A vector index client whose search returns the points of the profiles
    2 and 3. *)
Definition two_hit_client (_ : list Q) (_ : Z) : option (list Hit) :=
  Some [{| hit_payload := Some (sample_profile 2); hit_score := 1 |};
        {| hit_payload := Some (sample_profile 3); hit_score := 1 |}].

(** A [pylen] bound on every element of a list, as a boolean. *)
Definition all_within (b : Z) (l : list pystr) : bool :=
  forallb (fun x => pylen x <=? b) l.

(** Requester environment used to evaluate [find_matches]: the stored
    vector is found and the vector search returns the profile 2. *)
Definition keyword_store_down : RetrievalEnv :=
  {| env_keyword_search := Raised;
     env_stored_embedding := true;
     env_backfill := Ok tt;
     env_vector_search := [sample_profile 2];
     env_all_active := Ok [] |}.

End SpecDefs.

(** Auxiliary notions of the proofs below. *)
Module ProofDefs.

(** The escape of one character by a list [L] of special characters. *)
Definition esc (L : list Z) (c : Z) : pystr :=
  if existsb (Z.eqb c) L then [92; c] else [c].

(** A string with a code point that is not whitespace. *)
Definition has_nonspace (s : pystr) : Prop :=
  exists x, In x s /\ py_isspace x = false.

(** A chunk as [chunk_text] appends it on its splitting path. *)
Definition good_chunk (c : pystr) : Prop := c <> [] /\ strip c = c.

Definition chunk_state_ok (st : list pystr * pystr) : Prop :=
  Forall good_chunk (fst st) /\ (snd st = [] \/ has_nonspace (snd st)).

(** What the FSM data of a chat holds: every stored answer is within
    [min_answer_length..max_answer_length] and a stored birthday passes
    [_validate_birthday] for [current_year]. *)
Section OnboardingData.
Context {D : DigitDB} {V : DigitValue}.

Definition answer_ok (a : option pystr) : bool :=
  match a with
  | Some t => (Onboarding.min_answer_length <=? pylen t)
              && (pylen t <=? Onboarding.max_answer_length)
  | None => true
  end.

Definition birthday_ok (current_year : Z) (b : option pystr) : bool :=
  match b with
  | Some t => Birthday.validate_birthday current_year t
  | None => true
  end.



Definition data_ok (current_year : Z) (d : Onboarding.FsmData) : bool :=
  answer_ok (Onboarding.d_answer_1 d) && answer_ok (Onboarding.d_answer_2 d)
  && answer_ok (Onboarding.d_answer_3 d)
  && birthday_ok current_year (Onboarding.d_birthday d).


End OnboardingData.

End ProofDefs.

(* ================================================================== *)
(** * Properties *)

(** ** General list facts *)

Lemma Forall_filter_keep {A} (f : A -> bool) (l : list A) :
  Forall (fun x => f x = true) (filter f l).
Proof.
  induction l as [|x l IH]; simpl; [constructor|].
  destruct (f x) eqn:E; auto.
Qed.

Lemma filter_Forall_id {A} (f : A -> bool) (l : list A) :
  Forall (fun x => f x = true) l -> filter f l = l.
Proof.
  induction 1 as [|x l Hx _ IH]; simpl; [reflexivity|].
  now rewrite Hx, IH.
Qed.

(** ** Whitespace handling *)

Lemma lstrip_Forall (P : Z -> Prop) (s : pystr) :
  Forall P s -> Forall P (lstrip s).
Proof.
  induction s as [|c s IH]; simpl; intros H; [constructor|].
  inversion H; subst; destruct (py_isspace c); auto.
Qed.

Lemma strip_Forall (P : Z -> Prop) (s : pystr) :
  Forall P s -> Forall P (strip s).
Proof.
  intros H. unfold strip, rstrip.
  apply Forall_rev, lstrip_Forall, Forall_rev, lstrip_Forall, H.
Qed.

Lemma sub_ws_runs_Forall (P : Z -> Prop) (b : bool) (s : pystr) :
  P 32 -> Forall P s -> Forall P (sub_ws_runs b s).
Proof.
  intros H32 H. revert b.
  induction H as [|c s Hc _ IH]; intros b; simpl; [constructor|].
  destruct (py_isspace c), b; auto.
Qed.

Module TextProcessingFacts.
Import TextProcessing SpecDefs.

Section WithUnicode.
Context {U : UnicodeDB}.

Lemma clean_text_keeps (s : pystr) :
  Forall (fun c => clean_keep c = true) (clean_text s).
Proof.
  destruct s; simpl; [constructor|apply Forall_filter_keep].
Qed.

Lemma clean_keep_space : clean_keep 32 = true.
Proof. unfold clean_keep. simpl. now rewrite orb_true_r. Qed.

(** C9 (amended): [clean_text] maps the empty string to the empty string,
    and a second application of it removes no further character: it only
    trims and collapses the whitespace that the removal step of the first
    application left behind. *)
Theorem clean_text_second_pass (s : pystr) :
  clean_text [] = [] /\
  clean_text (clean_text s) = sub_ws_runs false (strip (clean_text s)).
Proof.
  split; [reflexivity|].
  pose proof (clean_text_keeps s) as Hk.
  destruct (clean_text s) as [|c r] eqn:E; [reflexivity|].
  unfold clean_text at 1.
  apply filter_Forall_id, sub_ws_runs_Forall;
    [apply clean_keep_space|apply strip_Forall, Hk].
Qed.

End WithUnicode.

(** C9 (counterexample): [clean_text] is not idempotent: on ["# a"] the
    removal of ['#'] leaves a leading space that only a second call trims. *)
Lemma clean_text_not_idempotent :
  clean_text (clean_text (u "# a")) <> clean_text (u "# a").
Proof. vm_compute. discriminate. Qed.

(** ** [chunk_text] *)

Lemma all_within_Forall (b : Z) (l : list pystr) :
  all_within b l = true -> Forall (fun x => pylen x <= b) l.
Proof.
  unfold all_within. rewrite forallb_forall, Forall_forall.
  intros H x Hx. apply Z.leb_le, H, Hx.
Qed.

Lemma pylen_app (a b : pystr) : pylen (a ++ b) = pylen a + pylen b.
Proof. unfold pylen. rewrite length_app. lia. Qed.

Lemma pylen_nonneg (a : pystr) : 0 <= pylen a.
Proof. unfold pylen. lia. Qed.

Lemma lstrip_length (s : pystr) : (length (lstrip s) <= length s)%nat.
Proof.
  induction s as [|c s IH]; simpl; [lia|].
  destruct (py_isspace c); simpl; lia.
Qed.

Lemma pylen_strip (s : pystr) : pylen (strip s) <= pylen s.
Proof.
  unfold pylen, strip, rstrip. rewrite length_rev.
  pose proof (lstrip_length (rev (lstrip s))) as H1.
  rewrite length_rev in H1. pose proof (lstrip_length s). lia.
Qed.

Lemma pylen_overlap (k : Z) (cur : pystr) :
  0 < k -> pylen (py_drop (- k) cur) <= k.
Proof.
  intros Hk. unfold py_drop, pylen.
  destruct (0 <=? - k) eqn:E; [apply Z.leb_le in E; lia|].
  rewrite length_skipn. lia.
Qed.

Lemma fold_left_invariant {A B} (P : A -> Prop) (f : A -> B -> A)
    (Q : B -> Prop) (l : list B) (a : A) :
  (forall a x, Q x -> P a -> P (f a x)) ->
  Forall Q l -> P a -> P (fold_left f l a).
Proof.
  intros Hf Hl. revert a.
  induction Hl as [|x l Hx _ IH]; intros a Ha; simpl; auto.
Qed.

Lemma Z_gtb_le (x y : Z) : (x >? y) = false -> x <= y.
Proof. rewrite Z.gtb_ltb. apply Z.ltb_ge. Qed.

Lemma Z_gtb_gt (x y : Z) : (x >? y) = true -> y < x.
Proof. rewrite Z.gtb_ltb. apply Z.ltb_lt. Qed.

Ltac pylen_lia :=
  unfold pylen in *; repeat rewrite length_app in *; simpl length in *; lia.

Section ChunkBound.
Context {U : UnicodeDB}.
Variable tp : TextProcessor.
Let M := chunk_size tp.
Let ov := chunk_overlap tp.

Lemma word_step_within (st : list pystr * pystr) (w : pystr) :
  pylen w <= M -> chunks_within M st -> chunks_within M (word_step tp st w).
Proof.
  destruct st as [chunks temp]; unfold chunks_within; simpl.
  intros Hw [Hc Ht]. unfold word_step; fold M.
  destruct (pylen temp + pylen w + 1 >? M) eqn:E; simpl.
  - split; [|exact Hw].
    destruct (nonempty temp); [|exact Hc].
    apply Forall_app; split; [exact Hc|].
    constructor; [|constructor]. pose proof (pylen_strip temp); lia.
  - apply Z_gtb_le in E. split; [exact Hc|].
    destruct (nonempty temp); [|exact Hw]. pylen_lia.
Qed.

Hypothesis HM : 0 <= M.
Hypothesis Hov : 0 < ov.

Lemma sentence_step_within (st : list pystr * pystr) (s : pystr) :
  pylen s <= M -> chunks_within (M + ov + 1) st ->
  chunks_within (M + ov + 1) (sentence_step tp st s).
Proof.
  destruct st as [chunks cur]; unfold chunks_within; simpl.
  intros Hs [Hc Hcur]. unfold sentence_step; fold M ov.
  destruct (pylen cur + pylen s >? M) eqn:E.
  - destruct (nonempty cur) eqn:Ne; simpl.
    + split.
      * apply Forall_app; split; [exact Hc|].
        constructor; [|constructor]. pose proof (pylen_strip cur); lia.
      * destruct (pylen cur >? ov) eqn:E2.
        -- pose proof (pylen_overlap ov cur Hov). pylen_lia.
        -- apply Z_gtb_le in E2. pylen_lia.
    + assert ((pylen s >? M) = false) as ->
        by (rewrite Z.gtb_ltb; apply Z.ltb_ge; exact Hs).
      simpl. split; [exact Hc|lia].
  - apply Z_gtb_le in E. simpl. split; [exact Hc|].
    destruct (nonempty cur); pylen_lia.
Qed.

Lemma first_sentence_within (s : pystr) :
  Forall (fun w => pylen w <= M) (split_ws s) ->
  chunks_within (M + ov + 1) (sentence_step tp ([], []) s).
Proof.
  intros Hw. unfold sentence_step; fold M ov. simpl nonempty.
  destruct (pylen [] + pylen s >? M) eqn:E.
  - destruct (pylen s >? M) eqn:E2.
    + pose proof (fold_left_invariant (chunks_within M) (word_step tp)
                    (fun w => pylen w <= M) (split_ws s) ([], [])
                    (fun a x Hx Ha => word_step_within a x Hx Ha) Hw)
        as Hf.
      assert (H0 : chunks_within M ([], [])) by (split; [apply Forall_nil|simpl snd; exact HM]).
      specialize (Hf H0).
      destruct (fold_left (word_step tp) (split_ws s) ([], []))
        as [chunks temp].
      destruct Hf as [Hc Ht].
      unfold chunks_within; simpl. split.
      * eapply Forall_impl; [|exact Hc]. simpl; intros; lia.
      * destruct (nonempty temp); pylen_lia.
    + apply Z_gtb_le in E2. unfold chunks_within; simpl.
      split; [constructor|lia].
  - apply Z_gtb_le in E. unfold chunks_within; simpl.
    split; [constructor|]. simpl in E. lia.
Qed.

End ChunkBound.

(** C7 (amended): the size check of [chunk_text] does not count the
    overlap prefix, so a chunk can exceed [chunk_size]; every chunk is at
    most [chunk_size + chunk_overlap + 1] long when every sentence after the
    first is at most [chunk_size] long and every word of the first sentence
    (the one a forced word split may apply to) is at most [chunk_size]. *)
Theorem chunk_text_length_bound {U : UnicodeDB} (tp : TextProcessor)
    (text : pystr) :
  0 <= chunk_size tp -> 0 < chunk_overlap tp ->
  Forall (fun s => pylen s <= chunk_size tp) (tl (split_into_sentences text)) ->
  Forall (fun w => pylen w <= chunk_size tp)
    (split_ws (hd [] (split_into_sentences text))) ->
  Forall (fun c => pylen c <= chunk_size tp + chunk_overlap tp + 1)
    (chunk_text tp text).
Proof.
  intros HM Hov Hrest Hfirst. unfold chunk_text.
  destruct (negb (nonempty text) || (pylen text <=? chunk_size tp)) eqn:E.
  - destruct (nonempty text) eqn:Ne; [|constructor].
    simpl in E. apply Z.leb_le in E.
    constructor; [lia|constructor].
  - destruct (split_into_sentences text) as [|s0 rest].
    + constructor.
    + simpl in Hrest, Hfirst.
      change (fold_left (sentence_step tp) (s0 :: rest) ([], []))
        with (fold_left (sentence_step tp) rest (sentence_step tp ([], []) s0)).
      pose proof (fold_left_invariant
                    (chunks_within (chunk_size tp + chunk_overlap tp + 1))
                    (sentence_step tp)
                    (fun s => pylen s <= chunk_size tp) rest
                    (sentence_step tp ([], []) s0)
                    (fun a x Hx Ha => sentence_step_within tp Hov a x Hx Ha)
                    Hrest (first_sentence_within tp HM Hov s0 Hfirst)) as H.
      destruct (fold_left (sentence_step tp) rest
                  (sentence_step tp ([], []) s0)) as [chunks cur].
      destruct H as [Hc Hcur]; simpl in Hc, Hcur.
      destruct (nonempty cur); [|exact Hc].
      apply Forall_app; split; [exact Hc|].
      constructor; [|constructor]. pose proof (pylen_strip cur); lia.
Qed.

Lemma chunk_text_length_bound_witness :
  0 <= chunk_size text_processor /\ 0 < chunk_overlap text_processor /\
  Forall (fun s => pylen s <= chunk_size text_processor)
    (tl (split_into_sentences two_long_sentences)) /\
  Forall (fun w => pylen w <= chunk_size text_processor)
    (split_ws (hd [] (split_into_sentences two_long_sentences))) /\
  Forall (fun c => pylen c <= chunk_size text_processor
                           + chunk_overlap text_processor + 1)
    (chunk_text text_processor two_long_sentences).
Proof.
  assert (H1 : 0 <= chunk_size text_processor) by (vm_compute; congruence).
  assert (H2 : 0 < chunk_overlap text_processor) by (vm_compute; reflexivity).
  assert (H3 : Forall (fun s => pylen s <= chunk_size text_processor)
                 (tl (split_into_sentences two_long_sentences)))
    by (apply all_within_Forall; vm_compute; reflexivity).
  assert (H4 : Forall (fun w => pylen w <= chunk_size text_processor)
                 (split_ws (hd [] (split_into_sentences two_long_sentences))))
    by (apply all_within_Forall; vm_compute; reflexivity).
  split; [exact H1|split; [exact H2|split; [exact H3|split; [exact H4|]]]].
  exact (chunk_text_length_bound text_processor two_long_sentences H1 H2 H3 H4).
Defined.

(** C6 (amended): a text no longer than [chunk_size] is returned as one
    chunk equal to the text itself (it is not trimmed); the empty text
    gives no chunk. *)
Theorem chunk_text_short {U : UnicodeDB} (tp : TextProcessor)
    (text : pystr) :
  pylen text <= chunk_size tp ->
  chunk_text tp text = if nonempty text then [text] else [].
Proof.
  intros H. unfold chunk_text.
  apply Z.leb_le in H. rewrite H, orb_true_r. reflexivity.
Qed.

Lemma chunk_text_short_witness :
  pylen (u "abc") <= chunk_size text_processor /\
  chunk_text text_processor (u "abc")
    = if nonempty (u "abc") then [u "abc"] else [].
Proof.
  assert (H : pylen (u "abc") <= chunk_size text_processor)
    by (vm_compute; congruence).
  split; [exact H|exact (chunk_text_short text_processor (u "abc") H)].
Defined.

(** C7 (counterexample): with the default configuration the second chunk
    of [two_long_sentences] starts with the 150-character overlap and is
    1251 characters long, more than [chunk_size = 1200]. *)
Lemma chunk_text_exceeds_chunk_size :
  map pylen (chunk_text text_processor two_long_sentences) = [1100; 1251]
  /\ chunk_size text_processor = 1200.
Proof. split; vm_compute; reflexivity. Qed.

(** C6 (counterexample): a short text with a leading space is returned
    untrimmed. *)
Lemma chunk_text_short_untrimmed :
  chunk_text text_processor (u " a") <> [strip (u " a")].
Proof. vm_compute. discriminate. Qed.

(** ** [extract_keywords] *)

Lemma StronglySorted_app_inv {A} (R : A -> A -> Prop) (l1 l2 : list A) :
  StronglySorted R (l1 ++ l2) ->
  StronglySorted R l1 /\ StronglySorted R l2 /\
  (forall a b, In a l1 -> In b l2 -> R a b).
Proof.
  induction l1 as [|x l1 IH]; simpl; intros H.
  - split; [constructor|split; [exact H|tauto]].
  - apply StronglySorted_inv in H as [H Hx].
    destruct (IH H) as (H1 & H2 & H3). rewrite Forall_app in Hx.
    destruct Hx as [Hx1 Hx2].
    split; [constructor; assumption|split; [exact H2|]].
    intros a b [<-|Ha] Hb; [|auto].
    rewrite Forall_forall in Hx2. auto.
Qed.

Lemma StronglySorted_map_in {A B} (R : A -> A -> Prop) (R' : B -> B -> Prop)
    (f : A -> B) (l : list A) :
  (forall a b, In a l -> In b l -> R a b -> R' (f a) (f b)) ->
  StronglySorted R l -> StronglySorted R' (map f l).
Proof.
  induction l as [|x l IH]; simpl; intros Hf H; [constructor|].
  apply StronglySorted_inv in H as [H Hx]. constructor.
  - apply IH; [intros; apply Hf; auto|exact H].
  - rewrite Forall_forall in *. intros y Hy.
    apply in_map_iff in Hy as (a & <- & Ha). apply Hf; auto.
Qed.

Lemma StronglySorted_weaken_in {A} (R R' : A -> A -> Prop) (l : list A) :
  (forall a b, In a l -> In b l -> R a b -> R' a b) ->
  StronglySorted R l -> StronglySorted R' l.
Proof.
  intros Hf H. rewrite <- (map_id l).
  apply (StronglySorted_map_in R R' (fun a => a)); assumption.
Qed.

Lemma NoDup_firstn {A} (n : nat) (l : list A) : NoDup l -> NoDup (firstn n l).
Proof.
  intros H. rewrite <- (firstn_skipn n l) in H.
  eapply NoDup_app_remove_r; exact H.
Qed.

Lemma pystr_eqb_spec (a b : pystr) : pystr_eqb a b = true <-> a = b.
Proof.
  unfold pystr_eqb. destruct (list_eq_dec Z.eq_dec a b); split; congruence.
Qed.

Lemma py_in_spec (x : pystr) (xs : list pystr) : py_in x xs = true <-> In x xs.
Proof.
  unfold py_in. rewrite existsb_exists. split.
  - intros (y & Hy & E). apply pystr_eqb_spec in E. subst. exact Hy.
  - intros H. exists x. split; [exact H|]. apply pystr_eqb_spec. reflexivity.
Qed.

Lemma first_index_cons_ne (w x : pystr) (r : list pystr) :
  w <> x -> first_index w (x :: r) = S (first_index w r).
Proof.
  intros Hne. simpl. destruct (pystr_eqb w x) eqn:E; [|reflexivity].
  apply pystr_eqb_spec in E. contradiction.
Qed.

Section Dedup.

Lemma dedup_seen_in (seen l : list pystr) (w : pystr) :
  In w (dedup_seen seen l) <-> In w l /\ ~ In w seen.
Proof.
  revert seen. induction l as [|x l IH]; intros seen; simpl; [tauto|].
  destruct (py_in x seen) eqn:E.
  - apply py_in_spec in E. rewrite IH. split; [tauto|].
    intros [[<-|H] Hn]; [contradiction|tauto].
  - assert (Hxs : ~ In x seen) by (rewrite <- py_in_spec; congruence).
    simpl. rewrite IH. simpl. split.
    + intros [<-|[Hw Hn]]; tauto.
    + intros [[<-|Hw] Hn]; [tauto|].
      destruct (list_eq_dec Z.eq_dec x w) as [<-|Hne]; [tauto|].
      right. split; [exact Hw|intros [Heq|Hin]; [congruence|tauto]].
Qed.

Lemma dedup_seen_NoDup (seen l : list pystr) : NoDup (dedup_seen seen l).
Proof.
  revert seen. induction l as [|x l IH]; intros seen; simpl; [constructor|].
  destruct (py_in x seen); [apply IH|].
  constructor; [|apply IH].
  rewrite dedup_seen_in. simpl. tauto.
Qed.

Lemma dedup_seen_first_order (seen l : list pystr) :
  StronglySorted (fun a b => first_index a l < first_index b l)%nat
    (dedup_seen seen l).
Proof.
  revert seen. induction l as [|x l IH]; intros seen; [constructor|].
  cbn [dedup_seen].
  assert (Hshift : forall seen',
    In x seen' ->
    StronglySorted (fun a b => first_index a (x :: l) < first_index b (x :: l))%nat
      (dedup_seen seen' l)).
  { intros seen' Hx.
    refine (StronglySorted_weaken_in _ _ _ _ (IH seen')).
    intros a b Ha Hb Hab.
    apply dedup_seen_in in Ha as [_ Ha]. apply dedup_seen_in in Hb as [_ Hb].
    rewrite !first_index_cons_ne by (intros ->; contradiction). lia. }
  destruct (py_in x seen) eqn:E.
  - apply Hshift, py_in_spec, E.
  - constructor; [apply Hshift; simpl; tauto|].
    apply Forall_forall. intros b Hb.
    apply dedup_seen_in in Hb as [_ Hb]. cbv beta.
    rewrite (first_index_cons_ne b) by (intros ->; simpl in Hb; tauto).
    simpl. destruct (pystr_eqb x x) eqn:E'; [lia|].
    exfalso. assert (pystr_eqb x x = true) by (apply pystr_eqb_spec; reflexivity).
    congruence.
Qed.

End Dedup.

Section Ranking.
Variable ks : list pystr.

Local Abbreviation fi := (fi_of ks).
Local Abbreviation pair_before := (pair_before ks).

Lemma pair_before_trans (p q r : pystr * nat) :
  pair_before p q -> pair_before q r -> pair_before p r.
Proof. unfold pair_before. lia. Qed.

Lemma insert_by_count_perm (x : pystr * nat) (l : list (pystr * nat)) :
  Permutation (insert_by_count x l) (x :: l).
Proof.
  induction l as [|y l IH]; simpl; [reflexivity|].
  destruct (snd y <=? snd x)%nat; [reflexivity|].
  rewrite IH. apply perm_swap.
Qed.

Lemma sort_by_count_perm (l : list (pystr * nat)) :
  Permutation (sort_by_count l) l.
Proof.
  induction l as [|x l IH]; simpl; [reflexivity|].
  rewrite insert_by_count_perm, IH. reflexivity.
Qed.

Lemma insert_by_count_sorted (x : pystr * nat) (l : list (pystr * nat)) :
  StronglySorted pair_before l -> Forall (fun y => fi x < fi y)%nat l ->
  StronglySorted pair_before (insert_by_count x l).
Proof.
  induction l as [|y l IH]; simpl; intros Hs Hlt.
  - repeat constructor.
  - apply StronglySorted_inv in Hs as [Hs Hy].
    inversion Hlt as [|? ? Hxy Hxl]; subst.
    destruct (snd y <=? snd x)%nat eqn:E.
    + apply Nat.leb_le in E.
      assert (Hb : pair_before x y) by (unfold pair_before; lia).
      constructor; [constructor; assumption|].
      constructor; [exact Hb|].
      eapply Forall_impl; [|exact Hy]. intros z. apply pair_before_trans, Hb.
    + apply Nat.leb_gt in E. constructor; [apply IH; assumption|].
      apply Forall_forall. intros z Hz.
      apply (Permutation_in _ (insert_by_count_perm x l)) in Hz as [<-|Hz].
      * unfold pair_before. lia.
      * rewrite Forall_forall in Hy. auto.
Qed.

Lemma sort_by_count_sorted (l : list (pystr * nat)) :
  StronglySorted (fun p q => fi p < fi q)%nat l ->
  StronglySorted pair_before (sort_by_count l).
Proof.
  induction l as [|x l IH]; simpl; intros H; [constructor|].
  apply StronglySorted_inv in H as [H Hx].
  apply insert_by_count_sorted; [apply IH, H|].
  rewrite Forall_forall in *. intros y Hy.
  apply Hx. apply (Permutation_in _ (sort_by_count_perm l)), Hy.
Qed.

End Ranking.

(** [most_common(10)] over [Counter(ks)]: at most ten distinct elements
    of [ks], each ranked before the next, and any element of [ks] left out
    is ranked after all ten. *)
Lemma most_common_spec (ks : list pystr) :
  let r := map fst (most_common 10 (counter ks)) in
  (length r <= 10)%nat /\ NoDup r /\ (forall w, In w r -> In w ks) /\
  StronglySorted (ranks_before ks) r /\
  (forall w, In w ks -> ~ In w r ->
     length r = 10%nat /\ forall v, In v r -> ranks_before ks v w).
Proof.
  intros r.
  set (S := sort_by_count (counter ks)).
  set (W := map fst S).
  assert (Hr : r = firstn 10 W) by (unfold r, W, most_common; now rewrite firstn_map).
  assert (HW : Permutation W (dedup_seen [] ks)).
  { unfold W, S. rewrite (Permutation_map fst (sort_by_count_perm _)).
    unfold counter. rewrite map_map. simpl. rewrite map_id. reflexivity. }
  assert (HinW : forall w, In w W <-> In w ks).
  { intros w. split; intros H.
    - apply (Permutation_in _ HW), dedup_seen_in in H. tauto.
    - apply (Permutation_in _ (Permutation_sym HW)), dedup_seen_in.
      simpl. tauto. }
  assert (Hsnd : forall p, In p S -> snd p = count_in ks (fst p)).
  { intros p Hp. apply (Permutation_in _ (sort_by_count_perm _)) in Hp.
    unfold counter in Hp. apply in_map_iff in Hp as (w & <- & _). reflexivity. }
  assert (HsW : StronglySorted (ranks_before ks) W).
  { apply (StronglySorted_map_in (pair_before ks)).
    - intros p q Hp Hq. unfold pair_before, ranks_before.
      rewrite (Hsnd p Hp), (Hsnd q Hq). tauto.
    - apply sort_by_count_sorted. unfold counter.
      apply (StronglySorted_map_in
               (fun a b => first_index a ks < first_index b ks)%nat).
      + intros a b _ _ H. exact H.
      + apply dedup_seen_first_order. }
  pose proof (firstn_skipn 10 W) as Hsplit.
  rewrite Hr. split; [|split; [|split; [|split]]].
  - rewrite length_firstn. lia.
  - apply NoDup_firstn. eapply Permutation_NoDup;
      [apply Permutation_sym, HW|apply dedup_seen_NoDup].
  - intros w Hw. apply HinW. rewrite <- Hsplit. apply in_or_app. now left.
  - rewrite <- Hsplit in HsW. apply StronglySorted_app_inv in HsW. tauto.
  - intros w Hw Hn. apply HinW in Hw. rewrite <- Hsplit in Hw, HsW.
    apply in_app_or in Hw as [Hw|Hw]; [contradiction|].
    apply StronglySorted_app_inv in HsW as (_ & _ & Hb).
    split; [|intros v Hv; apply Hb; assumption].
    rewrite length_firstn.
    assert (length (skipn 10 W) <> 0%nat)
      by (destruct (skipn 10 W); [contradiction|discriminate]).
    rewrite length_skipn in *. lia.
Qed.

Section Tokens.
Context {U : UnicodeDB}.

Lemma longest_match_range (n : nat) (s : pystr) (j : nat) :
  longest_match n s = Some j -> (3 <= j <= n)%nat.
Proof.
  induction n as [|n IH]; simpl; [discriminate|].
  match goal with |- context [if ?b then _ else _] => destruct b eqn:E end.
  - intros [= <-]. apply andb_true_iff in E as [E _].
    destruct n as [|[|n]]; [discriminate|discriminate|lia].
  - intros H. apply IH in H. lia.
Qed.

Lemma cyr_prefix_firstn (j : nat) (s : pystr) :
  (j <= length (cyr_prefix s))%nat ->
  Forall (fun c => is_cyr_lower c = true) (firstn j s).
Proof.
  revert j. induction s as [|c s IH]; intros j Hj; simpl.
  - rewrite firstn_nil. constructor.
  - destruct j as [|j]; [constructor|]. simpl.
    simpl in Hj. destruct (is_cyr_lower c) eqn:E; simpl in Hj; [|lia].
    constructor; [exact E|apply IH; lia].
Qed.

(** Every match of [\b[а-яё]{3,}\b] is a run of at least three code
    points of [[а-яё]]. *)
Lemma findall_aux_words (fuel : nat) (prev : option Z) (s : pystr) (w : pystr) :
  In w (findall_aux fuel prev s) ->
  Forall (fun c => is_cyr_lower c = true) w /\ (3 <= length w)%nat.
Proof.
  revert prev s. induction fuel as [|fuel IH]; intros prev s; simpl; [tauto|].
  destruct s as [|c r]; [simpl; tauto|].
  destruct (match_at prev (c :: r)) as [j|] eqn:E; [|apply IH].
  unfold match_at in E.
  destruct (word_boundary prev (hd_error (c :: r))); [|discriminate].
  apply longest_match_range in E.
  intros [<-|H]; [|eapply IH; exact H].
  split; [apply cyr_prefix_firstn; lia|].
  rewrite length_firstn.
  pose proof (length (cyr_prefix (c :: r))) as _.
  assert (length (cyr_prefix (c :: r)) <= length (c :: r))%nat.
  { clear. induction (c :: r) as [|d l IHl]; simpl; [lia|].
    destruct (is_cyr_lower d); simpl; lia. }
  lia.
Qed.

Lemma extract_keywords_counter (text : pystr) :
  extract_keywords text = map fst (most_common 10 (counter (keyword_tokens text))).
Proof. destruct text; reflexivity. Qed.

Lemma keyword_tokens_spec (text w : pystr) :
  In w (keyword_tokens text) ->
  In w (findall_cyr_words (u_lower text)) /\
  Forall (fun c => is_cyr_lower c = true) w /\ 4 <= pylen w /\
  ~ In w stop_words.
Proof.
  destruct text as [|c r]; [simpl; tauto|].
  unfold keyword_tokens. intros H. apply filter_In in H as [Hf Hok].
  unfold keyword_ok in Hok. apply andb_true_iff in Hok as [Hs Hl].
  apply Z.ltb_lt in Hl.
  split; [exact Hf|split; [eapply findall_aux_words; exact Hf|split; [lia|]]].
  rewrite <- py_in_spec. destruct (py_in w stop_words); simpl in Hs; congruence.
Qed.

(** C4 (amended): [extract_keywords] returns at most ten distinct tokens.
    The candidate tokens are the matches of [\b[а-яё]{3,}\b] in the
    lower-cased text that are not stop words and have at least FOUR code
    points.  The result is ordered by decreasing frequency, ties by first
    occurrence; a candidate left out means ten tokens ranked before it. *)
Theorem extract_keywords_top10 (text : pystr) :
  let ks := keyword_tokens text in
  let r := extract_keywords text in
  (forall w, In w ks ->
     In w (findall_cyr_words (u_lower text)) /\
     Forall (fun c => is_cyr_lower c = true) w /\ 4 <= pylen w /\
     ~ In w stop_words) /\
  (length r <= 10)%nat /\ NoDup r /\ (forall w, In w r -> In w ks) /\
  StronglySorted (ranks_before ks) r /\
  (forall w, In w ks -> ~ In w r ->
     length r = 10%nat /\ forall v, In v r -> ranks_before ks v w).
Proof.
  intros ks r. split; [intros w; apply keyword_tokens_spec|].
  unfold r. rewrite extract_keywords_counter. apply most_common_spec.
Qed.

End Tokens.

(** C4 (counterexample): the three-letter word "дом" is matched by the
    regular expression and is not a stop word, but the [len(word) > 3]
    filter drops it, so the result is empty. *)
Lemma extract_keywords_drops_three_letter_words :
  findall_cyr_words (u "дом") = [u "дом"] /\
  py_in (u "дом") stop_words = false /\
  extract_keywords (u "дом") = [].
Proof. vm_compute. repeat split. Qed.

End TextProcessingFacts.

(** ** Ranking *)

Lemma py_take_nonneg {A} (k : Z) (l : list A) :
  0 <= k -> py_take k l = firstn (Z.to_nat k) l.
Proof. intros H. unfold py_take. now rewrite (proj2 (Z.leb_le 0 k) H). Qed.

Lemma py_take_nil {A} (k : Z) : py_take k (@nil A) = [].
Proof. unfold py_take. destruct (0 <=? k); now rewrite firstn_nil. Qed.

Module RankerFacts.
Import Ranker SpecDefs.

(** C1 (amended): for [top_k >= 0], [find_best_matches] returns a list of
    at most [top_k] profiles; when the oracle call raises, its reply is
    not JSON, or reading the decoded reply raises, the result is the first
    [min(top_k, len(candidates))] candidates, in input order and unchanged
    (no score or reason is attached to them). *)
Theorem find_best_matches_fallback (user_profile : Profile)
    (candidates : list Profile) (top_k : Z) (reply : oracle_reply) :
  0 <= top_k ->
  (length (find_best_matches user_profile candidates top_k reply)
     <= Z.to_nat top_k)%nat /\
  ((reply = OracleFailed \/ reply = OracleText None \/
    exists result, reply = OracleText (Some result) /\
                   parse_matches candidates result = None) ->
   find_best_matches user_profile candidates top_k reply
     = firstn (Z.to_nat top_k) candidates /\
   length (find_best_matches user_profile candidates top_k reply)
     = Nat.min (Z.to_nat top_k) (length candidates)).
Proof.
  intros Hk.
  assert (Hfb : forall l : list Profile,
             py_take top_k l = firstn (Z.to_nat top_k) l)
    by (intros; apply py_take_nonneg, Hk).
  split.
  - unfold find_best_matches.
    destruct reply as [|[result|]];
      [|destruct (parse_matches candidates result)|];
      rewrite Hfb, length_firstn; lia.
  - intros H.
    assert (E : find_best_matches user_profile candidates top_k reply
                = firstn (Z.to_nat top_k) candidates).
    { destruct H as [->|[->|(result & -> & Hp)]]; simpl; [apply Hfb|apply Hfb|].
      rewrite Hp. apply Hfb. }
    rewrite E, length_firstn. split; reflexivity.
Qed.

Lemma find_best_matches_fallback_witness :
  0 <= 2 /\
  (length (find_best_matches (sample_profile 0) three_candidates
             2 OracleFailed) <= Z.to_nat 2)%nat /\
  ((OracleFailed = OracleFailed \/ OracleFailed = OracleText None \/
    exists result, OracleFailed = OracleText (Some result) /\
      parse_matches three_candidates result = None) ->
   find_best_matches (sample_profile 0) three_candidates 2
     OracleFailed = firstn (Z.to_nat 2) three_candidates /\
   length (find_best_matches (sample_profile 0) three_candidates
             2 OracleFailed)
     = Nat.min (Z.to_nat 2) (length three_candidates)).
Proof.
  assert (H : 0 <= 2) by lia.
  split; [exact H|].
  exact (find_best_matches_fallback (sample_profile 0)
           three_candidates 2 OracleFailed H).
Defined.

(** C1 (counterexample): when the oracle call fails, the fallback returns
    the candidate itself, with no score and no reason; and with
    [top_k = -1] the slice [candidates[:-1]] has two entries out of three. *)
Lemma find_best_matches_fallback_unscored :
  find_best_matches (sample_profile 0) [sample_profile 1] 5 OracleFailed
    = [sample_profile 1] /\
  match_score (sample_profile 1) = None /\
  match_reason (sample_profile 1) = None /\
  length (find_best_matches (sample_profile 0)
            three_candidates (-1) OracleFailed) = 2%nat.
Proof. repeat split. Qed.

Lemma collect_matches_dropped (candidates : list Profile) (items : list json) :
  Forall (fun m => exists d z, m = JObj d /\
            dict_get d (u "candidate_index") = Some (JInt z) /\
            (z < 1 \/ Z.of_nat (length candidates) < z)) items ->
  collect_matches candidates items = Some [].
Proof.
  induction 1 as [|m items (d & z & -> & Hz & Hout) _ IH]; [reflexivity|].
  assert (Hr : (0 <=? z - 1) && (z - 1 <? Z.of_nat (length candidates)) = false).
  { apply andb_false_iff.
    destruct Hout as [Hout|Hout]; [left; apply Z.leb_gt|right; apply Z.ltb_ge];
      lia. }
  simpl. unfold dict_get_default. rewrite Hz. simpl. rewrite Hr, IH.
  reflexivity.
Qed.

(** C5 (amended): when the decoded reply is a dict whose [matches] list
    holds only entries with an integer [candidate_index] outside
    [[1, len(candidates)]], every entry is dropped and the result is the
    empty list; there is no fallback to the first candidates. *)
Theorem find_best_matches_out_of_range (user_profile : Profile)
    (candidates : list Profile) (top_k : Z)
    (kvs : list (pystr * json)) (items : list json) :
  dict_get kvs (u "matches") = Some (JArr items) ->
  Forall (fun m => exists d z, m = JObj d /\
            dict_get d (u "candidate_index") = Some (JInt z) /\
            (z < 1 \/ Z.of_nat (length candidates) < z)) items ->
  find_best_matches user_profile candidates top_k
    (OracleText (Some (JObj kvs))) = [].
Proof.
  intros Hm Hitems. simpl. unfold dict_get_default. rewrite Hm. simpl.
  rewrite (collect_matches_dropped _ _ Hitems). apply py_take_nil.
Qed.

Lemma find_best_matches_out_of_range_witness :
  dict_get index5_reply (u "matches") = Some (JArr index5_items) /\
  Forall (fun m => exists d z, m = JObj d /\
            dict_get d (u "candidate_index") = Some (JInt z) /\
            (z < 1 \/ Z.of_nat (length three_candidates) < z))
    index5_items /\
  find_best_matches (sample_profile 0) three_candidates 5
    (OracleText (Some (JObj index5_reply))) = [].
Proof.
  assert (H1 : dict_get index5_reply (u "matches") = Some (JArr index5_items))
    by (vm_compute; reflexivity).
  assert (H2 : Forall (fun m => exists d z, m = JObj d /\
            dict_get d (u "candidate_index") = Some (JInt z) /\
            (z < 1 \/ Z.of_nat (length three_candidates) < z))
            index5_items).
  { constructor; [|constructor].
    eexists; exists 5. split; [reflexivity|].
    split; [vm_compute; reflexivity|right; vm_compute; reflexivity]. }
  split; [exact H1|split; [exact H2|]].
  exact (find_best_matches_out_of_range (sample_profile 0)
           three_candidates 5 index5_reply index5_items H1 H2).
Defined.

(** C5 (counterexample): against three candidates with [top_k = 5], the
    out-of-range entry is dropped and the result is empty, not the first
    three candidates. *)
Lemma find_best_matches_index5_empty :
  find_best_matches (sample_profile 0) (map sample_profile [1; 2; 3]) 5
    (OracleText (Some (JObj index5_reply))) = [] /\
  py_take 5 (map sample_profile [1; 2; 3]) <> [].
Proof. split; [vm_compute; reflexivity|discriminate]. Qed.

End RankerFacts.

(** ** Vector search *)

Module VectorDBFacts.
Import VectorDB SpecDefs.

Lemma filter_hits_not_self (uid : Z) (hits : list Hit) (ps : list Profile) :
  filter_hits uid hits = Some ps -> Forall (fun p => user_id p <> Some uid) ps.
Proof.
  revert ps. induction hits as [|h hits IH]; simpl; intros ps.
  - intros [= <-]. constructor.
  - destruct (hit_payload h) as [pl|]; [|discriminate].
    destruct (filter_hits uid hits) as [ps'|]; [|discriminate].
    specialize (IH ps' eq_refl).
    destruct (same_user (user_id pl) uid) eqn:E; simpl; intros [= <-];
      [exact IH|].
    constructor; [|exact IH]. simpl. intros Heq. rewrite Heq in E.
    simpl in E. rewrite Z.eqb_refl in E. discriminate.
Qed.

Lemma Forall_firstn {A} (P : A -> Prop) (n : nat) (l : list A) :
  Forall P l -> Forall P (firstn n l).
Proof.
  intros H. rewrite <- (firstn_skipn n l) in H.
  apply Forall_app in H. tauto.
Qed.

(** C10: [search_similar_profiles] returns a list for every
    argument: the empty list for a [None] embedding or when the client
    raises; for [limit >= 0] at most [limit] profiles, none of which has
    the requester's [user_id]. *)
Theorem search_similar_profiles_total
    (client_search : list Q -> Z -> option (list Hit))
    (embedding : option (list Q)) (uid limit : Z) :
  0 <= limit ->
  let r := search_similar_profiles client_search embedding uid limit in
  (embedding = None -> r = []) /\
  (forall e, embedding = Some e -> client_search e (limit + 1) = None ->
     r = []) /\
  (length r <= Z.to_nat limit)%nat /\
  Forall (fun p => user_id p <> Some uid) r.
Proof.
  intros Hl r. unfold r, search_similar_profiles.
  split; [intros ->; reflexivity|].
  split; [intros e -> Hs; rewrite Hs; reflexivity|].
  destruct embedding as [e|]; [|split; [simpl; lia|constructor]].
  destruct (client_search e (limit + 1)) as [hits|];
    [|split; [simpl; lia|constructor]].
  destruct (filter_hits uid hits) as [ps|] eqn:E;
    [|split; [simpl; lia|constructor]].
  rewrite py_take_nonneg by exact Hl. split.
  - rewrite length_firstn. lia.
  - apply Forall_firstn, (filter_hits_not_self uid hits), E.
Qed.

Lemma search_similar_profiles_total_witness :
  0 <= 15 /\
  let r := search_similar_profiles two_hit_client (Some [1%Q]) 2 15 in
  (Some [1%Q] = None -> r = []) /\
  (forall e, Some [1%Q] = Some e -> two_hit_client e (15 + 1) = None ->
     r = []) /\
  (length r <= Z.to_nat 15)%nat /\
  Forall (fun p => user_id p <> Some 2) r.
Proof.
  assert (H : 0 <= 15) by lia.
  split; [exact H|].
  exact (search_similar_profiles_total two_hit_client (Some [1%Q]) 2 15 H).
Defined.


End VectorDBFacts.

(** ** Candidate retrieval *)

Module RetrieverFacts.
Import Retriever SpecDefs.

Lemma z_in_spec (z : Z) (zs : list Z) : z_in z zs = true <-> In z zs.
Proof.
  unfold z_in. rewrite existsb_exists. split.
  - intros (y & Hy & E). apply Z.eqb_eq in E. subst. exact Hy.
  - intros H. exists z. split; [exact H|apply Z.eqb_refl].
Qed.

Lemma dedup_by_id_in (seen : list Z) (l : list Profile) (p : Profile) :
  In p (dedup_by_id seen l) -> In p l /\ ~ In (telegram_id p) seen.
Proof.
  revert seen. induction l as [|q l IH]; intros seen; simpl; [tauto|].
  destruct (z_in (telegram_id q) seen) eqn:E.
  - intros H. apply IH in H. tauto.
  - intros [<-|H].
    + split; [now left|]. rewrite <- z_in_spec. congruence.
    + apply IH in H. simpl in H. tauto.
Qed.

Lemma dedup_by_id_NoDup (seen : list Z) (l : list Profile) :
  NoDup (map telegram_id (dedup_by_id seen l)).
Proof.
  revert seen. induction l as [|q l IH]; intros seen; simpl; [constructor|].
  destruct (z_in (telegram_id q) seen); [apply IH|].
  simpl. constructor; [|apply IH].
  intros Hin. apply in_map_iff in Hin as (p & Hp & Hin).
  apply dedup_by_id_in in Hin. rewrite Hp in Hin. simpl in Hin. tauto.
Qed.

(** The first entry of [l] with the identifier of [p] is kept. *)
Lemma dedup_by_id_first (seen : list Z) (l : list Profile) (p : Profile) :
  In p (dedup_by_id seen l) ->
  find (fun q => telegram_id q =? telegram_id p) l = Some p.
Proof.
  revert seen. induction l as [|q l IH]; intros seen; simpl; [tauto|].
  destruct (z_in (telegram_id q) seen) eqn:E.
  - intros H. pose proof (dedup_by_id_in _ _ _ H) as [_ Hn].
    destruct (telegram_id q =? telegram_id p) eqn:Eq.
    + apply Z.eqb_eq in Eq. apply z_in_spec in E. rewrite Eq in E. contradiction.
    + eapply IH; exact H.
  - intros [<-|H]; [now rewrite Z.eqb_refl|].
    pose proof (dedup_by_id_in _ _ _ H) as [_ Hn]. simpl in Hn.
    destruct (telegram_id q =? telegram_id p) eqn:Eq.
    + apply Z.eqb_eq in Eq. tauto.
    + eapply IH; exact H.
Qed.

(** Every identifier of [l] not in [seen] is kept. *)
Lemma dedup_by_id_complete (seen : list Z) (l : list Profile) (q : Profile) :
  In q l -> ~ In (telegram_id q) seen ->
  In (telegram_id q) (map telegram_id (dedup_by_id seen l)).
Proof.
  revert seen. induction l as [|r l IH]; intros seen; simpl; [tauto|].
  intros Hq Hn. destruct (z_in (telegram_id r) seen) eqn:E.
  - destruct Hq as [<-|Hq].
    + apply z_in_spec in E. contradiction.
    + apply IH; assumption.
  - simpl. destruct (Z.eq_dec (telegram_id r) (telegram_id q)) as [Eq|Ne];
      [now left|right].
    destruct Hq as [<-|Hq]; [contradiction|].
    apply IH; [exact Hq|]. simpl. intros [H|H]; [congruence|contradiction].
Qed.

Lemma In_firstn_in {A} (n : nat) (l : list A) (x : A) :
  In x (firstn n l) -> In x l.
Proof.
  intros H. rewrite <- (firstn_skipn n l). apply in_or_app. now left.
Qed.

Lemma dedup_by_id_app (seen : list Z) (l1 l2 : list Profile) :
  exists seen',
    (forall z, In z seen' <-> In z seen \/ In z (map telegram_id l1)) /\
    dedup_by_id seen (l1 ++ l2) = dedup_by_id seen l1 ++ dedup_by_id seen' l2.
Proof.
  revert seen. induction l1 as [|p l1 IH]; intros seen; simpl.
  - exists seen. split; [tauto|reflexivity].
  - destruct (z_in (telegram_id p) seen) eqn:E.
    + apply z_in_spec in E.
      destruct (IH seen) as (seen' & H1 & H2).
      exists seen'. split; [|exact H2].
      intros z. rewrite H1. split; [tauto|].
      intros [Hz|[<-|Hz]]; tauto.
    + destruct (IH (telegram_id p :: seen)) as (seen' & H1 & H2).
      exists seen'. split; [|rewrite H2; reflexivity].
      intros z. rewrite H1. simpl. tauto.
Qed.

(** C2: the merged candidate list has each identifier once and at most
    20 entries; it is a run of keyword results followed by a run of
    vector results whose identifiers are not among the keyword results;
    each entry is the first one with its identifier in the keyword list
    followed by the vector list (so, for an identifier in both, the
    keyword entry); every identifier of the two lists is in it unless the
    cap of 20 is reached. *)
Theorem combine_candidates_dedup (kw vec : list Profile) :
  let merged := combine_candidates kw vec in
  NoDup (map telegram_id merged) /\
  (length merged <= 20)%nat /\
  (exists m1 m2, merged = m1 ++ m2 /\
     (forall p, In p m1 -> In p kw) /\
     (forall p, In p m2 -> In p vec /\ ~ In (telegram_id p) (map telegram_id kw))) /\
  (forall p, In p merged ->
     find (fun q => telegram_id q =? telegram_id p) (kw ++ vec) = Some p) /\
  (forall q, In q (kw ++ vec) ->
     In (telegram_id q) (map telegram_id merged) \/ length merged = 20%nat).
Proof.
  intros merged. unfold merged, combine_candidates. simpl concat.
  rewrite app_nil_r.
  set (D := dedup_by_id [] (kw ++ vec)).
  pose proof (firstn_skipn 20 D) as Hsplit.
  assert (HnD : NoDup (map telegram_id D)) by apply dedup_by_id_NoDup.
  split; [|split; [|split; [|split]]].
  - rewrite <- Hsplit, map_app in HnD. eapply NoDup_app_remove_r; exact HnD.
  - rewrite length_firstn. lia.
  - destruct (dedup_by_id_app [] kw vec) as (seen' & Hs & HD).
    unfold D. rewrite HD, firstn_app.
    eexists; eexists; split; [reflexivity|split].
    + intros p Hp. apply In_firstn_in in Hp.
      apply dedup_by_id_in in Hp. tauto.
    + intros p Hp. apply In_firstn_in in Hp.
      apply dedup_by_id_in in Hp as [Hp Hn].
      split; [exact Hp|]. intros Hk. apply Hn, Hs. now right.
  - intros p Hp. apply In_firstn_in in Hp.
    eapply dedup_by_id_first; exact Hp.
  - intros q Hq.
    pose proof (dedup_by_id_complete [] _ q Hq (fun H => H)) as Hc.
    fold D in Hc. rewrite <- Hsplit, map_app in Hc.
    apply in_app_or in Hc as [Hc|Hc]; [now left|right].
    rewrite length_firstn.
    assert (length (skipn 20 D) <> 0%nat).
    { destruct (skipn 20 D); [contradiction|discriminate]. }
    rewrite length_skipn in *. lia.
Qed.

(** C8 (evaluation at the failing input): when the keyword query raises,
    [find_matches] ends in its outer [except] (error message) although the
    vector step would have produced a candidate; treating the failure as
    zero keyword candidates would give that candidate. *)
Lemma find_matches_keyword_failure_aborts :
  find_matches_candidates keyword_store_down [u "стартап"] = MatchingError /\
  find_matches_candidates
    {| env_keyword_search := Ok [];
       env_stored_embedding := true;
       env_backfill := Ok tt;
       env_vector_search := [sample_profile 2];
       env_all_active := Ok [] |} [u "стартап"]
    = Candidates [sample_profile 2].
Proof. split; reflexivity. Qed.

End RetrieverFacts.

(* ------------------------------------------------------------------ *)
Module EmbeddingsFacts.
Import TextProcessing Embeddings.
Local Open Scope R_scope.

Lemma sumsq_scale (c : R) (a : vec) : sumsq (vscale c a) = c * c * sumsq a.
Proof.
  induction a as [|x a IH]; simpl; [ring|].
  unfold sumsq in *. simpl. rewrite IH. ring.
Qed.

Lemma vnorm_scale (c : R) (a : vec) : vnorm (vscale c a) = Rabs c * vnorm a.
Proof.
  unfold vnorm. rewrite sumsq_scale, sqrt_mult_alt.
  - f_equal. apply sqrt_Rsqr_abs.
  - apply Rle_0_sqr.
Qed.

Lemma normalize_unit (a v : vec) : normalize a = Some v -> vnorm v = 1.
Proof.
  unfold normalize. destruct (Req_EM_T (vnorm a) 0) as [E|E];
    [discriminate|].
  intros H. injection H as <-.
  assert (Hpos : 0 < vnorm a).
  { pose proof (sqrt_pos (sumsq a)) as P. unfold vnorm in *. lra. }
  rewrite vnorm_scale, Rabs_right.
  - field. lra.
  - left. apply Rinv_0_lt_compat. exact Hpos.
Qed.

Lemma antipodal_encode_unit (c1 s : pystr) : vnorm (antipodal_encode c1 s) = 1.
Proof.
  unfold antipodal_encode, vnorm, sumsq.
  destruct (pystr_eqb s c1); simpl fold_right;
    (transitivity (sqrt 1); [f_equal; ring|apply sqrt_1]).
Qed.

(** C3: for an encoder whose vectors have unit L2 norm, every vector
    [create_profile_embedding] returns has unit norm; one chunk gives the
    encoder's vector of that chunk; several chunks give the component-wise
    mean of the chunk vectors divided by its norm, and no vector at all
    (numpy's [nan] vector) exactly when that mean has norm zero. *)
Theorem create_profile_embedding_unit {U : UnicodeDB}
    (encode : pystr -> vec) (a1 a2 a3 : pystr)
    (Hunit : forall s, vnorm (encode s) = 1) :
  let chunks := prepare_chunks a1 a2 a3 in
  let r := create_profile_embedding encode a1 a2 a3 in
  (forall v, r = Some v -> vnorm v = 1) /\
  (length chunks = 1%nat -> r = Some (encode (hd [] chunks))) /\
  (length chunks <> 1%nat ->
     let m := vmean (map encode chunks) in
     (r = None <-> vnorm m = 0) /\
     (forall v, r = Some v -> v = vscale (/ vnorm m) m)).
Proof.
  cbv zeta. unfold create_profile_embedding.
  destruct (prepare_chunks a1 a2 a3) as [|c [|c2 rest]].
  2: { split; [intros v H; injection H as <-; apply Hunit|].
       split; [reflexivity|]. intros H; contradiction H; reflexivity. }
  all: split; [apply normalize_unit|].
  all: split; [intros H; discriminate H|].
  all: intros _; split.
  all: unfold normalize; destruct (Req_EM_T _ 0) as [E|E].
  all: try (split; intros H; [exact E|reflexivity]).
  all: try (split; intros H; [discriminate H|contradiction]).
  all: intros v H; first [discriminate H|injection H as <-; reflexivity].
Qed.

Lemma create_profile_embedding_unit_witness :
  (forall s, vnorm (antipodal_encode (u "a") s) = 1) /\
  let chunks := prepare_chunks (u "a") (u "b") (u "c") in
  let r := create_profile_embedding (antipodal_encode (u "a"))
             (u "a") (u "b") (u "c") in
  (forall v, r = Some v -> vnorm v = 1) /\
  (length chunks = 1%nat -> r = Some (antipodal_encode (u "a") (hd [] chunks))) /\
  (length chunks <> 1%nat ->
     let m := vmean (map (antipodal_encode (u "a")) chunks) in
     (r = None <-> vnorm m = 0) /\
     (forall v, r = Some v -> v = vscale (/ vnorm m) m)).
Proof.
  assert (H : forall s, vnorm (antipodal_encode (u "a") s) = 1)
    by (intros s; apply antipodal_encode_unit).
  split; [exact H|].
  exact (create_profile_embedding_unit (antipodal_encode (u "a"))
           (u "a") (u "b") (u "c") H).
Defined.

(** C3 (counterexample): the structured text of two long answers is cut
    into two chunks; for an encoder returning opposite unit vectors for
    them, the mean is the zero vector and the result is numpy's [nan]
    vector, not a unit vector. *)
Lemma create_profile_embedding_opposite_chunks :
  let chunks := prepare_chunks long_answer_1 long_answer_2 short_answer_3 in
  let enc := antipodal_encode (hd [] chunks) in
  length chunks = 2%nat /\
  (forall s, vnorm (enc s) = 1) /\
  create_profile_embedding enc long_answer_1 long_answer_2 short_answer_3
    = None.
Proof.
  cbv zeta.
  assert (Hd : pystr_eqb
            (nth 1 (prepare_chunks long_answer_1 long_answer_2 short_answer_3) [])
            (hd [] (prepare_chunks long_answer_1 long_answer_2 short_answer_3))
          = false) by (vm_compute; reflexivity).
  assert (Hl : length (prepare_chunks long_answer_1 long_answer_2
                         short_answer_3) = 2%nat) by (vm_compute; reflexivity).
  unfold create_profile_embedding.
  destruct (prepare_chunks long_answer_1 long_answer_2 short_answer_3)
    as [|c1 [|c2 [|c3 rest]]]; simpl in Hl; try discriminate Hl.
  simpl in Hd. split; [reflexivity|split].
  - intros s. apply antipodal_encode_unit.
  - unfold normalize. destruct (Req_EM_T _ 0) as [E|E]; [reflexivity|].
    exfalso. apply E. unfold vmean, antipodal_encode. simpl map.
    rewrite Hd. replace (pystr_eqb c1 c1) with true
      by (symmetry; apply TextProcessingFacts.pystr_eqb_spec; reflexivity).
    unfold vnorm, sumsq, vscale, vadd. simpl.
    transitivity (sqrt 0); [f_equal; field|apply sqrt_0].
Qed.

End EmbeddingsFacts.

(* ------------------------------------------------------------------ *)
(** ** MarkdownV2 escaping *)

Module MarkdownFacts.
Import Markdown ProofDefs.

Lemma flat_map_flat_map {A B C} (f : B -> list C) (g : A -> list B) (l : list A) :
  flat_map f (flat_map g l) = flat_map (fun x => flat_map f (g x)) l.
Proof.
  induction l as [|x l IH]; simpl; [reflexivity|].
  rewrite flat_map_app, IH. reflexivity.
Qed.

Lemma existsb_Zeqb (c : Z) (L : list Z) : existsb (Z.eqb c) L = true <-> In c L.
Proof.
  rewrite existsb_exists. split.
  - intros (y & Hy & E). apply Z.eqb_eq in E. subst. exact Hy.
  - intros H. exists c. split; [exact H|apply Z.eqb_refl].
Qed.

Lemma existsb_Zeqb_false (c : Z) (L : list Z) :
  existsb (Z.eqb c) L = false <-> ~ In c L.
Proof.
  rewrite <- existsb_Zeqb. destruct (existsb (Z.eqb c) L); split; congruence.
Qed.

Lemma replace_step (L : list Z) (ch : Z) (text : pystr) :
  ~ In ch L -> ch <> 92 -> In 92 L ->
  py_replace_char ch [92; ch] (flat_map (esc L) text)
    = flat_map (esc (L ++ [ch])) text.
Proof.
  intros Hch H92 HL. unfold py_replace_char. rewrite flat_map_flat_map.
  apply flat_map_ext. intros x. unfold esc. rewrite existsb_app.
  destruct (existsb (Z.eqb x) L) eqn:E; cbn [flat_map orb app existsb].
  - apply existsb_Zeqb in E.
    assert (x <> ch) by (intros ->; contradiction).
    destruct (92 =? ch) eqn:E1; [apply Z.eqb_eq in E1; congruence|].
    destruct (x =? ch) eqn:E2; [apply Z.eqb_eq in E2; congruence|].
    reflexivity.
  - destruct (x =? ch) eqn:E2; cbn [flat_map orb app].
    + apply Z.eqb_eq in E2. subst. reflexivity.
    + reflexivity.
Qed.

Lemma escape_fold (L rest : list Z) (text : pystr) :
  NoDup (L ++ rest) -> In 92 L ->
  fold_left escape_step rest (flat_map (esc L) text)
    = flat_map (esc (L ++ rest)) text.
Proof.
  revert L. induction rest as [|ch rest IH]; intros L Hnd H92; simpl.
  - rewrite app_nil_r. reflexivity.
  - assert (Hch : ~ In ch L).
    { intros Hin. apply NoDup_remove_2 in Hnd. apply Hnd.
      apply in_or_app. now left. }
    assert (Hn92 : ch <> 92) by (intros ->; contradiction).
    unfold escape_step at 2.
    destruct (ch =? 92) eqn:E; [apply Z.eqb_eq in E; contradiction|].
    rewrite replace_step by assumption.
    rewrite IH.
    + rewrite <- app_assoc. reflexivity.
    + rewrite <- app_assoc. exact Hnd.
    + apply in_or_app. now left.
Qed.

Lemma special_chars_NoDup : NoDup special_chars.
Proof. unfold special_chars. repeat constructor; simpl; lia. Qed.

(** [_escape_markdown] with its loop of [str.replace] calls is the
    character-wise escape: every character of [special_chars] gets one
    backslash before it (a backslash inserted by a later replacement is
    not escaped again, as the backslash is replaced first), and every
    other character is kept. *)
Theorem escape_markdown_spec (text : pystr) :
  escape_markdown text =
  flat_map (fun c => if existsb (Z.eqb c) special_chars then [92; c] else [c])
    text.
Proof.
  change (fun c => if existsb (Z.eqb c) special_chars then [92; c] else [c])
    with (esc special_chars).
  destruct text as [|c0 r0]; [reflexivity|].
  unfold escape_markdown.
  change (fold_left escape_step special_chars (c0 :: r0)) with
    (fold_left escape_step (tl special_chars) (escape_step (c0 :: r0) 92)).
  assert (H1 : escape_step (c0 :: r0) 92 = flat_map (esc [92]) (c0 :: r0)).
  { unfold escape_step, py_replace_char. simpl Z.eqb. cbv iota.
    apply flat_map_ext. intros x. unfold esc. simpl.
    destruct (x =? 92) eqn:E; [apply Z.eqb_eq in E; subst|]; reflexivity. }
  rewrite H1.
  rewrite (escape_fold [92] (tl special_chars)).
  - reflexivity.
  - exact special_chars_NoDup.
  - now left.
Qed.

Lemma unescape_esc (text : pystr) :
  unescape (flat_map (esc special_chars) text) = text.
Proof.
  induction text as [|c r IH]; [reflexivity|].
  simpl flat_map. unfold esc at 1.
  destruct (existsb (Z.eqb c) special_chars) eqn:E.
  - apply existsb_Zeqb in E.
    assert (c <> 10) by (intros ->; simpl in E; lia).
    simpl. destruct (c =? 10) eqn:E10; [apply Z.eqb_eq in E10; contradiction|].
    rewrite IH. reflexivity.
  - apply existsb_Zeqb_false in E.
    assert (c <> 92) by (intros ->; apply E; now left).
    simpl. destruct (c =? 92) eqn:E92; [apply Z.eqb_eq in E92; contradiction|].
    rewrite IH. reflexivity.
Qed.

(** The last step of [_strip_markdown] ([re.sub(r'\\(.)', r'\1', ...)])
    undoes [_escape_markdown]: for every text, removing the escapes gives
    the text back. *)
Theorem unescape_escape_markdown (text : pystr) :
  unescape (escape_markdown text) = text.
Proof. rewrite escape_markdown_spec. apply unescape_esc. Qed.

Lemma sub_delim_absent (fuel : nat) (d : Z) (text : pystr) :
  ~ In d text -> sub_delim fuel d text = text.
Proof.
  revert text. induction fuel as [|fuel IH]; intros text H; [reflexivity|].
  destruct text as [|c r]; [reflexivity|]. simpl.
  destruct (c =? d) eqn:E.
  - apply Z.eqb_eq in E. subst. exfalso. apply H. now left.
  - rewrite IH; [reflexivity|]. intros Hin. apply H. now right.
Qed.

Lemma in_esc (x : Z) (text : pystr) :
  In x (flat_map (esc special_chars) text) -> x = 92 \/ In x text.
Proof.
  rewrite in_flat_map. intros (c & Hc & Hx). unfold esc in Hx.
  destruct (existsb (Z.eqb c) special_chars); simpl in Hx.
  - destruct Hx as [<-|[<-|[]]]; [now left|now right].
  - destruct Hx as [<-|[]]. now right.
Qed.

(** [_strip_markdown] gives back a text escaped by [_escape_markdown]
    when the text holds no ['*'] and no ['_'] (the plain-text fallback of
    the profile view shows such an answer as the user wrote it). *)
Theorem strip_markdown_escape (text : pystr) :
  ~ In 42 text -> ~ In 95 text ->
  strip_markdown (escape_markdown text) = text.
Proof.
  intros H42 H95. rewrite escape_markdown_spec.
  change (fun c => if existsb (Z.eqb c) special_chars then [92; c] else [c])
    with (esc special_chars).
  unfold strip_markdown.
  rewrite (sub_delim_absent _ 42).
  2: { intros Hin. apply in_esc in Hin as [H|H]; [lia|contradiction]. }
  rewrite (sub_delim_absent _ 95).
  2: { intros Hin. apply in_esc in Hin as [H|H]; [lia|contradiction]. }
  apply unescape_esc.
Qed.

Lemma strip_markdown_escape_witness :
  ~ In 42 (u "Backend (Go), 5 years!") /\ ~ In 95 (u "Backend (Go), 5 years!") /\
  strip_markdown (escape_markdown (u "Backend (Go), 5 years!"))
    = u "Backend (Go), 5 years!".
Proof.
  assert (H1 : ~ In 42 (u "Backend (Go), 5 years!")) by (vm_compute; intuition lia).
  assert (H2 : ~ In 95 (u "Backend (Go), 5 years!")) by (vm_compute; intuition lia).
  split; [exact H1|split; [exact H2|]].
  exact (strip_markdown_escape (u "Backend (Go), 5 years!") H1 H2).
Defined.

End MarkdownFacts.

(* ------------------------------------------------------------------ *)
(** ** Phone validation *)

Module PhoneFacts.
Import Phone.

Section WithDigits.
Context {D : DigitDB}.

Lemma digits_then_end_spec (lo hi : nat) (s : pystr) :
  ~ In 10 s ->
  digits_then_end lo hi s = true <->
  Forall (fun c => u_isdecimal c = true) s /\ (lo <= length s <= hi)%nat.
Proof.
  intros H10. unfold digits_then_end. rewrite existsb_exists. split.
  - intros (k & Hk & E). apply in_seq in Hk.
    apply andb_prop in E as [E Hend]. apply andb_prop in E as [Hle Hd].
    apply Nat.leb_le in Hle.
    assert (Hs : skipn k s = []).
    { destruct (skipn k s) as [|x [|y r]] eqn:Es; [reflexivity| |discriminate].
      simpl in Hend. apply Z.eqb_eq in Hend. subst x.
      exfalso. apply H10. rewrite <- (firstn_skipn k s), Es.
      apply in_or_app. right. now left. }
    assert (Hlen : length s = k).
    { pose proof (length_skipn k s) as L. rewrite Hs in L. simpl in L. lia. }
    rewrite <- (firstn_skipn k s), Hs, app_nil_r.
    rewrite forallb_forall in Hd. split.
    + apply Forall_forall. exact Hd.
    + rewrite length_firstn. lia.
  - intros [Hd Hlen]. exists (length s). split.
    + apply in_seq. lia.
    + rewrite Nat.leb_refl, firstn_all, skipn_all. simpl.
      rewrite andb_true_r. apply forallb_forall, Forall_forall, Hd.
Qed.

Lemma clean_phone_no_newline (s : pystr) :
  u_isdecimal 10 = false -> ~ In 10 (clean_phone s).
Proof.
  intros H Hin. unfold clean_phone in Hin. apply filter_In in Hin as [_ Hk].
  unfold phone_keep in Hk. rewrite H in Hk. discriminate.
Qed.

(** [_validate_phone] accepts a text exactly when, after the removal of
    every character other than decimal digits and ['+'], what is left is
    ['+'] followed by 10 to 15 digits, or 10 or 11 digits; so spaces,
    dashes, parentheses and any other such character can be inserted
    anywhere without changing the verdict.  (The digit database is assumed
    not to count the newline as a digit.) *)
Theorem validate_phone_spec :
  u_isdecimal 10 = false ->
  (forall phone_text,
     validate_phone phone_text = true <->
     exists ds, Forall (fun c => u_isdecimal c = true) ds /\
       ((clean_phone phone_text = 43 :: ds /\ (10 <= length ds <= 15)%nat) \/
        (clean_phone phone_text = ds /\ (10 <= length ds <= 11)%nat))) /\
  (forall a b x, phone_keep x = false ->
     validate_phone (a ++ x :: b) = validate_phone (a ++ b)).
Proof.
  intros H10. split.
  - intros t. pose proof (clean_phone_no_newline t H10) as Hn.
    unfold validate_phone. simpl existsb. rewrite orb_false_r.
    split.
    + intros E. apply orb_prop in E as [E|E].
      * unfold match_intl in E.
        destruct (clean_phone t) as [|c r] eqn:Ec; [discriminate|].
        apply andb_prop in E as [Ec43 E]. apply Z.eqb_eq in Ec43. subst c.
        apply digits_then_end_spec in E as [Hd Hl].
        2: { intros Hin. apply Hn. now right. }
        exists r. split; [exact Hd|]. left. split; [reflexivity|exact Hl].
      * unfold match_local in E. apply digits_then_end_spec in E as [Hd Hl];
          [|exact Hn].
        exists (clean_phone t). split; [exact Hd|]. right. split; [reflexivity|exact Hl].
    + intros (ds & Hd & [[E Hl]|[E Hl]]).
      * rewrite E. simpl. apply orb_true_intro. left.
        apply digits_then_end_spec; [|split; assumption].
        intros Hin. apply Hn. rewrite E. now right.
      * apply orb_true_intro. right. unfold match_local.
        apply digits_then_end_spec; [exact Hn|]. rewrite E. split; assumption.
  - intros a b x Hx. unfold validate_phone, clean_phone.
    rewrite !filter_app. simpl. rewrite Hx. reflexivity.
Qed.

End WithDigits.

Lemma validate_phone_spec_witness :
  @u_isdecimal basic_digits 10 = false /\
  (forall phone_text,
     validate_phone phone_text = true <->
     exists ds, Forall (fun c => u_isdecimal c = true) ds /\
       ((clean_phone phone_text = 43 :: ds /\ (10 <= length ds <= 15)%nat) \/
        (clean_phone phone_text = ds /\ (10 <= length ds <= 11)%nat))) /\
  (forall a b x, phone_keep x = false ->
     validate_phone (a ++ x :: b) = validate_phone (a ++ b)).
Proof.
  assert (H : @u_isdecimal basic_digits 10 = false) by reflexivity.
  split; [exact H|]. exact (validate_phone_spec H).
Defined.

End PhoneFacts.

(* ------------------------------------------------------------------ *)
(** ** Search query *)

Module SearchQueryFacts.
Import TextProcessing SearchQuery.

Lemma py_join_nil (sep : pystr) (parts : list pystr) :
  (forall x, In x parts -> x <> []) ->
  py_join sep parts = [] <-> parts = [].
Proof.
  intros H. destruct parts as [|x [|y rest]]; simpl; [tauto| |].
  - split; [intros E; exfalso; apply (H x); [now left|exact E]|discriminate].
  - split; [|discriminate]. intros E. apply app_eq_nil in E as [E _].
    exfalso. apply (H x); [now left|exact E].
Qed.

Lemma search_part_nonempty (label : pystr) (ks : list pystr) (x : pystr) :
  label <> [] -> In x (search_part label ks) -> x <> [].
Proof.
  intros Hl. destruct ks; simpl; [tauto|].
  intros [<-|[]] E. apply app_eq_nil in E as [E _]. contradiction.
Qed.

Lemma app_nil_iff {A} (l1 l2 : list A) : l1 ++ l2 = [] <-> l1 = [] /\ l2 = [].
Proof. split; [apply app_eq_nil|intros [-> ->]; reflexivity]. Qed.

Lemma search_part_nil (label : pystr) (ks : list pystr) :
  search_part label (firstn 3 ks) = [] <-> ks = [].
Proof.
  destruct ks as [|k ks]; simpl; split; congruence.
Qed.

(** The search query built by [create_search_query] is empty exactly when
    none of the three answers yields a keyword; a missing answer counts as
    the empty answer, which yields none. *)
Theorem create_search_query_empty {U : UnicodeDB}
    (user_profile : list (pystr * pystr)) :
  create_search_query user_profile = [] <->
  extract_keywords (sdict_get user_profile (u "answer_1") []) = [] /\
  extract_keywords (sdict_get user_profile (u "answer_2") []) = [] /\
  extract_keywords (sdict_get user_profile (u "answer_3") []) = [].
Proof.
  unfold create_search_query. cbv zeta.
  rewrite py_join_nil.
  - rewrite !app_nil_iff, !search_part_nil. tauto.
  - intros x Hx. apply in_app_or in Hx as [Hx|Hx];
      [|apply in_app_or in Hx as [Hx|Hx]];
      (eapply search_part_nonempty; [|exact Hx]); vm_compute; discriminate.
Qed.

End SearchQueryFacts.

(* ------------------------------------------------------------------ *)
(** ** Profile points in Qdrant *)

Module QdrantStoreFacts.
Import Retriever QdrantStore.

Lemma filter_same_id (pts : list Point) (uid v : Z) (p : Point) :
  v <> uid -> pt_id p = uid ->
  filter (fun q => pt_id q =? v)
    (filter (fun q => negb (pt_id q =? uid)) pts ++ [p])
  = filter (fun q => pt_id q =? v) pts.
Proof.
  intros Hv Hp. rewrite filter_app. simpl.
  destruct (pt_id p =? v) eqn:E; [apply Z.eqb_eq in E; congruence|].
  rewrite app_nil_r. induction pts as [|q pts IH]; simpl; [reflexivity|].
  destruct (pt_id q =? uid) eqn:Eq; simpl.
  - apply Z.eqb_eq in Eq. destruct (pt_id q =? v) eqn:E2;
      [apply Z.eqb_eq in E2; congruence|exact IH].
  - destruct (pt_id q =? v); [f_equal|]; exact IH.
Qed.

Lemma filter_removed (pts : list Point) (uid : Z) :
  filter (fun q => pt_id q =? uid)
    (filter (fun q => negb (pt_id q =? uid)) pts) = [].
Proof.
  induction pts as [|q pts IH]; simpl; [reflexivity|].
  destruct (pt_id q =? uid) eqn:E; simpl; [exact IH|]. rewrite E. exact IH.
Qed.

Lemma filter_removed_other (pts : list Point) (uid v : Z) :
  v <> uid ->
  filter (fun q => pt_id q =? v)
    (filter (fun q => negb (pt_id q =? uid)) pts)
  = filter (fun q => pt_id q =? v) pts.
Proof.
  intros Hv. induction pts as [|q pts IH]; simpl; [reflexivity|].
  destruct (pt_id q =? uid) eqn:E; simpl.
  - apply Z.eqb_eq in E. destruct (pt_id q =? v) eqn:E2;
      [apply Z.eqb_eq in E2; congruence|exact IH].
  - destruct (pt_id q =? v); [f_equal|]; exact IH.
Qed.

(** After a successful [save_profile_embedding] for a user,
    [get_user_embedding] returns, when the server answers reads, the
    vector the collection stores for the saved one (for the cosine
    collection its normalised float32 copy, not the saved list itself),
    an earlier point of the user being replaced; for every other user it
    returns the same as before. *)
Theorem save_then_get_user_embedding (c c' : Collection) (uid : Z)
    (embedding : list Q) (profile_data : list (pystr * json)) :
  save_profile_embedding c uid embedding profile_data = Ok c' ->
  get_user_embedding c' uid =
    (if read_ok c then Some (stored_vector c embedding) else None) /\
  forall v, v <> uid -> get_user_embedding c' v = get_user_embedding c v.
Proof.
  unfold save_profile_embedding, upsert. cbn [pt_id pt_vector pt_payload].
  destruct (write_ok c) eqn:W; [|discriminate].
  intros H. injection H as <-. split.
  - unfold get_user_embedding, retrieve, with_points. cbn [read_ok points].
    destruct (read_ok c); [|reflexivity].
    rewrite filter_app, filter_removed. simpl. rewrite Z.eqb_refl. reflexivity.
  - intros v Hv. unfold get_user_embedding, retrieve, with_points.
    cbn [read_ok points]. destruct (read_ok c); [|reflexivity].
    rewrite filter_same_id by (simpl; auto). reflexivity.
Qed.

Lemma save_then_get_user_embedding_witness :
  let c := {| stored_vector := map (Qmult (1#5)); read_ok := true;
              write_ok := true; points := [] |} in
  let c' := with_points c [{| pt_id := 7; pt_vector := [3#5; 4#5];
                              pt_payload := profile_payload 7 [] |}] in
  save_profile_embedding c 7 [3#1; 4#1] [] = Ok c' /\
  get_user_embedding c' 7 =
    (if read_ok c then Some (stored_vector c [3#1; 4#1]) else None) /\
  forall v, v <> 7 -> get_user_embedding c' v = get_user_embedding c v.
Proof.
  intros c c'.
  assert (H : save_profile_embedding c 7 [3#1; 4#1] [] = Ok c')
    by (vm_compute; reflexivity).
  split; [exact H|].
  exact (save_then_get_user_embedding c c' 7 [3#1; 4#1] [] H).
Defined.

(** [delete_profile] answers [True] exactly when [get_user_embedding]
    finds a vector for the user and the server accepts the delete; it
    then removes the user's point and leaves every other user's vector;
    when it answers [False] the collection is unchanged, also when the
    vector exists but the delete raises.  A second [delete_profile]
    after a [True] answers [False]. *)
Theorem delete_profile_spec (c : Collection) (uid : Z) :
  (fst (delete_profile c uid) = true <->
     get_user_embedding c uid <> None /\ write_ok c = true) /\
  (fst (delete_profile c uid) = false -> snd (delete_profile c uid) = c) /\
  (fst (delete_profile c uid) = true ->
     get_user_embedding (snd (delete_profile c uid)) uid = None /\
     fst (delete_profile (snd (delete_profile c uid)) uid) = false /\
     forall v, v <> uid ->
       get_user_embedding (snd (delete_profile c uid)) v
       = get_user_embedding c v).
Proof.
  unfold delete_profile, get_user_embedding, retrieve, delete, with_points.
  cbn [read_ok write_ok points].
  destruct (read_ok c) eqn:R; [|cbn; repeat split; intuition congruence].
  destruct (filter (fun p => pt_id p =? uid) (points c)) as [|p0 rest] eqn:F.
  - cbn. repeat split; intuition congruence.
  - destruct (write_ok c) eqn:W.
    + cbn [fst snd]. split; [split; [intros _; split; congruence | reflexivity]|].
      split; [discriminate|]. intros _.
      cbn. rewrite filter_removed. split; [reflexivity|].
      split; [reflexivity|].
      intros v Hv. rewrite filter_removed_other by exact Hv. reflexivity.
    + cbn [fst snd]. split; [split; [discriminate | intros [_ ?]; discriminate]|].
      split; [reflexivity | discriminate].
Qed.

End QdrantStoreFacts.

(* ------------------------------------------------------------------ *)
(** ** Where ranked and searched profiles come from *)

Module ProvenanceFacts.
Import Ranker VectorDB.

Lemma In_py_take {A} (k : Z) (l : list A) (x : A) :
  In x (py_take k l) -> In x l.
Proof.
  assert (Hf : forall n, In x (firstn n l) -> In x l).
  { intros n H. rewrite <- (firstn_skipn n l). apply in_or_app. now left. }
  unfold py_take. destruct (0 <=? k); apply Hf.
Qed.

Lemma match_entry_from (cands : list Profile) (m : json) (ps : list Profile) :
  match_entry cands m = Some ps ->
  Forall (fun p => exists c s r, In c cands /\ p = with_match c s r) ps.
Proof.
  unfold match_entry. destruct m; try discriminate.
  destruct (py_minus_one _) as [idx|]; [|discriminate].
  destruct (in_range _ _); [|intros H; injection H as <-; constructor].
  destruct idx as [z|q]; [|discriminate].
  destruct (nth_error cands (Z.to_nat z)) as [c|] eqn:E; [|discriminate].
  intros H. injection H as <-. constructor; [|constructor].
  do 3 eexists. split; [eapply nth_error_In; exact E|reflexivity].
Qed.

Lemma collect_matches_from (cands : list Profile) (items : list json)
    (ps : list Profile) :
  collect_matches cands items = Some ps ->
  Forall (fun p => exists c s r, In c cands /\ p = with_match c s r) ps.
Proof.
  revert ps. induction items as [|m items IH]; simpl; intros ps.
  - intros H. injection H as <-. constructor.
  - destruct (match_entry cands m) as [here|] eqn:E1; [|discriminate].
    destruct (collect_matches cands items) as [later|]; [|discriminate].
    intros H. injection H as <-. apply Forall_app. split.
    + eapply match_entry_from. exact E1.
    + apply IH. reflexivity.
Qed.

(** Every profile [find_best_matches] returns is one of the candidates,
    either as it is (the fallback) or as its copy with only
    [match_score] and [match_reason] set: the ranker never invents a
    profile, and never changes a candidate's identity or answers. *)
Theorem find_best_matches_from_candidates (user_profile : Profile)
    (candidates : list Profile) (top_k : Z) (reply : oracle_reply) :
  Forall (fun p => exists c, In c candidates /\
            (p = c \/ exists score reason, p = with_match c score reason))
    (find_best_matches user_profile candidates top_k reply).
Proof.
  assert (Hfb : Forall (fun p => exists c, In c candidates /\
            (p = c \/ exists score reason, p = with_match c score reason))
            (py_take top_k candidates)).
  { apply Forall_forall. intros p Hp. exists p.
    split; [eapply In_py_take; exact Hp|now left]. }
  unfold find_best_matches.
  destruct reply as [|[result|]]; [exact Hfb| |exact Hfb].
  destruct (parse_matches candidates result) as [ms|] eqn:E; [|exact Hfb].
  apply Forall_forall. intros p Hp. apply In_py_take in Hp.
  unfold parse_matches in E. destruct result; try discriminate.
  destruct (py_iter _) as [items|]; [|discriminate].
  apply collect_matches_from in E.
  rewrite Forall_forall in E. destruct (E p Hp) as (c & s & r & Hc & ->).
  exists c. split; [exact Hc|]. right. exists s, r. reflexivity.
Qed.

Lemma filter_hits_from (uid : Z) (hits : list Hit) (ps : list Profile) :
  filter_hits uid hits = Some ps ->
  Forall (fun p => exists h pl, In h hits /\ hit_payload h = Some pl /\
            p = with_similarity pl (hit_score h)) ps.
Proof.
  revert ps. induction hits as [|h hits IH]; simpl; intros ps.
  - intros H. injection H as <-. constructor.
  - destruct (hit_payload h) as [pl|] eqn:Eh; [|discriminate].
    destruct (filter_hits uid hits) as [ps'|]; [|discriminate].
    specialize (IH ps' eq_refl).
    assert (IH' : Forall (fun p => exists h0 pl0, (h = h0 \/ In h0 hits) /\
                     hit_payload h0 = Some pl0 /\
                     p = with_similarity pl0 (hit_score h0)) ps').
    { eapply Forall_impl; [|exact IH]. intros p (h0 & pl0 & H1 & H2 & H3).
      exists h0, pl0. auto. }
    destruct (negb _); intros H; injection H as <-; [|exact IH'].
    constructor; [|exact IH']. exists h, pl. auto.
Qed.

(** Every profile [search_similar_profiles] returns is the payload of a
    point the index client returned for the query, with
    [similarity_score] set to that point's score. *)
Theorem search_similar_profiles_from_hits
    (client_search : list Q -> Z -> option (list Hit))
    (embedding : list Q) (uid limit : Z) :
  Forall (fun p => exists hits h pl,
            client_search embedding (limit + 1) = Some hits /\ In h hits /\
            hit_payload h = Some pl /\ p = with_similarity pl (hit_score h))
    (search_similar_profiles client_search (Some embedding) uid limit).
Proof.
  unfold search_similar_profiles.
  destruct (client_search embedding (limit + 1)) as [hits|] eqn:Ec;
    [|constructor].
  destruct (filter_hits uid hits) as [ps|] eqn:Ef; [|constructor].
  apply filter_hits_from in Ef.
  apply Forall_forall. intros p Hp. apply In_py_take in Hp.
  rewrite Forall_forall in Ef. destruct (Ef p Hp) as (h & pl & H1 & H2 & H3).
  exists hits, h, pl. auto.
Qed.

End ProvenanceFacts.

(* ------------------------------------------------------------------ *)
(** ** Cleaning, sentence splitting and chunking: shape of the output *)

Module TextShapeFacts.
Import TextProcessing ProofDefs.

Lemma sub_ws_runs_length (b : bool) (s : pystr) :
  (length (sub_ws_runs b s) <= length s)%nat.
Proof.
  revert b. induction s as [|c s IH]; intros b; simpl; [lia|].
  pose proof (IH true). pose proof (IH false).
  destruct (py_isspace c), b; simpl; lia.
Qed.

Lemma sub_ws_runs_spaces (b : bool) (s : pystr) :
  Forall (fun c => py_isspace c = true -> c = 32) (sub_ws_runs b s).
Proof.
  revert b. induction s as [|c s IH]; intros b; simpl; [constructor|].
  destruct (py_isspace c) eqn:E, b; auto;
    constructor; auto; intros H; congruence.
Qed.

Lemma filter_length_le {A} (f : A -> bool) (l : list A) :
  (length (filter f l) <= length l)%nat.
Proof.
  induction l as [|x l IH]; simpl; [lia|]. destruct (f x); simpl; lia.
Qed.

Lemma Forall_filter {A} (P : A -> Prop) (f : A -> bool) (l : list A) :
  Forall P l -> Forall P (filter f l).
Proof.
  induction 1 as [|x l Hx _ IH]; simpl; [constructor|].
  destruct (f x); auto.
Qed.

Lemma lstrip_shorter (s : pystr) : (length (lstrip s) <= length s)%nat.
Proof.
  induction s as [|c s IH]; simpl; [lia|].
  destruct (py_isspace c); simpl; lia.
Qed.

Lemma strip_length (s : pystr) : (length (strip s) <= length s)%nat.
Proof.
  unfold strip, rstrip. rewrite length_rev.
  pose proof (lstrip_shorter (rev (lstrip s))) as H1.
  rewrite length_rev in H1. pose proof (lstrip_shorter s). lia.
Qed.

(** The only whitespace [clean_text] leaves is the ASCII space (every
    run of whitespace became one space before the removal step, which
    never adds a character), and it never lengthens its input. *)
Theorem clean_text_spaces {U : UnicodeDB} (s : pystr) :
  Forall (fun c => py_isspace c = true -> c = 32) (clean_text s) /\
  (length (clean_text s) <= length s)%nat.
Proof.
  destruct s as [|c0 r0]; simpl; [split; [constructor|lia]|].
  split.
  - apply Forall_filter, sub_ws_runs_spaces.
  - pose proof (strip_length (c0 :: r0)) as H.
    pose proof (filter_length_le clean_keep (sub_ws_runs false (strip (c0 :: r0)))).
    pose proof (sub_ws_runs_length false (strip (c0 :: r0))). simpl length in *. lia.
Qed.

(** *** Strip *)

Lemma lstrip_lstrip (s : pystr) : lstrip (lstrip s) = lstrip s.
Proof.
  induction s as [|c s IH]; simpl; [reflexivity|].
  destruct (py_isspace c) eqn:E; [exact IH|simpl; now rewrite E].
Qed.

Lemma lstrip_suffix (s : pystr) : exists p, s = p ++ lstrip s.
Proof.
  induction s as [|c s IH]; simpl; [now exists []|].
  destruct (py_isspace c); [|now exists []].
  destruct IH as [p Hp]. exists (c :: p). simpl. now f_equal.
Qed.

Lemma lstrip_fixed (z : pystr) :
  lstrip z = z -> z = [] \/ exists c r, z = c :: r /\ py_isspace c = false.
Proof.
  destruct z as [|c r]; [now left|]. simpl. intros H. right. exists c, r.
  split; [reflexivity|]. destruct (py_isspace c) eqn:E; [|reflexivity].
  pose proof (lstrip_shorter r) as L. rewrite H in L. simpl in L. lia.
Qed.

Lemma rstrip_prefix (z : pystr) : exists t, z = rstrip z ++ t.
Proof.
  destruct (lstrip_suffix (rev z)) as [p Hp]. exists (rev p).
  unfold rstrip. rewrite <- rev_app_distr, <- Hp. now rewrite rev_involutive.
Qed.

Lemma rstrip_rstrip (s : pystr) : rstrip (rstrip s) = rstrip s.
Proof. unfold rstrip. now rewrite rev_involutive, lstrip_lstrip. Qed.

Lemma lstrip_rstrip_fixed (z : pystr) :
  lstrip z = z -> lstrip (rstrip z) = rstrip z.
Proof.
  intros H. destruct (rstrip_prefix z) as [t Ht].
  destruct (rstrip z) as [|c r] eqn:E; [reflexivity|].
  destruct (lstrip_fixed z H) as [->|(c' & r' & Hz & Hc)]; [discriminate|].
  rewrite Hz in Ht. simpl in Ht. injection Ht as <- _.
  simpl. now rewrite Hc.
Qed.

Lemma strip_strip (s : pystr) : strip (strip s) = strip s.
Proof.
  unfold strip. rewrite (lstrip_rstrip_fixed (lstrip s)) by apply lstrip_lstrip.
  apply rstrip_rstrip.
Qed.

Lemma has_nonspace_lstrip (s : pystr) :
  has_nonspace s -> has_nonspace (lstrip s) /\ lstrip s <> [].
Proof.
  induction s as [|c s IH]; simpl; intros (x & Hx & Hs); [contradiction|].
  destruct (py_isspace c) eqn:E.
  - apply IH. exists x. split; [|exact Hs].
    destruct Hx as [<-|Hx]; [congruence|exact Hx].
  - split; [exists x; split; [exact Hx|exact Hs]|discriminate].
Qed.

Lemma has_nonspace_rev (s : pystr) : has_nonspace s -> has_nonspace (rev s).
Proof. intros (x & Hx & Hs). exists x. split; [now apply in_rev in Hx|exact Hs]. Qed.

Lemma has_nonspace_strip (s : pystr) : has_nonspace s -> strip s <> [].
Proof.
  intros H. unfold strip, rstrip.
  apply has_nonspace_lstrip, proj1, has_nonspace_rev, has_nonspace_lstrip in H.
  intros E. apply (proj2 H).
  rewrite <- (rev_involutive (lstrip (rev (lstrip s)))), E. reflexivity.
Qed.

Lemma has_nonspace_app_r (a b : pystr) : has_nonspace b -> has_nonspace (a ++ b).
Proof. intros (x & Hx & Hs). exists x. split; [apply in_or_app; now right|exact Hs]. Qed.

Lemma nonspace_has_nonspace (s : pystr) :
  s <> [] -> Forall (fun c => py_isspace c = false) s -> has_nonspace s.
Proof.
  destruct s as [|c r]; [congruence|]. intros _ H. inversion H; subst.
  exists c. split; [now left|assumption].
Qed.

(** A non-empty stripped string has a non-whitespace code point. *)
Lemma stripped_has_nonspace (s : pystr) :
  s <> [] -> strip s = s -> has_nonspace s.
Proof.
  intros Hn Hs. unfold strip in Hs.
  destruct (rstrip_prefix (lstrip s)) as [t Ht]. rewrite Hs in Ht.
  destruct s as [|c r]; [congruence|].
  simpl in Ht. destruct (py_isspace c) eqn:E.
  - exfalso. pose proof (lstrip_shorter r) as L.
    assert (length (c :: r) <= length (lstrip r))%nat
      by (rewrite Ht; simpl; rewrite length_app; lia).
    simpl in *. lia.
  - exists c. split; [now left|exact E].
Qed.

(** *** Sentences *)

Section WithUnicode.
Context {U : UnicodeDB}.

Lemma re_split_no_terminator (mode : nat) (cur s : pystr) :
  Forall (fun c => is_terminator c = false) cur ->
  Forall (Forall (fun c => is_terminator c = false))
    (re_split_terminators mode cur s).
Proof.
  revert mode cur. induction s as [|c s IH]; intros mode cur Hc; simpl.
  - constructor; [now apply Forall_rev|constructor].
  - destruct (is_terminator c) eqn:T.
    + destruct mode as [|[|m]].
      * constructor; [now apply Forall_rev|apply IH; constructor].
      * apply IH; constructor.
      * constructor; [constructor|apply IH; constructor].
    + destruct (py_isspace c); [destruct mode|];
        apply IH; try constructor; assumption.
Qed.

Lemma sentences_shape (text : pystr) :
  Forall (fun s => s <> [] /\ strip s = s /\
                   Forall (fun c => is_terminator c = false) s)
    (split_into_sentences text).
Proof.
  unfold split_into_sentences.
  pose proof (re_split_no_terminator 0 [] text (Forall_nil _)) as H.
  induction H as [|p ps Hp _ IH]; simpl; [constructor|].
  destruct (strip p) as [|c r] eqn:E; simpl; [exact IH|].
  constructor; [|exact IH]. split; [discriminate|]. split.
  - rewrite <- E. apply strip_strip.
  - rewrite <- E. now apply strip_Forall.
Qed.

(** Every sentence [split_into_sentences] returns is non-empty, already
    stripped, and holds none of the terminators [.], [!] and [?]. *)
Theorem split_into_sentences_shape (text : pystr) :
  Forall (fun s => s <> [] /\ strip s = s /\
                   Forall (fun c => is_terminator c = false) s)
    (split_into_sentences text).
Proof. apply sentences_shape. Qed.

(** *** Chunks *)

Lemma split_ws_aux_words (cur s : pystr) :
  Forall (fun c => py_isspace c = false) cur ->
  Forall (fun w => w <> [] /\ Forall (fun c => py_isspace c = false) w)
    (split_ws_aux cur s).
Proof.
  revert cur. induction s as [|c s IH]; intros cur Hc; simpl.
  - destruct cur as [|x cur]; [constructor|].
    constructor; [|constructor]. split.
    + simpl. destruct (rev cur); discriminate.
    + now apply Forall_rev.
  - destruct (py_isspace c) eqn:E.
    + destruct cur as [|x cur]; [apply IH; constructor|].
      constructor; [|apply IH; constructor]. split.
      * simpl. destruct (rev cur); discriminate.
      * now apply Forall_rev.
    + apply IH. now constructor.
Qed.

Lemma split_ws_words (s : pystr) :
  Forall has_nonspace (split_ws s).
Proof.
  eapply Forall_impl; [|apply split_ws_aux_words; constructor].
  intros w [Hw Hs]. now apply nonspace_has_nonspace.
Qed.

Lemma fold_left_preserves {A B} (P : A -> Prop) (f : A -> B -> A)
    (Q : B -> Prop) (l : list B) (a : A) :
  (forall a x, Q x -> P a -> P (f a x)) ->
  Forall Q l -> P a -> P (fold_left f l a).
Proof.
  intros Hf Hl. revert a.
  induction Hl as [|x l Hx _ IH]; intros a Ha; simpl; auto.
Qed.

Lemma good_strip (s : pystr) : has_nonspace s -> good_chunk (strip s).
Proof. intros H. split; [now apply has_nonspace_strip|apply strip_strip]. Qed.

Lemma nonempty_true {A} (l : list A) : nonempty l = true -> l <> [].
Proof. destruct l; [discriminate|congruence]. Qed.

Variable tp : TextProcessor.

Lemma word_step_ok (st : list pystr * pystr) (w : pystr) :
  has_nonspace w -> chunk_state_ok st -> chunk_state_ok (word_step tp st w).
Proof.
  destruct st as [chunks temp]. unfold chunk_state_ok; simpl.
  intros Hw [Hc Ht]. unfold word_step.
  destruct (_ >? _); simpl.
  - split; [|now right].
    destruct (nonempty temp) eqn:N; [|exact Hc].
    apply Forall_app. split; [exact Hc|]. constructor; [|constructor].
    apply good_strip. destruct Ht as [->|Ht]; [discriminate|exact Ht].
  - split; [exact Hc|right].
    destruct (nonempty temp); [|exact Hw].
    apply has_nonspace_app_r, (has_nonspace_app_r [32]), Hw.
Qed.

Lemma sentence_step_ok (st : list pystr * pystr) (s : pystr) :
  has_nonspace s -> chunk_state_ok st -> chunk_state_ok (sentence_step tp st s).
Proof.
  destruct st as [chunks cur]. unfold chunk_state_ok; simpl.
  intros Hs [Hc Ht]. unfold sentence_step.
  destruct (pylen cur + pylen s >? chunk_size tp).
  - destruct (nonempty cur) eqn:N.
    + simpl. split.
      * apply Forall_app. split; [exact Hc|]. constructor; [|constructor].
        apply good_strip. destruct Ht as [->|Ht]; [discriminate|exact Ht].
      * right. apply has_nonspace_app_r, (has_nonspace_app_r [32]), Hs.
    + destruct (pylen s >? chunk_size tp).
      * pose proof (fold_left_preserves chunk_state_ok (word_step tp)
                      has_nonspace (split_ws s) (chunks, [])
                      (fun a x Hx Ha => word_step_ok a x Hx Ha)
                      (split_ws_words s)) as Hf.
        destruct (fold_left (word_step tp) (split_ws s) (chunks, []))
          as [chunks' temp].
        destruct (Hf (conj Hc (or_introl eq_refl))) as [Hc' Ht'].
        simpl in Hc', Ht'. simpl. split; [exact Hc'|].
        destruct (nonempty temp); [exact Ht'|exact Ht].
      * simpl. split; [exact Hc|now right].
  - simpl. split; [exact Hc|right].
    destruct (nonempty cur); [|exact Hs].
    apply has_nonspace_app_r, (has_nonspace_app_r [32]), Hs.
Qed.

(** [chunk_text] never returns an empty chunk, and when the text is
    longer than [chunk_size] (the path that splits it) every chunk is
    stripped: it neither starts nor ends with whitespace. *)
Theorem chunk_text_chunks_shape (text : pystr) :
  Forall (fun c => c <> [] /\ (pylen text <= chunk_size tp \/ strip c = c))
    (chunk_text tp text).
Proof.
  unfold chunk_text.
  destruct (nonempty text) eqn:N; simpl negb; cbv iota beta.
  2:{ constructor. }
  destruct (pylen text <=? chunk_size tp) eqn:L; simpl orb; cbv iota beta.
  - constructor; [|constructor]. split; [now apply nonempty_true|].
    left. now apply Z.leb_le.
  - pose proof (fold_left_preserves chunk_state_ok (sentence_step tp)
                  has_nonspace (split_into_sentences text) ([], [])
                  (fun a x Hx Ha => sentence_step_ok a x Hx Ha)) as Hf.
    assert (Hs : Forall has_nonspace (split_into_sentences text)).
    { eapply Forall_impl; [|apply sentences_shape].
      intros s (Hn & Hst & _). now apply stripped_has_nonspace. }
    specialize (Hf Hs (conj (Forall_nil _) (or_introl eq_refl))).
    destruct (fold_left (sentence_step tp) (split_into_sentences text) ([], []))
      as [chunks cur].
    destruct Hf as [Hc Ht]. simpl in Hc, Ht.
    assert (Hc' : Forall good_chunk
                    (if nonempty cur then chunks ++ [strip cur] else chunks)).
    { destruct (nonempty cur) eqn:N2; [|exact Hc].
      apply Forall_app. split; [exact Hc|]. constructor; [|constructor].
      apply good_strip. destruct Ht as [->|Ht]; [discriminate|exact Ht]. }
    eapply Forall_impl; [|exact Hc']. intros c [H1 H2]. split; [exact H1|now right].
Qed.

(** *** When no chunk comes out *)

Lemma all_space_lstrip (s : pystr) :
  Forall (fun c => py_isspace c = true) s -> lstrip s = [].
Proof. induction 1 as [|c s Hc _ IH]; simpl; [reflexivity|now rewrite Hc]. Qed.

Lemma all_space_strip (s : pystr) :
  Forall (fun c => py_isspace c = true) s -> strip s = [].
Proof. intros H. unfold strip. now rewrite all_space_lstrip. Qed.

Lemma re_split_pieces_Forall (P : Z -> Prop) (mode : nat) (cur s : pystr) :
  Forall P cur -> Forall (fun c => is_terminator c = false -> P c) s ->
  Forall (Forall P) (re_split_terminators mode cur s).
Proof.
  revert mode cur. induction s as [|c s IH]; intros mode cur Hc Hs; simpl.
  - constructor; [now apply Forall_rev|constructor].
  - inversion Hs as [|c' s' Hcs Hs']; subst.
    destruct (is_terminator c) eqn:T.
    + destruct mode as [|[|m]].
      * constructor; [now apply Forall_rev|apply IH; [constructor|exact Hs']].
      * apply IH; [constructor|exact Hs'].
      * constructor; [constructor|apply IH; [constructor|exact Hs']].
    + destruct (py_isspace c); [destruct mode|];
        apply IH; try constructor; auto.
Qed.

Lemma re_split_covers (c : Z) :
  py_isspace c = false -> is_terminator c = false ->
  forall (mode : nat) (cur s : pystr),
  (mode = 0%nat \/ cur = []) -> (In c cur \/ In c s) ->
  exists p, In p (re_split_terminators mode cur s) /\ In c p.
Proof.
  intros Hsp Ht mode cur s. revert mode cur.
  induction s as [|c' s IH]; intros mode cur Hm Hin; simpl.
  - destruct Hin as [Hin|[]]. exists (rev cur).
    split; [now left|now apply in_rev in Hin].
  - assert (Hcons : forall x l, (exists p, In p l /\ In c p) ->
                      exists p, In p (x :: l) /\ In c p)
      by (intros x l (p & Hp & Hc); exists p; split; [now right|exact Hc]).
    destruct (is_terminator c') eqn:T.
    + assert (Hr : In c cur \/ In c s).
      { destruct Hin as [Hin|[<-|Hin]]; auto. congruence. }
      destruct mode as [|[|m]].
      * destruct Hr as [Hr|Hr].
        -- exists (rev cur). split; [now left|now apply in_rev in Hr].
        -- apply Hcons, IH; auto.
      * destruct Hm as [Hm| ->]; [discriminate|].
        destruct Hr as [[]|Hr]. apply IH; auto.
      * destruct Hm as [Hm| ->]; [discriminate|].
        destruct Hr as [[]|Hr]. apply Hcons, IH; auto.
    + destruct (py_isspace c') eqn:Sp.
      * destruct mode as [|m].
        -- apply IH; [now left|]. destruct Hin as [Hin|[<-|Hin]].
           ++ left. now right.
           ++ left. now left.
           ++ now right.
        -- destruct Hm as [Hm| ->]; [discriminate|].
           destruct Hin as [[]|[<-|Hin]]; [congruence|].
           apply IH; auto.
      * apply IH; [now left|]. destruct Hin as [Hin|[<-|Hin]].
        -- left. now right.
        -- left. now left.
        -- now right.
Qed.

(** No sentence comes out of a text exactly when every code point of it
    is whitespace or a terminator. *)
Lemma split_into_sentences_nil (text : pystr) :
  split_into_sentences text = [] <->
  Forall (fun c => py_isspace c || is_terminator c = true) text.
Proof.
  split.
  - intros H. apply Forall_forall. intros c Hc.
    destruct (py_isspace c) eqn:Sp; [reflexivity|].
    destruct (is_terminator c) eqn:T; [reflexivity|exfalso].
    destruct (re_split_covers c Sp T 0 [] text (or_introl eq_refl) (or_intror Hc))
      as (p & Hp & Hcp).
    assert (Hne : strip p <> [])
      by (apply has_nonspace_strip; exists c; split; assumption).
    assert (Hin : In (strip p) (split_into_sentences text)).
    { unfold split_into_sentences. apply filter_In. split.
      - now apply in_map.
      - destruct (strip p); [congruence|reflexivity]. }
    rewrite H in Hin. exact Hin.
  - intros H. unfold split_into_sentences.
    assert (Hp : Forall (Forall (fun c => py_isspace c = true))
                   (re_split_terminators 0 [] text)).
    { apply re_split_pieces_Forall; [constructor|].
      eapply Forall_impl; [|exact H]. simpl. intros c Hc T.
      rewrite T, orb_false_r in Hc. exact Hc. }
    induction Hp as [|p ps Hp _ IH]; simpl; [reflexivity|].
    now rewrite all_space_strip.
Qed.

Lemma split_ws_aux_nonempty (cur s : pystr) :
  cur <> [] \/ has_nonspace s -> split_ws_aux cur s <> [].
Proof.
  revert cur. induction s as [|c s IH]; intros cur H; simpl.
  - destruct H as [H|(x & [] & _)]. destruct cur; [congruence|discriminate].
  - destruct (py_isspace c) eqn:Sp.
    + destruct cur as [|x cur]; [|discriminate].
      apply IH. destruct H as [H|(x & [<-|Hx] & Hs)]; [congruence|congruence|].
      right. exists x. split; assumption.
    + apply IH. left. discriminate.
Qed.

Lemma fold_left_last {A B} (R : A -> Prop) (Q : B -> Prop) (f : A -> B -> A)
    (l : list B) (a : A) :
  l <> [] -> Forall Q l -> (forall a x, Q x -> R (f a x)) ->
  R (fold_left f l a).
Proof.
  intros Hn Hl Hf. revert a.
  induction Hl as [|x l Hx _ IH]; intros a; [congruence|simpl].
  destruct l as [|y l]; [now apply Hf|]. apply IH. discriminate.
Qed.

Lemma word_step_progress (st : list pystr * pystr) (w : pystr) :
  w <> [] -> snd (word_step tp st w) <> [].
Proof.
  destruct st as [chunks temp]. intros Hw. unfold word_step.
  destruct (_ >? _); simpl; [exact Hw|].
  destruct (nonempty temp); [|exact Hw].
  destruct temp; discriminate.
Qed.

Lemma sentence_step_progress (st : list pystr * pystr) (s : pystr) :
  has_nonspace s ->
  let st' := sentence_step tp st s in fst st' <> [] \/ snd st' <> [].
Proof.
  destruct st as [chunks cur]. intros Hs. simpl.
  assert (Hsn : s <> []) by (destruct Hs as (x & Hx & _); destruct s; [contradiction|discriminate]).
  unfold sentence_step.
  destruct (pylen cur + pylen s >? chunk_size tp).
  - destruct (nonempty cur) eqn:N.
    + left. simpl. destruct chunks; discriminate.
    + destruct (pylen s >? chunk_size tp).
      * pose proof (fold_left_last (fun st : list pystr * pystr => snd st <> [])
                      (fun w : pystr => w <> []) (word_step tp) (split_ws s) (chunks, [])
                      (split_ws_aux_nonempty [] s (or_intror Hs))) as Hf.
        assert (Hw : Forall (fun w => w <> []) (split_ws s)).
        { eapply Forall_impl; [|apply split_ws_aux_words; constructor].
          intros w [H _]; exact H. }
        specialize (Hf Hw (fun a x Hx => word_step_progress a x Hx)).
        cbv beta in Hf. destruct (fold_left (word_step tp) (split_ws s) (chunks, []))
          as [chunks' temp].
        simpl in Hf. right. simpl.
        destruct temp; [exfalso; now apply Hf|discriminate].
      * right. exact Hsn.
  - right. simpl. destruct (nonempty cur); [|exact Hsn].
    destruct cur; discriminate.
Qed.

Lemma chunk_text_nil_iff (text : pystr) :
  chunk_text tp text = [] <->
  text = [] \/
  (chunk_size tp < pylen text /\
   Forall (fun c => py_isspace c || is_terminator c = true) text).
Proof.
  unfold chunk_text.
  destruct text as [|c0 r0] eqn:Et; simpl nonempty; cbv iota beta.
  { split; [now left|reflexivity]. }
  rewrite <- Et. simpl negb; rewrite orb_false_l.
  destruct (pylen text <=? chunk_size tp) eqn:L.
  - apply Z.leb_le in L. split; [discriminate|].
    intros [H|[H _]]; [rewrite Et in H; discriminate|lia].
  - apply Z.leb_gt in L. rewrite <- split_into_sentences_nil.
    destruct (split_into_sentences text) as [|s0 ss] eqn:S.
    + simpl. split; [intros _; right; split; [exact L|reflexivity]|reflexivity].
    + split; [|intros [H|[_ H]]; [rewrite Et in H|]; discriminate].
      intros H. exfalso.
      assert (Hs : Forall has_nonspace (s0 :: ss)).
      { rewrite <- S. eapply Forall_impl; [|apply sentences_shape].
        intros s (Hn & Hst & _). now apply stripped_has_nonspace. }
      pose proof (fold_left_last
                    (fun st : list pystr * pystr => fst st <> [] \/ snd st <> [])
                    has_nonspace (sentence_step tp) (s0 :: ss) ([], [])
                    ltac:(discriminate) Hs
                    (fun a x Hx => sentence_step_progress a x Hx)) as Hf.
      cbv beta in Hf. destruct (fold_left (sentence_step tp) (s0 :: ss) ([], []))
        as [chunks cur].
      simpl in Hf. destruct (nonempty cur) eqn:N.
      * destruct chunks; discriminate.
      * destruct cur; [|discriminate]. destruct Hf as [Hf|Hf]; congruence.
Qed.

(** [chunk_text] returns no chunk exactly when the text is empty, or is
    longer than [chunk_size] and made only of whitespace and the
    terminators [.], [!] and [?] (a text within [chunk_size] is returned
    whole, whatever it holds). *)
Theorem chunk_text_nil (text : pystr) :
  chunk_text tp text = [] <->
  text = [] \/
  (chunk_size tp < pylen text /\
   Forall (fun c => py_isspace c || is_terminator c = true) text).
Proof. apply chunk_text_nil_iff. Qed.

End WithUnicode.

End TextShapeFacts.

(* ------------------------------------------------------------------ *)
(** ** The chunks of a profile *)

Module PrepareFacts.
Import TextProcessing Embeddings TextShapeFacts.

Lemma structured_text_head {U : UnicodeDB} (a1 a2 a3 : pystr) :
  hd_error (structured_text a1 a2 a3) = Some 1057.
Proof. vm_compute. reflexivity. Qed.

(** The ['chunks'] entry of [prepare_profile_text] is never empty, so
    [create_profile_embedding] never averages an empty list of
    embeddings: the structured text starts with the label
    ["Сфера деятельности: "], whose letters survive sentence splitting. *)
Theorem prepare_chunks_nonempty {U : UnicodeDB} (a1 a2 a3 : pystr) :
  prepare_chunks a1 a2 a3 <> [].
Proof.
  pose proof (structured_text_head a1 a2 a3) as Hh.
  unfold prepare_chunks.
  destruct (400 <? pylen (structured_text a1 a2 a3)); [|discriminate].
  intros H. apply chunk_text_nil_iff in H.
  destruct (structured_text a1 a2 a3) as [|c l]; [discriminate|].
  injection Hh as ->.
  destruct H as [H|[_ H]]; [discriminate|].
  apply Forall_inv in H. discriminate H.
Qed.

End PrepareFacts.

(* ------------------------------------------------------------------ *)
(** ** Birthday validation *)

Module BirthdayFacts.
Import Birthday.

Section WithDigits.
Context {D : DigitDB} {V : DigitValue}.

Lemma two_split (p1 p2 : Z -> bool) (s g r : pystr) :
  In (g, r) (two p1 p2 s) -> s = g ++ r.
Proof.
  unfold two. destruct s as [|c1 [|c2 s]]; simpl; try tauto.
  destruct (p1 c1 && p2 c2); simpl; [|tauto].
  intros [E|[]]. injection E as <- <-. reflexivity.
Qed.

Lemma one_split (p : Z -> bool) (s g r : pystr) :
  In (g, r) (one p s) -> s = g ++ r.
Proof.
  unfold one. destruct s as [|c s]; simpl; [tauto|].
  destruct (p c); simpl; [|tauto].
  intros [E|[]]. injection E as <- <-. reflexivity.
Qed.

Lemma day_alts_split (s g r : pystr) : In (g, r) (day_alts s) -> s = g ++ r.
Proof.
  unfold day_alts. rewrite !in_app_iff.
  intros [H|[H|[H|[H|H]]]];
    (eapply two_split; exact H) || (eapply one_split; exact H).
Qed.

Lemma month_alts_split (s g r : pystr) : In (g, r) (month_alts s) -> s = g ++ r.
Proof.
  unfold month_alts. rewrite !in_app_iff.
  intros [H|[H|H]]; (eapply two_split; exact H) || (eapply one_split; exact H).
Qed.

Lemma year_alts_split (s g r : pystr) :
  In (g, r) (year_alts s) ->
  s = g ++ r /\ length g = 4%nat /\ Forall (fun c => u_isdecimal c = true) g.
Proof.
  unfold year_alts, digits_at. intros H.
  destruct (Nat.leb 4 (length s)) eqn:L, (forallb u_isdecimal (firstn 4 s)) eqn:F;
    cbn [andb In] in H; try contradiction.
  destruct H as [E|[]].
  pose proof (f_equal fst E) as E1. pose proof (f_equal snd E) as E2.
  cbn [fst snd] in E1, E2. subst g r.
  split; [symmetry; apply firstn_skipn|]. split.
  - apply Nat.leb_le in L. rewrite length_firstn. lia.
  - apply Forall_forall. intros x Hx. rewrite forallb_forall in F. now apply F.
Qed.

Lemma format_matches_split (sep : Z) (s dg mg yg r : pystr) :
  In (dg, mg, yg, r) (format_matches sep s) ->
  s = dg ++ sep :: mg ++ sep :: yg ++ r /\ length yg = 4%nat /\
  Forall (fun c => u_isdecimal c = true) yg.
Proof.
  unfold format_matches. rewrite in_flat_map.
  intros ([dg' r1] & H1 & H). apply day_alts_split in H1.
  destruct r1 as [|c r1]; [contradiction|].
  destruct (Z.eqb_spec c sep) as [->|]; [|contradiction].
  rewrite in_flat_map in H. destruct H as ([mg' r2] & H2 & H).
  apply month_alts_split in H2.
  destruct r2 as [|c' r2]; [contradiction|].
  destruct (Z.eqb_spec c' sep) as [->|]; [|contradiction].
  rewrite in_map_iff in H. destruct H as ([yg' r3] & E & H3).
  injection E as <- <- <- <-.
  destruct (year_alts_split _ _ _ H3) as (-> & Hl & Hd).
  subst. split; [reflexivity|]. split; assumption.
Qed.

Lemma strptime_dmy_sound (sep : Z) (s : pystr) (y m d : Z) :
  strptime_dmy sep s = Some (y, m, d) ->
  exists dg mg yg,
    s = dg ++ sep :: mg ++ sep :: yg /\ length yg = 4%nat /\
    Forall (fun c => u_isdecimal c = true) yg /\
    y = py_int yg /\ m = py_int mg /\ d = py_int dg /\
    valid_date y m d = true.
Proof.
  unfold strptime_dmy.
  destruct (format_matches sep s) as [|[[[dg mg] yg] r] rest] eqn:E; simpl;
    [discriminate|].
  destruct r as [|c r]; [|discriminate].
  destruct (valid_date (py_int yg) (py_int mg) (py_int dg)) eqn:Vd; [|discriminate].
  intros H. injection H as <- <- <-.
  assert (Hin : In (dg, mg, yg, []) (format_matches sep s)) by (rewrite E; now left).
  destruct (format_matches_split _ _ _ _ _ _ Hin) as (Hs & Hl & Hd).
  rewrite app_nil_r in Hs.
  exists dg, mg, yg. repeat split; assumption.
Qed.

Lemma validate_birthday_parsed (cy : Z) (t : pystr) :
  validate_birthday cy t = true ->
  exists sep dg mg yg,
    In sep separators /\ t = dg ++ sep :: mg ++ sep :: yg /\
    length yg = 4%nat /\ Forall (fun c => u_isdecimal c = true) yg /\
    valid_date (py_int yg) (py_int mg) (py_int dg) = true /\
    1924 <= py_int yg <= cy - 16.
Proof.
  unfold validate_birthday.
  destruct (negb _); [discriminate|].
  rewrite existsb_exists. intros (sep & Hsep & H).
  destruct (strptime_dmy sep t) as [[[y m] d]|] eqn:E; [|discriminate].
  destruct (strptime_dmy_sound _ _ _ _ _ E)
    as (dg & mg & yg & Ht & Hl & Hd & -> & -> & -> & Hv).
  apply andb_true_iff in H as [H1 H2]. apply Z.leb_le in H1, H2.
  exists sep, dg, mg, yg. repeat split; assumption.
Qed.

(** What [_validate_birthday] accepts: a day, a separator [.], [/] or
    [-], a month, the same separator and four decimal digits, nothing
    after; a real calendar date (what [strptime] checks) whose year is
    between 1924 and [current_year - 16]. *)
Theorem validate_birthday_sound (current_year : Z) (t : pystr) :
  validate_birthday current_year t = true ->
  exists sep dg mg yg,
    In sep separators /\ t = dg ++ sep :: mg ++ sep :: yg /\
    length yg = 4%nat /\ Forall (fun c => u_isdecimal c = true) yg /\
    valid_date (py_int yg) (py_int mg) (py_int dg) = true /\
    1924 <= py_int yg <= current_year - 16.
Proof. apply validate_birthday_parsed. Qed.

(** A final newline, which [$] in the first check lets through, is
    always rejected by [strptime] ("unconverted data remains"). *)
Theorem validate_birthday_trailing_newline (current_year : Z) (t : pystr) :
  u_isdecimal 10 = false ->
  validate_birthday current_year (t ++ [10]) = false.
Proof.
  intros H10. destruct (validate_birthday current_year (t ++ [10])) eqn:E;
    [|reflexivity].
  destruct (validate_birthday_parsed _ _ E)
    as (sep & dg & mg & yg & _ & Ht & Hl & Hd & _).
  destruct (exists_last (l := yg)) as (yg' & z & Ey);
    [intros ->; discriminate|].
  rewrite Ey in Ht, Hd.
  replace (dg ++ sep :: mg ++ sep :: yg' ++ [z])
    with ((dg ++ sep :: mg ++ sep :: yg') ++ [z]) in Ht
    by (rewrite <- app_assoc; simpl; rewrite <- app_assoc; reflexivity).
  apply app_inj_tail in Ht as [_ <-].
  apply Forall_app in Hd as [_ Hd]. inversion Hd; congruence.
Qed.

(** The verdict only depends on the current year through the upper
    bound of the birth year: what is accepted one year is accepted in
    every later year. *)
Theorem validate_birthday_later_year (cy cy' : Z) (t : pystr) :
  validate_birthday cy t = true -> cy <= cy' -> validate_birthday cy' t = true.
Proof.
  unfold validate_birthday. destruct (negb _); [discriminate|].
  rewrite !existsb_exists. intros (sep & Hsep & H) Hle.
  exists sep. split; [exact Hsep|].
  destruct (strptime_dmy sep t) as [[[y m] d]|]; [|discriminate].
  apply andb_true_iff in H as [H1 H2]. apply Z.leb_le in H2.
  rewrite H1. simpl. apply Z.leb_le. lia.
Qed.

End WithDigits.

(** *** Dates written with ASCII digits *)

Ltac z_cases :=
  repeat match goal with
  | |- context [Z.eqb ?x ?y] => destruct (Z.eqb_spec x y); try (exfalso; lia)
  | |- context [Z.leb ?x ?y] => destruct (Z.leb_spec0 x y); try (exfalso; lia)
  end.

Lemma ascii_isdecimal (c : Z) : 48 <= c <= 57 -> basic_isdecimal c = true.
Proof. intros H. unfold basic_isdecimal. z_cases; reflexivity. Qed.

Lemma ascii_decimal (c : Z) : 48 <= c <= 57 -> basic_decimal c = c - 48.
Proof. intros H. unfold basic_decimal. z_cases; reflexivity. Qed.

Lemma ascii_not_space (c : Z) : 48 <= c <= 57 -> py_isspace c = false.
Proof. intros H. unfold py_isspace. z_cases; reflexivity. Qed.

Lemma strip_no_space (l : pystr) :
  Forall (fun c => py_isspace c = false) l -> strip l = l.
Proof.
  intros H. assert (Hl : forall l', Forall (fun c => py_isspace c = false) l' ->
                           lstrip l' = l').
  { intros [|c l'] Hc; [reflexivity|]. inversion Hc; subst. simpl.
    now rewrite H2. }
  unfold strip, rstrip. rewrite (Hl l H), (Hl (rev l)) by now apply Forall_rev.
  apply rev_involutive.
Qed.

Lemma mod_digit (x : Z) : 48 <= 48 + x mod 10 <= 57.
Proof. pose proof (Z.mod_pos_bound x 10 ltac:(lia)). lia. Qed.

Lemma div_digit (n k : Z) : 0 < k -> 0 <= n < 10 * k -> 48 <= 48 + n / k <= 57.
Proof.
  intros Hk Hn.
  assert (0 <= n / k < 10) by (split; [apply Z.div_pos|apply Z.div_lt_upper_bound]; lia).
  lia.
Qed.

Lemma pad2_digits (n : Z) : 0 <= n <= 99 ->
  Forall (fun c => 48 <= c <= 57) (pad2 n).
Proof.
  intros H. pose proof (div_digit n 10 ltac:(lia) ltac:(lia)).
  pose proof (mod_digit n). repeat constructor; lia.
Qed.

Lemma pad4_digits (n : Z) : 0 <= n <= 9999 ->
  Forall (fun c => 48 <= c <= 57) (pad4 n).
Proof.
  intros H. pose proof (div_digit n 1000 ltac:(lia) ltac:(lia)).
  pose proof (mod_digit (n / 100)). pose proof (mod_digit (n / 10)).
  pose proof (mod_digit n). repeat constructor; lia.
Qed.

Lemma py_int_ascii (l : pystr) :
  Forall (fun c => 48 <= c <= 57) l ->
  py_int l = fold_left (fun acc c => acc * 10 + (c - 48)) l 0.
Proof.
  intros H. unfold py_int. rewrite strip_no_space.
  2:{ eapply Forall_impl; [|exact H]. intros c Hc. now apply ascii_not_space. }
  generalize 0. induction H as [|c l Hc _ IH]; intros acc; simpl; [reflexivity|].
  rewrite ascii_decimal by exact Hc. apply IH.
Qed.

Lemma pad2_value (n : Z) : 0 <= n <= 99 -> py_int (pad2 n) = n.
Proof.
  intros H. rewrite py_int_ascii by now apply pad2_digits. unfold pad2; cbn [fold_left].
  pose proof (Z.div_mod n 10 ltac:(lia)). lia.
Qed.

Lemma pad4_value (n : Z) : 0 <= n <= 9999 -> py_int (pad4 n) = n.
Proof.
  intros H. rewrite py_int_ascii by now apply pad4_digits. unfold pad4; cbn [fold_left].
  assert (E100 : n / 100 = n / 10 / 10) by (rewrite Z.div_div by lia; reflexivity).
  assert (E1000 : n / 1000 = n / 10 / 10 / 10)
    by (rewrite !Z.div_div by lia; reflexivity).
  rewrite E100, E1000.
  pose proof (Z.div_mod n 10 ltac:(lia)).
  pose proof (Z.div_mod (n / 10) 10 ltac:(lia)).
  pose proof (Z.div_mod (n / 10 / 10) 10 ltac:(lia)).
  lia.
Qed.

Lemma days_in_month_le (y m : Z) : days_in_month y m <= 31.
Proof.
  unfold days_in_month. destruct (m =? 2); [destruct (is_leap y)|];
    [lia|lia|destruct (existsb _ _); lia].
Qed.

Section Alternatives.
Context {A : Type}.

Lemma day_alts_pad (d : Z) (rest : pystr) (F : pystr * pystr -> list A) :
  0 <= d <= 99 ->
  (forall r', F ([48 + d / 10], (48 + d mod 10) :: r') = []) ->
  flat_map F (day_alts (pad2 d ++ rest)) =
  if (1 <=? d) && (d <=? 31) then F (pad2 d, rest) else [].
Proof.
  intros Hd HF.
  pose proof (div_digit d 10 ltac:(lia) ltac:(lia)) as B1.
  pose proof (mod_digit d) as B2.
  pose proof (Z.div_mod d 10 ltac:(lia)).
  assert (Hb : u_isdecimal (48 + d mod 10) = true) by now apply ascii_isdecimal.
  unfold day_alts, two, one, pad2. cbn [app]. rewrite Hb.
  unfold ascii_in. rewrite !flat_map_app.
  z_cases; cbn [andb flat_map app]; rewrite ?HF, ?app_nil_r; reflexivity.
Qed.

Lemma month_alts_pad (m : Z) (rest : pystr) (G : pystr * pystr -> list A) :
  0 <= m <= 99 ->
  (forall r', G ([48 + m / 10], (48 + m mod 10) :: r') = []) ->
  flat_map G (month_alts (pad2 m ++ rest)) =
  if (1 <=? m) && (m <=? 12) then G (pad2 m, rest) else [].
Proof.
  intros Hm HG.
  pose proof (div_digit m 10 ltac:(lia) ltac:(lia)) as B1.
  pose proof (mod_digit m) as B2.
  pose proof (Z.div_mod m 10 ltac:(lia)).
  unfold month_alts, two, one, pad2. cbn [app].
  unfold ascii_in. rewrite !flat_map_app.
  z_cases; cbn [andb flat_map app]; rewrite ?HG, ?app_nil_r; reflexivity.
Qed.

End Alternatives.

Lemma year_alts_pad (y : Z) : 0 <= y <= 9999 -> year_alts (pad4 y) = [(pad4 y, [])].
Proof.
  intros Hy. pose proof (pad4_digits y Hy) as H.
  unfold year_alts, digits_at.
  replace (forallb u_isdecimal (firstn 4 (pad4 y))) with true; [reflexivity|].
  symmetry. apply forallb_forall. intros c Hc.
  rewrite Forall_forall in H. now apply ascii_isdecimal, H.
Qed.

Lemma format_matches_pad (sep sep' d m y : Z) :
  sep < 48 -> sep' < 48 ->
  0 <= d <= 99 -> 0 <= m <= 99 -> 0 <= y <= 9999 ->
  format_matches sep' (pad2 d ++ sep :: pad2 m ++ sep :: pad4 y) =
  if (1 <=? d) && (d <=? 31) && (sep =? sep') && (1 <=? m) && (m <=? 12)
  then [(pad2 d, pad2 m, pad4 y, [])] else [].
Proof.
  intros Hs Hs' Hd Hm Hy.
  pose proof (mod_digit d) as Bd. pose proof (mod_digit m) as Bm.
  unfold format_matches. rewrite day_alts_pad by
    (exact Hd || (intros r'; cbv beta iota;
                  rewrite (proj2 (Z.eqb_neq (48 + d mod 10) sep')) by lia;
                  reflexivity)).
  destruct ((1 <=? d) && (d <=? 31)); [|reflexivity].
  cbn [andb]. destruct (Z.eqb_spec sep sep') as [<-|]; [|reflexivity].
  cbn [andb]. rewrite month_alts_pad by
    (exact Hm || (intros r'; cbv beta iota;
                  rewrite (proj2 (Z.eqb_neq (48 + m mod 10) sep)) by lia;
                  reflexivity)).
  destruct ((1 <=? m) && (m <=? 12)); [|reflexivity].
  rewrite Z.eqb_refl, year_alts_pad by exact Hy. reflexivity.
Qed.

Lemma strptime_dmy_pad (sep sep' d m y : Z) :
  sep < 48 -> sep' < 48 ->
  0 <= d <= 99 -> 0 <= m <= 99 -> 0 <= y <= 9999 ->
  strptime_dmy sep' (pad2 d ++ sep :: pad2 m ++ sep :: pad4 y) =
  if (sep =? sep') && valid_date y m d then Some (y, m, d) else None.
Proof.
  intros Hs Hs' Hd Hm Hy. unfold strptime_dmy.
  rewrite format_matches_pad by assumption.
  pose proof (days_in_month_le y m).
  destruct ((1 <=? d) && (d <=? 31) && (sep =? sep') && (1 <=? m) && (m <=? 12)) eqn:C.
  - cbn [hd_error]. cbv zeta.
    rewrite pad2_value, pad2_value, pad4_value by assumption.
    repeat rewrite andb_true_iff in C. destruct C as [[[[_ _] C] _] _].
    now rewrite C.
  - cbn [hd_error]. destruct (Z.eqb_spec sep sep') as [<-|]; [|reflexivity].
    destruct (valid_date y m d) eqn:V; [|reflexivity].
    unfold valid_date in V. repeat rewrite andb_true_iff in V.
    rewrite !Z.leb_le in V. rewrite ?Z.eqb_refl, ?andb_true_r in C.
    repeat rewrite andb_false_iff in C. rewrite !Z.leb_gt in C.
    exfalso. lia.
Qed.

Lemma match_date_pattern_digits (sep a b a' b' y1 y2 y3 y4 : Z) :
  Forall (fun c => 48 <= c <= 57) [a; b; a'; b'; y1; y2; y3; y4] ->
  match_date_pattern sep [a; b; sep; a'; b'; sep; y1; y2; y3; y4] = true.
Proof.
  intros H. repeat (match goal with H : Forall _ (_ :: _) |- _ => inversion H; subst; clear H end).
  assert (Dg : forall c, 48 <= c <= 57 -> u_isdecimal c = true)
    by (intros c Hc; now apply ascii_isdecimal).
  unfold match_date_pattern. apply existsb_exists. exists 2%nat.
  split; [right; left; reflexivity|].
  unfold digits_at. cbn [length Nat.leb firstn skipn forallb andb].
  rewrite !Dg by assumption. rewrite Z.eqb_refl. cbn [andb].
  apply existsb_exists. exists 2%nat. split; [right; left; reflexivity|].
  cbn [length Nat.leb firstn skipn forallb andb Phone.end_ok].
  rewrite !Dg by assumption. rewrite Z.eqb_refl. reflexivity.
Qed.

(** A date written the way [f"{d:02d}.{m:02d}.{y:04d}"] writes it (or
    with [/] or [-]) is accepted exactly when it is a real calendar date
    whose year lies between 1924 and [current_year - 16]: 29.02.2000 is
    accepted, 29.02.1900 and 31.04.1990 are not. *)
Theorem validate_birthday_padded (current_year sep d m y : Z) :
  In sep separators -> 0 <= d <= 99 -> 0 <= m <= 99 -> 0 <= y <= 9999 ->
  validate_birthday current_year (pad2 d ++ sep :: pad2 m ++ sep :: pad4 y) =
  valid_date y m d && (1924 <=? y) && (y <=? current_year - 16).
Proof.
  intros Hsep Hd Hm Hy.
  assert (Hs : sep < 48) by (destruct Hsep as [<-|[<-|[<-|[]]]]; lia).
  unfold validate_birthday.
  assert (Hp : match_date_pattern sep (pad2 d ++ sep :: pad2 m ++ sep :: pad4 y) = true).
  { pose proof (pad2_digits d Hd) as P1. pose proof (pad2_digits m Hm) as P2.
    pose proof (pad4_digits y Hy) as P3.
    apply match_date_pattern_digits.
    change (Forall (fun c => 48 <= c <= 57) (pad2 d ++ pad2 m ++ pad4 y)).
    apply Forall_app; split; [exact P1|apply Forall_app; split; assumption]. }
  replace (existsb (fun sep0 => match_date_pattern sep0
             (pad2 d ++ sep :: pad2 m ++ sep :: pad4 y)) separators) with true
    by (symmetry; apply existsb_exists; exists sep; split; assumption).
  cbn [negb]. unfold separators. cbn [existsb].
  rewrite !strptime_dmy_pad by lia.
  destruct Hsep as [<-|[<-|[<-|[]]]]; cbn [Z.eqb Pos.eqb andb];
    destruct (valid_date y m d); cbn [andb orb];
    rewrite ?orb_false_r; reflexivity.
Qed.

Lemma validate_birthday_sound_witness :
  validate_birthday 2026 (u "15.03.1990") = true /\
  exists sep dg mg yg,
    In sep separators /\ u "15.03.1990" = dg ++ sep :: mg ++ sep :: yg /\
    length yg = 4%nat /\ Forall (fun c => u_isdecimal c = true) yg /\
    valid_date (py_int yg) (py_int mg) (py_int dg) = true /\
    1924 <= py_int yg <= 2026 - 16.
Proof.
  split; [vm_compute; reflexivity|].
  apply (validate_birthday_sound 2026 (u "15.03.1990")). vm_compute. reflexivity.
Defined.

Lemma validate_birthday_trailing_newline_witness :
  u_isdecimal 10 = false /\
  validate_birthday 2026 (u "15.03.1990" ++ [10]) = false.
Proof.
  split; [reflexivity|]. apply validate_birthday_trailing_newline. reflexivity.
Defined.

Lemma validate_birthday_later_year_witness :
  validate_birthday 2026 (u "01/01/2010") = true /\ 2026 <= 2030 /\
  validate_birthday 2030 (u "01/01/2010") = true.
Proof.
  split; [vm_compute; reflexivity|]. split; [lia|].
  apply (validate_birthday_later_year 2026 2030); [vm_compute; reflexivity|lia].
Defined.

Lemma validate_birthday_padded_witness :
  In 46 separators /\ 0 <= 29 <= 99 /\ 0 <= 2 <= 99 /\ 0 <= 2000 <= 9999 /\
  validate_birthday 2026 (pad2 29 ++ 46 :: pad2 2 ++ 46 :: pad4 2000) =
  valid_date 2000 2 29 && (1924 <=? 2000) && (2000 <=? 2026 - 16).
Proof.
  split; [left; reflexivity|]. split; [lia|]. split; [lia|]. split; [lia|].
  apply validate_birthday_padded; [left; reflexivity|lia|lia|lia].
Defined.

End BirthdayFacts.

(* ------------------------------------------------------------------ *)
(** ** The onboarding conversation *)

Module OnboardingFacts.
Import Onboarding ProofDefs.

Lemma lstrip_spaces (ws t : pystr) :
  Forall (fun c => py_isspace c = true) ws -> lstrip (ws ++ t) = lstrip t.
Proof.
  induction 1 as [|c ws Hc _ IH]; [reflexivity|].
  cbn [app lstrip]. rewrite Hc. exact IH.
Qed.

Lemma lstrip_all_spaces (ws : pystr) :
  Forall (fun c => py_isspace c = true) ws -> lstrip ws = [].
Proof.
  intros H. rewrite <- (app_nil_r ws). rewrite lstrip_spaces by exact H.
  reflexivity.
Qed.

Lemma rstrip_spaces (t ws : pystr) :
  Forall (fun c => py_isspace c = true) ws -> rstrip (t ++ ws) = rstrip t.
Proof.
  intros H. unfold rstrip. rewrite rev_app_distr, lstrip_spaces; [reflexivity|].
  apply Forall_rev. exact H.
Qed.

Lemma strip_spaces_around (ws t ws' : pystr) :
  Forall (fun c => py_isspace c = true) ws ->
  Forall (fun c => py_isspace c = true) ws' ->
  strip (ws ++ t ++ ws') = strip t.
Proof.
  intros H H'. unfold strip. rewrite lstrip_spaces by exact H.
  induction t as [|c t IH].
  - cbn [app]. rewrite lstrip_all_spaces by exact H'. reflexivity.
  - cbn [app lstrip]. destruct (py_isspace c); [exact IH|].
    apply (rstrip_spaces (c :: t)). exact H'.
Qed.


Lemma answer_ok_some (t : pystr) :
  answer_ok (Some t) = true <->
  min_answer_length <= pylen t <= max_answer_length.
Proof. unfold answer_ok. rewrite andb_true_iff, !Z.leb_le. tauto. Qed.

Lemma handle_answer_accept store next q fsm t :
  min_answer_length <= pylen t <= max_answer_length ->
  handle_answer store next q fsm (text_message t) =
  Handled {| fsm_state := Some next; fsm_data := store t (fsm_data fsm) |}
          [Question q].
Proof.
  intros [H1 H2]. unfold handle_answer, text_message. cbn [msg_text].
  destruct (Z.ltb_spec max_answer_length (pylen t)); [lia|].
  destruct (Z.ltb_spec (pylen t) min_answer_length); [lia|].
  reflexivity.
Qed.

Lemma handle_answer_cases store next q fsm m fsm' rs :
  handle_answer store next q fsm m = Handled fsm' rs ->
  fsm' = fsm \/
  exists text, msg_text m = Some text /\
    min_answer_length <= pylen text <= max_answer_length /\
    fsm' = {| fsm_state := Some next; fsm_data := store text (fsm_data fsm) |} /\
    rs = [Question q].
Proof.
  unfold handle_answer. destruct (msg_text m) as [text|]; [|discriminate].
  destruct (Z.ltb_spec max_answer_length (pylen text)) as [H1|H1];
    [intros E; inversion E; left; reflexivity|].
  destruct (Z.ltb_spec (pylen text) min_answer_length) as [H2|H2];
    [intros E; inversion E; left; reflexivity|].
  intros E. inversion E. right. exists text. repeat split; lia.
Qed.

Section WithDigits.
Context {D : DigitDB} {V : DigitValue}.

Lemma data_ok_iff cy d :
  data_ok cy d = true <->
  answer_ok (d_answer_1 d) = true /\ answer_ok (d_answer_2 d) = true /\
  answer_ok (d_answer_3 d) = true /\ birthday_ok cy (d_birthday d) = true.
Proof. unfold data_ok. rewrite !andb_true_iff. tauto. Qed.

Lemma handle_birthday_accept cy fsm t :
  Birthday.validate_birthday cy (strip t) = true ->
  handle_birthday cy fsm (text_message t) =
  Handled {| fsm_state := Some waiting_phone;
             fsm_data := set_birthday (strip t) (fsm_data fsm) |}
          [Question 5].
Proof.
  intros H. unfold handle_birthday, text_message. cbn [msg_text].
  cbv zeta. rewrite H. reflexivity.
Qed.

Lemma handle_birthday_cases cy fsm m fsm' rs :
  handle_birthday cy fsm m = Handled fsm' rs ->
  fsm' = fsm \/
  exists text, msg_text m = Some text /\
    Birthday.validate_birthday cy (strip text) = true /\
    fsm' = {| fsm_state := Some waiting_phone;
              fsm_data := set_birthday (strip text) (fsm_data fsm) |} /\
    rs = [Question 5].
Proof.
  unfold handle_birthday. destruct (msg_text m) as [text|]; [|discriminate].
  cbv zeta.
  destruct (Birthday.validate_birthday cy (strip text)) eqn:Hv;
    intros E; inversion E; [right; exists text; auto | left; reflexivity].
Qed.

Lemma handle_phone_cases fsm m fsm' rs :
  handle_phone fsm m = Handled fsm' rs ->
  fsm' = fsm /\ (rs = [] \/ rs = [PhoneRequired] \/ rs = [InvalidPhone]).
Proof.
  unfold handle_phone, phone_of_message. cbv zeta. intros E.
  repeat (match type of E with context [match ?x with _ => _ end] =>
            lazymatch x with
            | context [match _ with _ => _ end] => fail
            | _ => destruct x
            end end);
    inversion E; auto.
Qed.



Lemma run_cons cy fsm m rest :
  run cy fsm (m :: rest) =
  (fst (run cy (after fsm (dispatch cy fsm m)) rest),
   match dispatch cy fsm m with Some (Handled _ rs) => rs | _ => [] end
   ++ snd (run cy (after fsm (dispatch cy fsm m)) rest)).
Proof.
  cbn [run]. destruct (run cy (after fsm (dispatch cy fsm m)) rest).
  reflexivity.
Qed.

Lemma run_step cy fsm m rest fsm' rs :
  dispatch cy fsm m = Some (Handled fsm' rs) ->
  run cy fsm (m :: rest) =
  (fst (run cy fsm' rest), rs ++ snd (run cy fsm' rest)).
Proof. intros E. rewrite run_cons, E. reflexivity. Qed.

Lemma run_state_handlers_run mention_ok cy fsm ms :
  Forall (fun m => match msg_text m with
                   | Some t => taken_before_state_handlers mention_ok t
                   | None => false
                   end = false) ms ->
  run_state_handlers mention_ok cy fsm ms = Some (run cy fsm ms).
Proof.
  intros H. revert fsm. induction H as [|m rest Hm _ IH]; intros fsm;
    [reflexivity|].
  cbn [run_state_handlers]. rewrite Hm. rewrite IH, run_cons.
  destruct (run cy (after fsm (dispatch cy fsm m)) rest); reflexivity.
Qed.

Lemma run_preserves (P : Fsm -> Prop) cy :
  (forall fsm m fsm' rs,
     P fsm -> dispatch cy fsm m = Some (Handled fsm' rs) -> P fsm') ->
  forall ms fsm, P fsm -> P (fst (run cy fsm ms)).
Proof.
  intros Hstep ms. induction ms as [|m rest IH]; intros fsm Hp; [exact Hp|].
  rewrite run_cons. cbn [fst]. apply IH. unfold after.
  destruct (dispatch cy fsm m) as [[fsm' rs|]|] eqn:E; eauto.
Qed.

Lemma dispatch_data_ok cy fsm m fsm' rs :
  data_ok cy (fsm_data fsm) = true ->
  dispatch cy fsm m = Some (Handled fsm' rs) ->
  data_ok cy (fsm_data fsm') = true.
Proof.
  intros Hok. unfold dispatch.
  rewrite data_ok_iff in Hok |- *. destruct Hok as (H1 & H2 & H3 & H4).
  destruct (fsm_state fsm) as [[]|]; intros E; try discriminate;
    injection E as E.
  - apply handle_answer_cases in E as [-> | (text & _ & Hr & -> & _)];
      [auto|].
    cbn [fsm_data set_answer_1 d_answer_1 d_answer_2 d_answer_3 d_birthday].
    rewrite answer_ok_some. auto.
  - apply handle_answer_cases in E as [-> | (text & _ & Hr & -> & _)];
      [auto|].
    cbn [fsm_data set_answer_2 d_answer_1 d_answer_2 d_answer_3 d_birthday].
    rewrite answer_ok_some. auto.
  - apply handle_answer_cases in E as [-> | (text & _ & Hr & -> & _)];
      [auto|].
    cbn [fsm_data set_answer_3 d_answer_1 d_answer_2 d_answer_3 d_birthday].
    rewrite answer_ok_some. auto.
  - apply handle_birthday_cases in E as [-> | (text & _ & Hv & -> & _)];
      [auto|].
    cbn [fsm_data set_birthday d_answer_1 d_answer_2 d_answer_3 d_birthday
         birthday_ok].
    auto.
  - apply handle_phone_cases in E as [-> _]. auto.
Qed.

Lemma dispatch_state cy fsm m fsm' rs s :
  fsm_state fsm = Some s ->
  dispatch cy fsm m = Some (Handled fsm' rs) ->
  exists s', fsm_state fsm' = Some s' /\ (state_index s <= state_index s')%nat.
Proof.
  intros Hs. unfold dispatch. rewrite Hs.
  destruct s; intros E; injection E as E.
  - apply handle_answer_cases in E as [-> | (text & _ & _ & -> & _)].
    + exists waiting_answer_1. auto.
    + exists waiting_answer_2. cbn. split; [reflexivity | lia].
  - apply handle_answer_cases in E as [-> | (text & _ & _ & -> & _)].
    + exists waiting_answer_2. auto.
    + exists waiting_answer_3. cbn. split; [reflexivity | lia].
  - apply handle_answer_cases in E as [-> | (text & _ & _ & -> & _)].
    + exists waiting_answer_3. auto.
    + exists waiting_birthday. cbn. split; [reflexivity | lia].
  - apply handle_birthday_cases in E as [-> | (text & _ & _ & -> & _)].
    + exists waiting_birthday. auto.
    + exists waiting_phone. cbn. split; [reflexivity | lia].
  - apply handle_phone_cases in E as [-> _]. exists waiting_phone. auto.
Qed.

(** The FSM data written by the onboarding handlers is always well
    formed: whatever messages a chat sends to the state handlers, every
    stored answer has between 10 and 2000 code points, and a stored
    birthday passes [_validate_birthday] for the year in which the
    messages are handled. *)
Theorem run_data_ok (cy : Z) (fsm : Fsm) (ms : list Message) :
  data_ok cy (fsm_data fsm) = true ->
  data_ok cy (fsm_data (fst (run cy fsm ms))) = true.
Proof.
  intros H.
  apply (run_preserves (fun f => data_ok cy (fsm_data f) = true)); [|exact H].
  intros f m f' rs Hf E. exact (dispatch_data_ok cy f m f' rs Hf E).
Qed.

(** The state handlers only move forward through the questionnaire and
    never clear the state: from a state [s], any sequence of messages
    leads to a state at or after [s]. *)
Theorem run_state_progress (cy : Z) (fsm : Fsm) (ms : list Message)
    (s : ProfileState) :
  fsm_state fsm = Some s ->
  exists s', fsm_state (fst (run cy fsm ms)) = Some s' /\
             (state_index s <= state_index s')%nat.
Proof.
  intros Hs.
  apply (run_preserves (fun f => exists s', fsm_state f = Some s' /\
                                   (state_index s <= state_index s')%nat)).
  - intros f m f' rs (s1 & Hs1 & Hle) E.
    destruct (dispatch_state cy f m f' rs s1 Hs1 E) as (s2 & Hs2 & Hle2).
    exists s2. split; [exact Hs2 | lia].
  - exists s. split; [exact Hs | lia].
Qed.

(** [handle_phone] never finishes the onboarding: it does not call
    [complete_profile], store the phone, change the state or the data,
    or confirm anything.  Once a chat is in [waiting_phone], no sequence
    of messages to the state handlers changes its FSM context, and the
    only replies are the two error messages. *)
Theorem run_waiting_phone (cy : Z) (fsm : Fsm) (ms : list Message) :
  fsm_state fsm = Some waiting_phone ->
  fst (run cy fsm ms) = fsm /\
  Forall (fun r => r = PhoneRequired \/ r = InvalidPhone) (snd (run cy fsm ms)).
Proof.
  intros Hs. induction ms as [|m rest [IH1 IH2]]; [split; [reflexivity | constructor]|].
  assert (Hd : dispatch cy fsm m = Some (handle_phone fsm m))
    by (unfold dispatch; rewrite Hs; reflexivity).
  rewrite run_cons, Hd. cbn [fst snd].
  destruct (handle_phone fsm m) as [fsm' rs|] eqn:E.
  - apply handle_phone_cases in E as [-> Hrs]. cbn [after].
    split; [exact IH1|]. apply Forall_app. split; [|exact IH2].
    destruct Hrs as [-> | [-> | ->]];
      [constructor
      | constructor; [left; reflexivity | constructor]
      | constructor; [right; reflexivity | constructor]].
  - cbn [after]. split; [exact IH1 | exact IH2].
Qed.


(** The questionnaire as the code runs it: after [start_onboarding],
    three answers of 10 to 2000 code points and a birthday text that
    passes [_validate_birthday] once stripped, none of them a [/start] or
    [/match] command or a menu label, reach the state handlers and lead
    to [waiting_phone], with the answers stored verbatim and the birthday
    stored stripped, and questions 2 to 5 asked in order. *)
Theorem onboarding_questionnaire (mention_ok : pystr -> bool) (cy uid : Z)
    (display : pystr) (fsm0 : Fsm) (a1 a2 a3 b : pystr) :
  min_answer_length <= pylen a1 <= max_answer_length ->
  min_answer_length <= pylen a2 <= max_answer_length ->
  min_answer_length <= pylen a3 <= max_answer_length ->
  Birthday.validate_birthday cy (strip b) = true ->
  Forall (fun t => taken_before_state_handlers mention_ok t = false) [a1; a2; a3; b] ->
  run_state_handlers mention_ok cy (after fsm0 (Some (start_onboarding uid display fsm0)))
      [text_message a1; text_message a2; text_message a3; text_message b] =
  Some ({| fsm_state := Some waiting_phone;
           fsm_data := set_birthday (strip b) (set_answer_3 a3 (set_answer_2 a2
                         (set_answer_1 a1 (set_user uid display (fsm_data fsm0))))) |},
        [Question 2; Question 3; Question 4; Question 5]).
Proof.
  intros H1 H2 H3 Hb Hf. rewrite (run_state_handlers_run mention_ok).
  2: { inversion Hf as [|? ? F1 Hf1]; inversion Hf1 as [|? ? F2 Hf2];
       inversion Hf2 as [|? ? F3 Hf3]; inversion Hf3 as [|? ? F4 _].
       repeat constructor; assumption. }
  f_equal. cbn [after start_onboarding].
  set (d0 := set_user uid display (fsm_data fsm0)).
  rewrite (run_step cy _ _ _
             {| fsm_state := Some waiting_answer_2; fsm_data := set_answer_1 a1 d0 |}
             [Question 2])
    by (unfold dispatch, handle_answer_1; cbn [fsm_state];
        rewrite handle_answer_accept by exact H1; reflexivity).
  rewrite (run_step cy _ _ _
             {| fsm_state := Some waiting_answer_3;
                fsm_data := set_answer_2 a2 (set_answer_1 a1 d0) |}
             [Question 3])
    by (unfold dispatch, handle_answer_2; cbn [fsm_state];
        rewrite handle_answer_accept by exact H2; reflexivity).
  rewrite (run_step cy _ _ _
             {| fsm_state := Some waiting_birthday;
                fsm_data := set_answer_3 a3 (set_answer_2 a2 (set_answer_1 a1 d0)) |}
             [Question 4])
    by (unfold dispatch, handle_answer_3; cbn [fsm_state];
        rewrite handle_answer_accept by exact H3; reflexivity).
  rewrite (run_step cy _ _ _
             {| fsm_state := Some waiting_phone;
                fsm_data := set_birthday (strip b)
                  (set_answer_3 a3 (set_answer_2 a2 (set_answer_1 a1 d0))) |}
             [Question 5])
    by (unfold dispatch; cbn [fsm_state];
        rewrite handle_birthday_accept by exact Hb; reflexivity).
  reflexivity.
Qed.

(** [handle_birthday] strips the text before validating it: whitespace
    around a date (a trailing newline included, which
    [_validate_birthday] alone rejects) changes nothing. *)
Theorem handle_birthday_strip (cy : Z) (fsm : Fsm) (ws t ws' : pystr) :
  Forall (fun c => py_isspace c = true) ws ->
  Forall (fun c => py_isspace c = true) ws' ->
  handle_birthday cy fsm (text_message (ws ++ t ++ ws')) =
  handle_birthday cy fsm (text_message t).
Proof.
  intros H H'. unfold handle_birthday, text_message. cbn [msg_text].
  rewrite strip_spaces_around by assumption. reflexivity.
Qed.

(** A message without text (a photo, a sticker, a contact) makes the
    answer and birthday handlers raise ([len(None)], [None.strip()]),
    leaving the chat where it is; in [waiting_phone] a message with
    neither text nor contact gets [ERROR_MESSAGES["phone_required"]]. *)
Theorem dispatch_without_text (cy : Z) (fsm : Fsm) (m : Message)
    (s : ProfileState) :
  msg_text m = None ->
  fsm_state fsm = Some s ->
  dispatch cy fsm m =
  Some (match s with
        | waiting_phone =>
            match msg_contact m, d_user_id (fsm_data fsm) with
            | None, Some _ => Handled fsm [PhoneRequired]
            | Some _, Some _ =>
                match d_answer_1 (fsm_data fsm), d_answer_2 (fsm_data fsm),
                      d_answer_3 (fsm_data fsm), d_birthday (fsm_data fsm) with
                | Some _, Some _, Some _, Some _ => Handled fsm []
                | _, _, _, _ => HandlerError
                end
            | _, None => HandlerError
            end
        | _ => HandlerError
        end).
Proof.
  intros Ht Hs. unfold dispatch. rewrite Hs.
  destruct s; unfold handle_answer_1, handle_answer_2, handle_answer_3,
    handle_answer, handle_birthday, handle_phone, phone_of_message;
    rewrite ?Ht; try reflexivity.
  cbv zeta. destruct (d_user_id (fsm_data fsm)), (msg_contact m); reflexivity.
Qed.

End WithDigits.

Lemma run_data_ok_witness :
  data_ok 2026 (fsm_data {| fsm_state := Some waiting_answer_1;
                            fsm_data := empty_data |}) = true /\
  data_ok 2026 (fsm_data (fst (run 2026
    {| fsm_state := Some waiting_answer_1; fsm_data := empty_data |}
    [text_message (u "коротко");
     text_message (u "Разработка мобильных приложений");
     {| msg_text := None; msg_contact := Some (u "+79991234567") |};
     text_message (u "Ищу инвесторов и партнёров");
     text_message (u "Консультации по маркетингу");
     text_message (u "1990-03-15");
     text_message (u "15.03.1990")]))) = true.
Proof.
  split; [vm_compute; reflexivity|].
  apply run_data_ok. vm_compute. reflexivity.
Defined.

Lemma run_state_progress_witness :
  fsm_state {| fsm_state := Some waiting_answer_2; fsm_data := empty_data |}
    = Some waiting_answer_2 /\
  exists s', fsm_state (fst (run 2026
               {| fsm_state := Some waiting_answer_2; fsm_data := empty_data |}
               [text_message (u "Ищу инвесторов и партнёров");
                {| msg_text := None; msg_contact := None |}])) = Some s' /\
             (state_index waiting_answer_2 <= state_index s')%nat.
Proof.
  split; [reflexivity|].
  apply (run_state_progress 2026 _ _ waiting_answer_2). reflexivity.
Defined.

Lemma run_waiting_phone_witness :
  let fsm := {| fsm_state := Some waiting_phone;
                fsm_data := {| d_user_id := Some 7; d_user_display := Some (u "Anna");
                               d_answer_1 := Some (u "Разработка приложений");
                               d_answer_2 := Some (u "Ищу инвесторов");
                               d_answer_3 := Some (u "Консультации по маркетингу");
                               d_birthday := Some (u "15.03.1990") |} |} in
  let ms := [text_message (u "+79991234567");
             {| msg_text := None; msg_contact := Some (u "12") |};
             text_message share_phone_label;
             text_message (u "not a phone")] in
  fsm_state fsm = Some waiting_phone /\
  fst (run 2026 fsm ms) = fsm /\
  Forall (fun r => r = PhoneRequired \/ r = InvalidPhone) (snd (run 2026 fsm ms)).
Proof.
  intros fsm ms. split; [reflexivity|].
  apply run_waiting_phone. reflexivity.
Defined.

Lemma onboarding_questionnaire_witness :
  min_answer_length <= pylen (u "Разработка мобильных приложений") <= max_answer_length /\
  min_answer_length <= pylen (u "Ищу инвесторов и партнёров") <= max_answer_length /\
  min_answer_length <= pylen (u "          ") <= max_answer_length /\
  Birthday.validate_birthday 2026 (strip (u " 15.03.1990" ++ [10])) = true /\
  Forall (fun t => taken_before_state_handlers (fun _ => true) t = false)
    [u "Разработка мобильных приложений"; u "Ищу инвесторов и партнёров";
     u "          "; u " 15.03.1990" ++ [10]] /\
  run_state_handlers (fun _ => true) 2026 (after {| fsm_state := None; fsm_data := empty_data |}
              (Some (start_onboarding 7 (u "Anna")
                       {| fsm_state := None; fsm_data := empty_data |})))
      [text_message (u "Разработка мобильных приложений");
       text_message (u "Ищу инвесторов и партнёров");
       text_message (u "          ");
       text_message (u " 15.03.1990" ++ [10])] =
  Some ({| fsm_state := Some waiting_phone;
      fsm_data := set_birthday (strip (u " 15.03.1990" ++ [10]))
                    (set_answer_3 (u "          ")
                    (set_answer_2 (u "Ищу инвесторов и партнёров")
                    (set_answer_1 (u "Разработка мобильных приложений")
                    (set_user 7 (u "Anna")
                       (fsm_data {| fsm_state := None; fsm_data := empty_data |}))))) |},
   [Question 2; Question 3; Question 4; Question 5]).
Proof.
  assert (H1 : min_answer_length <= pylen (u "Разработка мобильных приложений")
               <= max_answer_length)
    by (vm_compute; split; discriminate).
  assert (H2 : min_answer_length <= pylen (u "Ищу инвесторов и партнёров")
               <= max_answer_length)
    by (vm_compute; split; discriminate).
  assert (H3 : min_answer_length <= pylen (u "          ") <= max_answer_length)
    by (vm_compute; split; discriminate).
  assert (Hb : Birthday.validate_birthday 2026 (strip (u " 15.03.1990" ++ [10]))
               = true) by (vm_compute; reflexivity).
  assert (Hf : Forall (fun t => taken_before_state_handlers (fun _ => true) t = false)
    [u "Разработка мобильных приложений"; u "Ищу инвесторов и партнёров";
     u "          "; u " 15.03.1990" ++ [10]])
    by (repeat constructor; vm_compute; reflexivity).
  split; [exact H1|]. split; [exact H2|]. split; [exact H3|]. split; [exact Hb|]. split; [exact Hf|].
  exact (onboarding_questionnaire (fun _ => true) 2026 7 (u "Anna")
           {| fsm_state := None; fsm_data := empty_data |} _ _ _ _ H1 H2 H3 Hb Hf).
Defined.

Lemma handle_birthday_strip_witness :
  Forall (fun c => py_isspace c = true) [32; 32] /\
  Forall (fun c => py_isspace c = true) [13; 10] /\
  handle_birthday 2026 {| fsm_state := Some waiting_birthday; fsm_data := empty_data |}
    (text_message ([32; 32] ++ u "15.03.1990" ++ [13; 10])) =
  handle_birthday 2026 {| fsm_state := Some waiting_birthday; fsm_data := empty_data |}
    (text_message (u "15.03.1990")).
Proof.
  split; [repeat constructor|]. split; [repeat constructor|].
  apply handle_birthday_strip; repeat constructor.
Defined.

Lemma dispatch_without_text_witness :
  msg_text {| msg_text := None; msg_contact := None |} = None /\
  fsm_state {| fsm_state := Some waiting_birthday; fsm_data := empty_data |}
    = Some waiting_birthday /\
  dispatch 2026 {| fsm_state := Some waiting_birthday; fsm_data := empty_data |}
    {| msg_text := None; msg_contact := None |} = Some HandlerError.
Proof.
  split; [reflexivity|]. split; [reflexivity|].
  exact (dispatch_without_text 2026
           {| fsm_state := Some waiting_birthday; fsm_data := empty_data |}
           {| msg_text := None; msg_contact := None |} waiting_birthday
           eq_refl eq_refl).
Defined.

End OnboardingFacts.
